(** * node-iotdb: Things, bands, timestamps and ThingArrays

    A shallow embedding of the state engine of node-iotdb
    ([meta.js], [model.js], [thing_array.js]) and the properties its
    specification states about it, followed by further properties of
    these modules and of the keys of [keystore.js], of [slugify] of
    [id.js] and of the coercion of values of [attribute.js].

    JavaScript objects used as dictionaries are finite maps over their
    own keys; [process.nextTick] is an explicit queue of scheduled
    tasks; [EventEmitter.emit] appends to an event log (listeners are
    the environment of the functions modelled here). *)

From Stdlib Require Import ZArith String Ascii List Bool Lia.
From stdpp Require Import base decidable option list gmap strings.

Open Scope string_scope.
Open Scope list_scope.

(** ** JavaScript values *)

(** The primitive values that bands and dictionaries hold.  Numbers are
    integers here; arrays, which [===] compares by reference, only occur
    as property values of attributes ([pval]). *)
Inductive jsval : Type :=
  | VUndefined
  | VNull
  | VBool (b : bool)
  | VNum (n : Z)
  | VStr (s : string).

#[global] Instance jsval_eq_dec : EqDecision jsval.
Proof. solve_decision. Defined.

(** [a === b] on primitives. *)
Definition strict_eq (a b : jsval) : bool := bool_decide (a = b).

(** Reading a key of a dictionary: a missing key reads [undefined]. *)
Definition js_get (d : gmap string jsval) (k : string) : jsval :=
  default VUndefined (d !! k).

(** An ISO-8601 timestamp, or none: the ["@timestamp"] entry of a
    dictionary, or the [_itimestamp] / [_otimestamp] field of a Thing. *)
Abbreviation timestamp := (option string).

(** A dictionary handed to an [update]: its ["@timestamp"] entry and
    its other entries in key order.  Keys are already expanded
    ([_.ld.expand] is not among the sources). *)
Record dict : Type := Dict {
  d_timestamp : timestamp;
  d_entries : list (string * jsval)
}.

(** A property value of an attribute or of a match dictionary: a
    primitive or an array of primitives. *)
Inductive pval : Type :=
  | PAtom (v : jsval)
  | PArr (vs : list jsval).

(** ** Constants and helpers

    What the modelled functions take from constants.js and helpers/,
    none of them among the sources: [constants.iot_reachable],
    [constants.iot_purpose], [constants.schema_name]; [_.ld.expand] on
    a string and on a match dictionary; [_.timestamp.add], given as
    the ["@timestamp"] entry of the dictionary it returns (from the
    clock and the entry it found); [_.timestamp.advance];
    [iotdb.shutting_down()]. *)
Class Helpers : Type := {
  iot_reachable : string;
  iot_purpose : string;
  schema_name : string;
  ld_expand : string -> string;
  ld_expand_dict : list (string * pval) -> list (string * pval);
  timestamp_add : string -> timestamp -> timestamp;
  timestamp_advance : timestamp -> timestamp;
  shutting_down : bool
}.

(** ** helpers/timestamp *)

Module Timestamp.

(** JavaScript truthiness of a timestamp, as in [if (in_timestamp)]:
    [undefined] and the empty string are falsy. *)
Definition truthy (t : timestamp) : bool :=
  match t with
  | Some s => negb (String.eqb s "")
  | None => false
  end.

(** Modelled from the spec: [_.timestamp.check.values] of
    helpers/timestamp.js, which is not among the sources.  The spec
    (section 4.3) gives it as [shouldApply(stored, incoming)]: both
    absent applies; stored absent and incoming present applies; stored
    present and incoming absent rejects; both present applies iff
    [incoming >= stored] in the lexicographic order of the strings. *)
Definition check_values (stored incoming : timestamp) : bool :=
  match stored, incoming with
  | None, None => true
  | None, Some _ => true
  | Some _, None => false
  | Some s, Some i => String.leb s i
  end.

End Timestamp.

(** ** meta.js *)

Module Meta.

(** [paramd]: an option left out is [undefined] and takes its default
    in [_.defaults]. *)
Record paramd : Type := Paramd {
  emit : option bool;
  set_timestamp : option bool;
  check_timestamp : option bool
}.

(** The [Meta] object of one Thing.  [thing_metad] is what [state()]
    collects from the thing and its bridge (thing id, model id, name,
    facets, bridge and binding metadata); [_updated] holds the local
    updates and [_updated_timestamp] its ["@timestamp"] entry;
    [meta_changed] counts the calls of [thing.meta_changed()]. *)
Record t : Type := Make {
  thing_metad : gmap string jsval;
  _updated : gmap string jsval;
  _updated_timestamp : timestamp;
  meta_changed : nat
}.

(** [new Meta(thing)]: [self._updated = {}]. *)
Definition create (metad : gmap string jsval) : t :=
  Make metad ∅ None 0.

(** Modelled from the spec: [_.timestamp.check.dictionary], the rule of
    [Timestamp.check_values] on the ["@timestamp"] entries of
    [self._updated] and of the incoming dictionary. *)
Definition check_dictionary (m : t) (ind : dict) : bool :=
  Timestamp.check_values (_updated_timestamp m) (d_timestamp ind).

(** [Meta.prototype.state], without the ["@timestamp"] entry: the
    thing's metadata extended with [_updated]. *)
Definition state (m : t) : gmap string jsval :=
  _updated m ∪ thing_metad m.

(** [Meta.prototype.get]. *)
Definition get (m : t) (key : string) (otherwise : jsval) : jsval :=
  let value := js_get (state m) key in
  if strict_eq value VUndefined then otherwise else value.

Section WithConstants.

Context `{Helpers}.

(** One round of the loop over [in_keys] in [update]. *)
Definition update_key (stated : gmap string jsval)
    (acc : gmap string jsval * bool) (kv : string * jsval)
    : gmap string jsval * bool :=
  let '(in_key, in_value) := kv in
  if String.eqb in_key iot_reachable then acc
  else
    let old_value := js_get stated in_key in
    if strict_eq in_value old_value then acc
    else (<[in_key := in_value]> (fst acc), true).

(** [Meta.prototype.update]: the new state and the value returned
    ([None] for the bare [return] of a timestamp conflict).  [now] is
    what [_.timestamp.make()] reads from the clock. *)
Definition update (now : string) (ind : dict) (p : paramd) (m : t)
    : t * option bool :=
  let in_timestamp := d_timestamp ind in
  let p_emit := default true (emit p) in
  let p_set_timestamp := default false (set_timestamp p) in
  let p_check_timestamp := default false (check_timestamp p) in
  if p_check_timestamp && negb (check_dictionary m ind)
  then (m, None)
  else
    let stated := state m in
    let '(updated', changed) :=
      fold_left (update_key stated) (d_entries ind) (_updated m, false) in
    let ts' :=
      if changed && p_set_timestamp then
        if Timestamp.truthy in_timestamp then in_timestamp else Some now
      else _updated_timestamp m in
    let calls' :=
      if changed && p_emit then S (meta_changed m) else meta_changed m in
    (Make (thing_metad m) updated' ts' calls', Some changed).

(** The ["@timestamp"] entry of [_updated] as a value. *)
Definition timestamp_value (ts : timestamp) : jsval :=
  match ts with
  | Some s => VStr s
  | None => VUndefined
  end.

(** [Meta.prototype.set].  The key is compared with what [_updated]
    holds, not with the whole state; the timestamp is taken from the
    clock whether or not the value changes. *)
Definition set (now : string) (key : string) (value : jsval) (m : t) : t :=
  let key := ld_expand key in
  if String.eqb key iot_reachable then m
  else if String.eqb key "@timestamp" then
    Make (thing_metad m) (_updated m) (Some now)
      (if negb (strict_eq (timestamp_value (_updated_timestamp m)) value)
       then S (meta_changed m) else meta_changed m)
  else if negb (strict_eq (js_get (_updated m) key) value) then
    Make (thing_metad m) (<[key := value]> (_updated m)) (Some now)
      (S (meta_changed m))
  else Make (thing_metad m) (_updated m) (Some now) (meta_changed m).

End WithConstants.

End Meta.

(** ** model.js *)

Module Model.

(** An [Attribute] (attribute.js is not among the sources): its code,
    its own properties, what its methods [is_sensor()], [is_actuator()],
    [is_read()], [is_type_null()] and [validate_value(v)] answer, the
    truthiness of [attribute.force] and of its [iot:clear-value]
    property, and the four fields model.js keeps in it. *)
Record Attribute : Type := MkAttribute {
  code : string;
  props : gmap string pval;
  is_sensor : bool;
  is_actuator : bool;
  is_read : bool;
  is_type_null : bool;
  force : bool;
  clear_value : bool;
  validate_value : jsval -> jsval;
  _ivalue : jsval;
  _ovalue : jsval;
  _ichanged : bool;
  _ochanged : bool
}.

(** [attribute._ivalue = v; attribute._ichanged = ch]. *)
Definition set_istate (v : jsval) (ch : bool) (a : Attribute) : Attribute :=
  MkAttribute (code a) (props a) (is_sensor a) (is_actuator a) (is_read a)
    (is_type_null a) (force a) (clear_value a) (validate_value a)
    v (_ovalue a) ch (_ochanged a).

(** [attribute._ovalue = v; attribute._ochanged = ch]. *)
Definition set_ostate (v : jsval) (ch : bool) (a : Attribute) : Attribute :=
  MkAttribute (code a) (props a) (is_sensor a) (is_actuator a) (is_read a)
    (is_type_null a) (force a) (clear_value a) (validate_value a)
    (_ivalue a) v (_ichanged a) ch.

(** What [bridge_instance.push(pushd, callback)] does with one call:
    throw before calling back, call back at once (with an error or
    not) and return, call back at once and then throw, or return and
    call back later. *)
Inductive push_outcome : Type :=
  | PushThrows
  | PushCallback (error : bool)
  | PushCallbackThrows (error : bool)
  | PushDeferred.

(** The bound Bridge: [reachable()], the remapping of a pushed value
    by [binding.mapping] (the identity where there is no mapping), and
    the behaviour of [push]. *)
Record Bridge : Type := MkBridge {
  reachable : bool;
  mapping : string -> jsval -> jsval;
  push : list (string * jsval) -> push_outcome
}.

(** A closure handed to [process.nextTick]. *)
Inductive task : Type :=
  | TaskCallback (callback : nat) (attribute_code : string)
  | TaskEmit (event : string)
  | TaskPush (pushd : list (string * jsval)).

(** A Thing.  [ticks] is the queue of [process.nextTick], [emitted]
    the events [__emitter.emit] has sent, in order, and [called] the
    attribute callbacks run so far. *)
Record Thing : Type := MkThing {
  __attributes : list Attribute;
  __callbacksd : gmap string (list nat);
  _itimestamp : timestamp;
  _otimestamp : timestamp;
  _pushes : Z;
  bridge_instance : option Bridge;
  meta : Meta.t;
  ticks : list task;
  emitted : list string;
  called : list (nat * string * jsval)
}.

(** Assignments to one field of a Thing. *)
Definition with_attributes (x : list Attribute) (self : Thing) : Thing :=
  MkThing x (__callbacksd self) (_itimestamp self) (_otimestamp self)
    (_pushes self) (bridge_instance self) (meta self) (ticks self)
    (emitted self) (called self).

Definition with_itimestamp (x : timestamp) (self : Thing) : Thing :=
  MkThing (__attributes self) (__callbacksd self) x (_otimestamp self)
    (_pushes self) (bridge_instance self) (meta self) (ticks self)
    (emitted self) (called self).

Definition with_otimestamp (x : timestamp) (self : Thing) : Thing :=
  MkThing (__attributes self) (__callbacksd self) (_itimestamp self) x
    (_pushes self) (bridge_instance self) (meta self) (ticks self)
    (emitted self) (called self).

Definition with_pushes (x : Z) (self : Thing) : Thing :=
  MkThing (__attributes self) (__callbacksd self) (_itimestamp self)
    (_otimestamp self) x (bridge_instance self) (meta self) (ticks self)
    (emitted self) (called self).

Definition with_meta (x : Meta.t) (self : Thing) : Thing :=
  MkThing (__attributes self) (__callbacksd self) (_itimestamp self)
    (_otimestamp self) (_pushes self) (bridge_instance self) x (ticks self)
    (emitted self) (called self).

Definition with_ticks (x : list task) (self : Thing) : Thing :=
  MkThing (__attributes self) (__callbacksd self) (_itimestamp self)
    (_otimestamp self) (_pushes self) (bridge_instance self) (meta self) x
    (emitted self) (called self).

Definition with_called (x : list (nat * string * jsval)) (self : Thing) : Thing :=
  MkThing (__attributes self) (__callbacksd self) (_itimestamp self)
    (_otimestamp self) (_pushes self) (bridge_instance self) (meta self)
    (ticks self) (emitted self) x.

Definition with_callbacksd (x : gmap string (list nat)) (self : Thing) : Thing :=
  MkThing (__attributes self) x (_itimestamp self) (_otimestamp self)
    (_pushes self) (bridge_instance self) (meta self) (ticks self)
    (emitted self) (called self).

Definition with_bridge_instance (x : option Bridge) (self : Thing) : Thing :=
  MkThing (__attributes self) (__callbacksd self) (_itimestamp self)
    (_otimestamp self) (_pushes self) x (meta self) (ticks self)
    (emitted self) (called self).

(** [process.nextTick(f)]. *)
Definition nextTick (f : task) (self : Thing) : Thing :=
  with_ticks (ticks self ++ [f]) self.

(** [self.__emitter.emit(event, ...)]. *)
Definition emit (event : string) (self : Thing) : Thing :=
  MkThing (__attributes self) (__callbacksd self) (_itimestamp self)
    (_otimestamp self) (_pushes self) (bridge_instance self) (meta self)
    (ticks self) (emitted self ++ [event]) (called self).

(** [self.__attributed[attribute_code]]. *)
Definition attributed (attrs : list Attribute) (attribute_code : string)
    : option Attribute :=
  List.find (fun a => String.eqb (code a) attribute_code) attrs.

(** An assignment to fields of the attribute object with that code:
    [__attributes] and [__attributed] hold the same objects, one for
    each code. *)
Definition assign (attribute_code : string) (f : Attribute -> Attribute)
    (attrs : list Attribute) : list Attribute :=
  List.map (fun a => if String.eqb (code a) attribute_code then f a else a) attrs.

(** *** Keys *)

(** [s.indexOf(c) > -1]. *)
Fixpoint has_char (c : ascii) (s : string) : bool :=
  match s with
  | EmptyString => false
  | String x s' => Ascii.eqb x c || has_char c s'
  end.

(** The string past its leading slashes. *)
Fixpoint skip_slashes (s : string) : string :=
  match s with
  | String "/"%char s' => skip_slashes s'
  | _ => s
  end.

(** [s.replace(/\/+/, "")]: the first run of slashes is dropped. *)
Fixpoint replace_slashes (s : string) : string :=
  match s with
  | EmptyString => EmptyString
  | String x s' =>
      if Ascii.eqb x "/" then skip_slashes s' else String x (replace_slashes s')
  end.

(** The last element of [s.split("/")]. *)
Fixpoint last_subkey (s : string) : string :=
  match s with
  | EmptyString => EmptyString
  | String x s' =>
      if has_char "/" s' then last_subkey s'
      else if Ascii.eqb x "/" then s' else s
  end.

(** What [find], [get], [set] and [on] accept ([_.is.FindKey]): a
    String or a Dictionary. *)
Inductive find_key : Type :=
  | KeyString (s : string)
  | KeyDict (d : list (string * pval)).

(** [paramd] of [update]; an option left out is [undefined]. *)
Record paramd : Type := Paramd {
  add_timestamp : option bool;
  check_timestamp : option bool;
  set_timestamp : option bool;
  notify : option bool;
  validate : option bool;
  emit_meta : option bool
}.

Definition no_paramd : paramd := Paramd None None None None None None.

Section WithHelpers.

Context `{Helpers}.

(** [attribute[match_key]]. *)
Definition prop (a : Attribute) (match_key : string) : pval :=
  default (PAtom VUndefined) (props a !! match_key).

(** [attribute_value.indexOf(v) !== -1]. *)
Definition includes (attribute_value : list jsval) (v : jsval) : bool :=
  existsb (strict_eq v) attribute_value.

(** One round of the loop over [match_key] in [find]: does this key
    leave [all] true? *)
Definition key_matches (a : Attribute) (kv : string * pval) : bool :=
  let '(match_key, match_value) := kv in
  if String.eqb match_key schema_name then true
  else if String.prefix "@" match_key then true
  else
    match prop a match_key, match_value with
    | PArr attribute_value, PArr mvs => forallb (includes attribute_value) mvs
    | PArr attribute_value, PAtom mv => includes attribute_value mv
    | PAtom attribute_value, PAtom mv => strict_eq mv attribute_value
    | PAtom _, PArr _ => false
    end.

(** The array [matches] of [find]. *)
Definition find_matches (d : list (string * pval)) (self : Thing)
    : list Attribute :=
  List.filter (fun a => forallb (key_matches a) d) (__attributes self).

(** One round of the loop that sets [match_sensor] and [match_actuator]. *)
Definition match_step (acc : option Attribute * option Attribute)
    (m : Attribute) : option Attribute * option Attribute :=
  let '(match_sensor, match_actuator) := acc in
  (if negb (bool_decide (is_Some match_sensor)) && is_sensor m
   then Some m else match_sensor,
   if negb (bool_decide (is_Some match_actuator)) && is_actuator m
   then Some m else match_actuator).

(** The choice among several matches, by [paramd.mode]. *)
Definition choose (mode : string) (matches : list Attribute)
    : option Attribute :=
  let '(match_sensor, match_actuator) :=
    fold_left match_step matches (None, None) in
  if String.eqb mode "set" && bool_decide (is_Some match_actuator)
  then match_actuator
  else if String.eqb mode "get" && bool_decide (is_Some match_sensor)
  then match_sensor
  else if String.eqb mode "on" && bool_decide (is_Some match_sensor)
  then match_sensor
  else if bool_decide (is_Some match_actuator) then match_actuator
  else if bool_decide (is_Some match_sensor) then match_sensor
  else head matches.

(** [Model.prototype.find] on a Dictionary. *)
Definition find_dict (d : list (string * pval)) (mode : string)
    (expand : bool) (self : Thing) : option Attribute :=
  let d := if expand then ld_expand_dict d else d in
  let matches := find_matches d self in
  match matches with
  | [m] => Some m
  | _ => choose mode matches
  end.

(** [Model.prototype.find]: the attribute found, or [None] for
    [undefined]. *)
Definition find (k : find_key) (mode : string) (self : Thing)
    : option Attribute :=
  match k with
  | KeyString s =>
      let last_key := last_subkey (replace_slashes s) in
      if String.eqb (substring 0 1 last_key) ":" then
        find_dict
          [(iot_purpose,
            PAtom (VStr (ld_expand
              (String.append "iot-purpose:"
                (substring 1 (String.length last_key) last_key)))))]
          mode false self
      else if has_char ":" last_key then
        find_dict [(iot_purpose, PAtom (VStr (ld_expand last_key)))]
          mode false self
      else attributed (__attributes self) last_key
  | KeyDict d => find_dict d mode true self
  end.

(** [Model.prototype.get]. *)
Definition get (k : find_key) (self : Thing) : jsval :=
  match find k "get" self with
  | None => VUndefined
  | Some attribute =>
      if negb (strict_eq (_ivalue attribute) VNull) then _ivalue attribute
      else if negb (strict_eq (_ovalue attribute) VNull) then _ovalue attribute
      else VNull
  end.

(** *** The input band *)

(** One round of the loop over [updated] in [_update_istate]. *)
Definition istate_entry (p_validate : bool)
    (acc : list Attribute * list string) (kv : string * jsval)
    : list Attribute * list string :=
  let '(attrs, changed_attributes) := acc in
  let '(attribute_code, attribute_value) := kv in
  if strict_eq attribute_value VUndefined then acc
  else
    match attributed attrs attribute_code with
    | None => acc
    | Some attribute =>
        let attribute_value :=
          if p_validate then validate_value attribute attribute_value
          else attribute_value in
        if p_validate && strict_eq attribute_value VUndefined then acc
        else if negb (is_type_null attribute)
                && strict_eq (_ivalue attribute) attribute_value then acc
        else (assign attribute_code (set_istate attribute_value true) attrs,
              changed_attributes ++ [attribute_code])
    end.

(** The callbacks of [__callbacksd] for the changed attributes, each
    one a closure for [process.nextTick]. *)
Definition attribute_callbacks (self : Thing) (changed_attributes : list string)
    : list task :=
  flat_map
    (fun c => List.map (fun cb => TaskCallback cb c)
                       (default [] (__callbacksd self !! c)))
    changed_attributes.

(** The timestamp a band takes with [set_timestamp]. *)
Definition stamp (now : string) (incoming : timestamp) : timestamp :=
  if Timestamp.truthy incoming then incoming else Some now.

(** [Model.prototype._update_istate]. *)
Definition _update_istate (now : string) (updated : dict) (p : paramd)
    (self : Thing) : Thing :=
  let p_check_timestamp := default true (check_timestamp p) in
  let p_set_timestamp := default true (set_timestamp p) in
  let p_notify := default true (notify p) in
  let p_validate := default false (validate p) in
  if p_check_timestamp
     && negb (Timestamp.check_values (_itimestamp self) (d_timestamp updated))
  then self
  else
    let '(attrs, changed_attributes) :=
      fold_left (istate_entry p_validate) (d_entries updated)
                (__attributes self, []) in
    let self := with_attributes attrs self in
    match changed_attributes with
    | [] => self
    | _ =>
        let self :=
          if p_set_timestamp
          then with_itimestamp (stamp now (d_timestamp updated)) self
          else self in
        let self :=
          if p_notify
          then nextTick (TaskEmit "state")
                 (fold_left (fun s f => nextTick f s)
                            (attribute_callbacks self changed_attributes) self)
          else self in
        let self := nextTick (TaskEmit "istate") self in
        with_attributes
          (fold_left
             (fun attrs c => assign c (fun a => set_istate (_ivalue a) false a) attrs)
             changed_attributes (__attributes self))
          self
    end.

(** *** The output band *)

(** Is this attribute touched by [_clear_ostate]? *)
Definition to_clear (a : Attribute) : bool :=
  negb (strict_eq (_ovalue a) VNull && negb (_ochanged a)).

(** [Model.prototype._clear_ostate]. *)
Definition _clear_ostate (self : Thing) : Thing :=
  let changed := existsb to_clear (__attributes self) in
  let self :=
    with_attributes
      (List.map (fun a => if to_clear a then set_ostate VNull false a else a)
                (__attributes self))
      self in
  if changed
  then emit "ostate" (with_otimestamp (timestamp_advance (_otimestamp self)) self)
  else self.

(** One round of [attributes.map] in [_push_attributes]. *)
Definition push_entry (b : Bridge)
    (acc : list Attribute * list (string * jsval)) (attribute_code : string)
    : list Attribute * list (string * jsval) :=
  let '(attrs, pushd) := acc in
  match attributed attrs attribute_code with
  | None => acc
  | Some attribute =>
      let attribute_value := mapping b attribute_code (_ovalue attribute) in
      (if clear_value attribute
       then assign attribute_code (fun a => set_ostate VNull (_ochanged a) a) attrs
       else attrs,
       pushd ++ [(attribute_code, attribute_value)])
  end.

(** [Model.prototype._push_attributes]; the attributes are given by
    their codes. *)
Definition _push_attributes (attributes : list string) (self : Thing) : Thing :=
  match bridge_instance self with
  | None => _clear_ostate self
  | Some b =>
      if negb (reachable b) then _clear_ostate self
      else
        let '(attrs, pushd) :=
          fold_left (push_entry b) attributes (__attributes self, []) in
        let self := with_attributes attrs self in
        match pushd with
        | [] => self
        | _ => nextTick (TaskPush pushd) self
        end
  end.

(** One round of the loop over [updated] in [_update_ostate]. *)
Definition ostate_entry (p_validate : bool)
    (acc : list Attribute * list string) (kv : string * jsval)
    : list Attribute * list string :=
  let '(attrs, changed_attributes) := acc in
  let '(attribute_code, attribute_value) := kv in
  if strict_eq attribute_value VUndefined then acc
  else
    match attributed attrs attribute_code with
    | None => acc
    | Some attribute =>
        let attribute_value :=
          if p_validate then validate_value attribute attribute_value
          else attribute_value in
        if p_validate && strict_eq attribute_value VUndefined then acc
        else if negb (force attribute) && negb (is_type_null attribute)
                && strict_eq (_ovalue attribute) attribute_value then acc
        else (assign attribute_code (set_ostate attribute_value true) attrs,
              changed_attributes ++ [attribute_code])
    end.

(** [Model.prototype._update_ostate]. *)
Definition _update_ostate (now : string) (updated : dict) (p : paramd)
    (self : Thing) : Thing :=
  let p_add_timestamp := default true (add_timestamp p) in
  let p_check_timestamp := default true (check_timestamp p) in
  let p_set_timestamp := default true (set_timestamp p) in
  let p_notify := default true (notify p) in
  let p_validate := default true (validate p) in
  let updated :=
    if p_add_timestamp
    then Dict (timestamp_add now (d_timestamp updated)) (d_entries updated)
    else updated in
  if p_check_timestamp
     && negb (Timestamp.check_values (_otimestamp self) (d_timestamp updated))
  then self
  else
    let '(attrs, changed_attributes) :=
      fold_left (ostate_entry p_validate) (d_entries updated)
                (__attributes self, []) in
    let self := with_attributes attrs self in
    let self :=
      match changed_attributes with
      | [] => self
      | _ => _push_attributes changed_attributes self
      end in
    let self :=
      match changed_attributes with
      | [] => self
      | _ =>
          let self :=
            if p_set_timestamp
            then with_otimestamp (stamp now (d_timestamp updated)) self
            else self in
          let self :=
            if p_notify then nextTick (TaskEmit "state") self else self in
          nextTick (TaskEmit "ostate") self
      end in
    with_attributes
      (fold_left
         (fun attrs c => assign c (fun a => set_ostate (_ovalue a) false a) attrs)
         changed_attributes (__attributes self))
      self.

(** *** Pushing to the Bridge *)

(** [if (--self._pushes === 0) { self._clear_ostate(); }]: the body of
    the callback handed to [push], and of the [catch]. *)
Definition push_done (self : Thing) : Thing :=
  let self := with_pushes (_pushes self - 1) self in
  if (_pushes self =? 0)%Z then _clear_ostate self else self.

(** The callback handed to [bridge_instance.push]: an error is logged,
    then the counter goes down. *)
Definition push_callback (error : bool) (self : Thing) : Thing :=
  push_done self.

(** The closure that [_push_attributes] hands to [process.nextTick]:
    the state it leaves and the exception it ends with, if any. *)
Definition push_task (pushd : list (string * jsval)) (self : Thing)
    : Thing * option string :=
  match bridge_instance self with
  | None => (self, None)
  | Some b =>
      let self := with_pushes (_pushes self + 1) self in
      let self :=
        match push b pushd with
        | PushThrows => push_done self
        | PushCallback error => push_callback error self
        | PushCallbackThrows error => push_done (push_callback error self)
        | PushDeferred => self
        end in
      if (_pushes self <? 0)%Z
      then (self, Some "pushes decremeneted below 0!!!")
      else (self, None)
  end.

(** One turn of the event loop: the first closure of the queue runs. *)
Definition run_tick (self : Thing) : Thing * option string :=
  match ticks self with
  | [] => (self, None)
  | f :: rest =>
      let self := with_ticks rest self in
      match f with
      | TaskCallback cb c =>
          match attributed (__attributes self) c with
          | Some attribute =>
              (with_called (called self ++ [(cb, c, _ivalue attribute)]) self, None)
          | None => (self, None)
          end
      | TaskEmit event => (emit event self, None)
      | TaskPush pushd => push_task pushd self
      end
  end.

(** Some turns of the event loop; an exception that no one catches
    ends it. *)
Fixpoint run_ticks (turns : nat) (self : Thing) : Thing * option string :=
  match turns with
  | O => (self, None)
  | S turns =>
      match run_tick self with
      | (self, None) => run_ticks turns self
      | (self, Some exception) => (self, Some exception)
      end
  end.

(** *** update and set *)

(** [Model.prototype.meta_changed]. *)
Definition meta_changed (self : Thing) : Thing :=
  if shutting_down then self else nextTick (TaskEmit "meta") self.

(** [Model.prototype._update_meta]. *)
Definition _update_meta (now : string) (updated : dict) (p : paramd)
    (self : Thing) : Thing :=
  let p_check_timestamp := default false (check_timestamp p) in
  let p_set_timestamp := default true (set_timestamp p) in
  let '(m, _) :=
    Meta.update now updated
      (Meta.Paramd (emit_meta p) (Some p_set_timestamp) (Some p_check_timestamp))
      (meta self) in
  let self' := with_meta m self in
  if (Meta.meta_changed (meta self) <? Meta.meta_changed m)%nat
  then meta_changed self' else self'.

(** [Model.prototype.update]. *)
Definition update (now : string) (band : string) (updated : dict)
    (p : paramd) (self : Thing) : Thing :=
  if String.eqb band "istate" then _update_istate now updated p self
  else if String.eqb band "ostate" then _update_ostate now updated p self
  else if String.eqb band "meta" then _update_meta now updated p self
  else self.

(** [Model.prototype.set]. *)
Definition set (now : string) (k : find_key) (new_value : jsval)
    (self : Thing) : Thing :=
  if strict_eq new_value VUndefined then self
  else
    match find k "set" self with
    | None => self
    | Some attribute =>
        update now "ostate"
          (Dict (Some now) [(code attribute, new_value)])
          (Paramd None (Some false) None None None None)
          self
    end.

(** *** Callbacks and the Bridge *)

(** [find_key === "state"] and the like: the names that [on] hands to
    the emitter. *)
Definition is_band_event (k : find_key) : bool :=
  match k with
  | KeyString s =>
      String.eqb s "state" || String.eqb s "meta"
      || String.eqb s "istate" || String.eqb s "ostate"
  | KeyDict _ => false
  end.

(** [Model.prototype.on] with a String or a Dictionary: a listener for
    one of the four events is kept by the emitter; a callback for an
    attribute is added to [__callbacksd] under the attribute's code;
    a key that [find] does not resolve is logged and nothing is kept. *)
Definition on (k : find_key) (callback : nat) (self : Thing) : Thing :=
  if is_band_event k then self
  else
    match find k "on" self with
    | None => self
    | Some attribute =>
        let attribute_key := code attribute in
        let callbacks := default [] (__callbacksd self !! attribute_key) in
        with_callbacksd
          (<[attribute_key := callbacks ++ [callback]]> (__callbacksd self)) self
    end.

(** [Model.prototype.reachable] (the Bridge has the name here). *)
Definition thing_reachable (self : Thing) : bool :=
  match bridge_instance self with
  | Some b => reachable b
  | None => false
  end.


End WithHelpers.

End Model.

(** ** thing_array.js *)

Module ThingArray.

(** A Thing as an array holds it: a reference to the object ([oid],
    what [===] compares) and what its [thing_id()] answers. *)
Record thing : Type := MkThing {
  oid : nat;
  thing_id : string
}.

(** [t === thing]. *)
Definition same (a b : thing) : bool := Nat.eqb (oid a) (oid b).

(** [KEY_TAG] and [KEY_SETTER]; a command recorded with no key has
    [key: undefined]. *)
Inductive key : Type :=
  | KEY_TAG
  | KEY_SETTER.

#[global] Instance key_eq_dec : EqDecision key.
Proof. solve_decision. Defined.

(** An argument of a bulk command. *)
Inductive arg : Type :=
  | ArgValue (v : jsval)
  | ArgDict (d : dict)
  | ArgFunction (callback : nat).

(** A recorded command [{ f: f, av: av, key: key }]; [f] is the name of
    the method of [Model.prototype]. *)
Record persistd : Type := MkPersistd {
  pd_f : string;
  pd_av : list arg;
  pd_key : option key
}.

Inductive event : Type :=
  | EVENT_THING_NEW (x : thing)
  | EVENT_THING_PUSHED (x : thing)
  | EVENT_THINGS_CHANGED.

(** A ThingArray: its elements [self[0 .. length-1]], [_persistds]
    ([None] for [null]), the events it has emitted, in order, and the
    calls [f.apply(thing, av)] it has made, in order. *)
Record t : Type := Make {
  items : list thing;
  _persistds : option (list persistd);
  emitted : list event;
  applied : list (thing * persistd)
}.

(** [new ThingArray(paramd)]. *)
Definition create (persist : bool) : t :=
  Make [] (if persist then Some [] else None) [] [].

(** Assignments to one field of an array. *)
Definition with_items (x : list thing) (self : t) : t :=
  Make x (_persistds self) (emitted self) (applied self).

Definition with_persistds (x : option (list persistd)) (self : t) : t :=
  Make (items self) x (emitted self) (applied self).

(** [self.emit(event, ...)]. *)
Definition emit (e : event) (self : t) : t :=
  Make (items self) (_persistds self) (emitted self ++ [e]) (applied self).

(** [pd.f.apply(thing, av)]. *)
Definition apply (x : thing) (pd : persistd) (self : t) : t :=
  Make (items self) (_persistds self) (emitted self) (applied self ++ [(x, pd)]).

(** [ThingArray.prototype.is_persist]. *)
Definition is_persist (self : t) : bool := bool_decide (is_Some (_persistds self)).

(** [ThingArray.prototype.things_changed]. *)
Definition things_changed (self : t) : t := emit EVENT_THINGS_CHANGED self.

(** [PRE_KEYS.indexOf(pd.key) !== -1], with [PRE_KEYS = [KEY_TAG]]. *)
Definition in_PRE_KEYS (pd : persistd) : bool :=
  bool_decide (pd_key pd = Some KEY_TAG).

(** [ThingArray.prototype._persist_pre]: a [null] or empty
    [_persistds] is [_.is.Empty]. *)
Definition _persist_pre (x : thing) (self : t) : t :=
  match _persistds self with
  | None => self
  | Some pds =>
      fold_left (fun s pd => if in_PRE_KEYS pd then apply x pd s else s) pds self
  end.

(** [ThingArray.prototype._persist_post]. *)
Definition _persist_post (x : thing) (self : t) : t :=
  match _persistds self with
  | None => self
  | Some pds =>
      fold_left (fun s pd => if in_PRE_KEYS pd then s else apply x pd s) pds self
  end.

(** [paramd] of [push]. *)
Record push_paramd : Type := PushParamd {
  emit_pushed : option bool;
  emit_new : option bool
}.

(** [ThingArray.prototype.push].  The property [thing[self.array_id]]
    that [push] writes and [splice] deletes is read nowhere and is
    left out. *)
Definition push (x : thing) (p : push_paramd) (self : t) : t :=
  if existsb (fun t => same t x) (items self) then self
  else
    let self := _persist_pre x self in
    let p_emit_pushed := default true (emit_pushed p) in
    let p_emit_new := default true (emit_new p) in
    let self := with_items (items self ++ [x]) self in
    let self := if p_emit_pushed then emit (EVENT_THING_PUSHED x) self else self in
    let self := if p_emit_new then emit (EVENT_THING_NEW x) self else self in
    let changed := p_emit_pushed || p_emit_new in
    let self := if changed then things_changed self else self in
    _persist_post x self.

(** [_persistd.key === KEY_SETTER]. *)
Definition is_setter (pd : persistd) : bool :=
  bool_decide (pd_key pd = Some KEY_SETTER).

(** The loop of [_persist_command] that drops the recorded Setters:
    [for (pi = 0; pi < length; pi++) if (key === KEY_SETTER)
    splice(pi--, 1)].  Each round moves on or shortens the array, so
    [length] rounds are enough. *)
Fixpoint drop_setters (rounds pi : nat) (pds : list persistd) : list persistd :=
  match rounds with
  | O => pds
  | S rounds =>
      match pds !! pi with
      | None => pds
      | Some _persistd =>
          if is_setter _persistd
          then drop_setters rounds pi (delete pi pds)
          else drop_setters rounds (S pi) pds
      end
  end.

(** [ThingArray.prototype._persist_command]. *)
Definition _persist_command (f : string) (av : list arg) (k : option key)
    (self : t) : t :=
  match _persistds self with
  | None => self
  | Some pds =>
      let persistd := MkPersistd f av k in
      let pds :=
        if bool_decide (k = Some KEY_SETTER)
        then drop_setters (length pds) 0 pds else pds in
      with_persistds (Some (pds ++ [persistd])) self
  end.

(** [ThingArray.prototype._apply_command]. *)
Definition _apply_command (f : string) (av : list arg) (self : t) : t :=
  fold_left (fun s x => apply x (MkPersistd f av None) s) (items self) self.

(** *** Bulk commands *)

(** The bulk commands of a ThingArray, with their arguments. *)
Inductive bulk : Type :=
  | Disconnect (av : list arg)
  | Name (name : string)
  | Zones (av : list arg)
  | Facets (av : list arg)
  | Set_ (av : list arg)
  | Update (av : list arg)
  | Pull (av : list arg)
  | Tag (av : list arg)
  | On (what : string) (callback : nat)
  | OnChange (av : list arg).

(** [_apply_command] followed by [_persist_command]. *)
Definition command (f : string) (av : list arg) (k : option key) (self : t) : t :=
  _persist_command f av k (_apply_command f av self).

(** The methods [disconnect], [name], [zones], [facets], [set],
    [update], [pull], [tag], [on] and [on_change] of a ThingArray: the
    state they leave and the exception they end with, if any.

    [tag] first maps [thing.tag.apply(thing, arguments)] over the
    array, where [arguments] are those of the mapped function, that is
    the thing itself: [Model.prototype._validate_tag] throws on it, so
    on an array that is not empty nothing is applied or recorded.
    [on] with ["thing"] or the name of an event of the array only
    registers a listener. *)
Definition run (c : bulk) (self : t) : t * option string :=
  match c with
  | Disconnect av => (command "disconnect" av None self, None)
  | Name name => (command "name" [ArgValue (VStr name)] None self, None)
  | Zones av => (command "zones" av None self, None)
  | Facets av => (command "facets" av None self, None)
  | Set_ av => (command "set" av (Some KEY_SETTER) self, None)
  | Update av => (command "update" av (Some KEY_SETTER) self, None)
  | Pull av => (command "pull" av None self, None)
  | Tag av =>
      match items self with
      | [] => (command "tag" av (Some KEY_TAG) self, None)
      | _ :: _ =>
          (self, Some "Model.tag: 'tag' must be a String, Array of String or undefined")
      end
  | On what callback =>
      if String.eqb what "thing"
         || String.eqb what "EVENT_THING_NEW"
         || String.eqb what "EVENT_THING_PUSHED"
         || String.eqb what "EVENT_THINGS_CHANGED"
      then (self, None)
      else (command "on" [ArgValue (VStr what); ArgFunction callback] None self, None)
  | OnChange av => (command "on_change" av None self, None)
  end.

(** *** Reconciliation *)

(** [ThingArray.prototype.splice(index, howmany)]. *)
Definition splice (index howmany : nat) (self : t) : t :=
  with_items (take index (items self) ++ drop (index + howmany) (items self)) self.

(** [oidd]: the ids of the things the derived array holds. *)
Definition existing (out_items : t) : gmap string Z :=
  fold_left (fun oidd o => <[thing_id o := 1%Z]> oidd) (items out_items) ∅.

(** [if (oidd[thing_id])]. *)
Definition has_id (oidd : gmap string Z) (id : string) : bool :=
  match oidd !! id with
  | Some v => negb (v =? 0)%Z
  | None => false
  end.

(** One round of the scan of the proposed members: a thing whose id
    is in [oidd] is confirmed, any other is pushed. *)
Definition scan_step (acc : gmap string Z * t) (x : thing) : gmap string Z * t :=
  let '(oidd, out_items) := acc in
  if has_id oidd (thing_id x) then (delete (thing_id x) oidd, out_items)
  else (oidd, push x (PushParamd (Some false) None) out_items).

(** The loop that removes the things that no longer match:
    [for (oi = 0; oi < length; oi++) { if (!oidd[id]) continue;
    splice(oi--, 1) }]. *)
Fixpoint remove_old (rounds oi : nat) (oidd : gmap string Z) (out_items : t) : t :=
  match rounds with
  | O => out_items
  | S rounds =>
      match items out_items !! oi with
      | None => out_items
      | Some o =>
          if negb (has_id oidd (thing_id o))
          then remove_old rounds (S oi) oidd out_items
          else remove_old rounds oi oidd (splice oi 1 out_items)
      end
  end.

(** The scan of [_merger] over all the sources. *)
Definition _merger_scan (srcs : list (list thing)) (out_items : t)
    : gmap string Z * t :=
  fold_left (fun acc src => fold_left scan_step src acc) srcs
            (existing out_items, out_items).

(** [_merger(srcs, out_items)]; a source is given by its elements. *)
Definition _merger (srcs : list (list thing)) (out_items : t) : t :=
  let '(oidd, out_items) := _merger_scan srcs out_items in
  let out_items := remove_old (length (items out_items)) 0 oidd out_items in
  things_changed out_items.

(** [ThingArray.prototype.merge]: the merged array. *)
Definition merge (self new_items : t) : t :=
  _merger [items self; items new_items] (create true).

(** The listener [_on_things_changed] that [merge] registers on its
    persisting sources. *)
Definition merge_on_things_changed (srcs : list (list thing)) (out_items : t) : t :=
  _merger srcs out_items.

Section Filter.

(** [self._filter_test(d, thing)] for the query of this filter, as it
    answers at the time of the call. *)
Variable _filter_test : thing -> bool.

(** [ThingArray.prototype.filter]: the filtered array. *)
Definition filter (self : t) : t :=
  fold_left
    (fun out_items x =>
       if _filter_test x then push x (PushParamd None None) out_items
       else out_items)
    (items self) (create (is_persist self)).

(** The scan of the listener of [filter] over the source. *)
Definition filter_scan (self_items : list thing) (out_items : t)
    : gmap string Z * t :=
  fold_left
    (fun acc x => if negb (_filter_test x) then acc else scan_step acc x)
    self_items (existing out_items, out_items).

(** The listener that [filter] registers on a persisting source for
    [EVENT_THINGS_CHANGED]; the source is given by its elements. *)
Definition filter_on_things_changed (self_items : list thing) (out_items : t) : t :=
  let '(oidd, out_items) := filter_scan self_items out_items in
  let out_items := remove_old (length (items out_items)) 0 oidd out_items in
  things_changed out_items.

End Filter.

(** *** The test of a filter *)

(** [s] past the prefix [p], if it starts with it. *)
Fixpoint strip_prefix (p s : string) : option string :=
  match p, s with
  | EmptyString, _ => Some s
  | String a p', String b s' =>
      if Ascii.eqb a b then strip_prefix p' s' else None
  | String _ _, EmptyString => None
  end.

(** What [.] of a regular expression does not match: a line feed or a
    carriage return. *)
Definition line_terminator (c : ascii) : bool :=
  Ascii.eqb c "010" || Ascii.eqb c "013".

(** Does [(.+)$] match the whole of [s]? *)
Fixpoint dot_plus (s : string) : bool :=
  match s with
  | EmptyString => false
  | String c EmptyString => negb (line_terminator c)
  | String c s' => negb (line_terminator c) && dot_plus s'
  end.

(** One alternative of the match: [band] followed by [":"] and the
    inner key. *)
Definition match_band (query_key band : string) : option (string * string) :=
  match strip_prefix (String.append band ":") query_key with
  | Some inner => if dot_plus inner then Some (band, inner) else None
  | None => None
  end.

(** [query_key.match(/^(meta|model|istate|ostate|transient):(.+)$/)]:
    the band [match[1]] and the inner key [match[2]]. *)
Definition query_match (query_key : string) : option (string * string) :=
  fold_right
    (fun band found =>
       match match_band query_key band with
       | Some m => Some m
       | None => found
       end)
    None ["meta"; "model"; "istate"; "ostate"; "transient"].

Section FilterTest.

(** For the band ["meta"]: is the intersection of the expanded query
    values with the expanded values of the thing's metadata under the
    inner key not empty ([_.ld.expand], [_.ld.list], [_.intersection]
    and [thing.state] are not among the sources)?  For
    ["transient:tag"]: [_.ld.intersects(thing.initd, "tag", values)]. *)
Variable meta_intersects : thing -> string -> pval -> bool.
Variable tag_intersects : thing -> pval -> bool.

(** One round of the loop over [query_key] in [_filter_test]: does
    this key let the thing pass? *)
Definition query_test (x : thing) (kv : string * pval) : bool :=
  let '(query_key, query_values) := kv in
  match query_match query_key with
  | None => false
  | Some (query_band, query_inner_key) =>
      if String.eqb query_band "meta"
      then meta_intersects x query_inner_key query_values
      else if String.eqb query_band "transient"
      then
        if String.eqb query_inner_key "tag"
        then tag_intersects x query_values
        else false
      else false
  end.

(** [ThingArray.prototype._filter_test]: the loop returns [false] at
    the first key that fails. *)
Definition _filter_test (queryd : list (string * pval)) (x : thing) : bool :=
  forallb (query_test x) queryd.

(** [with_tag(tag)]: [filter({ "transient:tag": tag })]. *)
Definition with_tag (tag : pval) (self : t) : t :=
  filter (_filter_test [("transient:tag", tag)]) self.

End FilterTest.

(** *** The life of an array *)

(** What happens to an array: a bulk command, a [push], a [splice],
    a run of the listener that [merge] registered for it, or a run of
    the listener that [filter] registered for it. *)
Inductive call : Type :=
  | CallBulk (c : bulk)
  | CallPush (x : thing) (p : push_paramd)
  | CallSplice (index howmany : nat)
  | CallMerger (srcs : list (list thing))
  | CallFilter (_filter_test : thing -> bool) (self_items : list thing).

(** The array after one call (an exception of a bulk command leaves
    it as [run] says). *)
Definition call_on (c : call) (self : t) : t :=
  match c with
  | CallBulk c => fst (run c self)
  | CallPush x p => push x p self
  | CallSplice index howmany => splice index howmany self
  | CallMerger srcs => merge_on_things_changed srcs self
  | CallFilter test self_items => filter_on_things_changed test self_items self
  end.

(** A sequence of calls, one after the other. *)
Definition history (cs : list call) (self : t) : t :=
  fold_left (fun s c => call_on c s) cs self.

End ThingArray.

(** ** keystore.js *)

Module Keystore.

(** [s.substring(n)]. *)
Fixpoint string_drop (n : nat) (s : string) : string :=
  match n, s with
  | O, _ => s
  | S n, String _ s' => string_drop n s'
  | S _, EmptyString => EmptyString
  end.

(** [s.replace(pattern, "")] with a String for pattern: the first
    occurrence of [pattern] in [s] is dropped, read as it is written. *)
Fixpoint replace_first (pattern s : string) : string :=
  if String.prefix pattern s then string_drop (String.length pattern) s
  else
    match s with
    | EmptyString => EmptyString
    | String c s' => String c (replace_first pattern s')
    end.

(** [Keystore.prototype._normalize_key], for the [root] of [paramd]
    (["/"] unless given). *)
Definition _normalize_key (root key : string) : string :=
  let key :=
    if negb (String.prefix "/" key)
    then String.append (replace_first "/*$" root) (String.append "/" key)
    else key in
  String.append "/" (Model.skip_slashes key).

End Keystore.

(** ** id.js *)

Module Id.

(** [toLowerCase] of one code unit below 256: the letters [A-Z], and
    the capital letters of Latin-1 (192 to 222, without the
    multiplication sign 215), move up by 32. *)
Definition lower (c : ascii) : ascii :=
  let n := nat_of_ascii c in
  if (65 <=? n)%nat && (n <=? 90)%nat then ascii_of_nat (n + 32)
  else if (192 <=? n)%nat && (n <=? 222)%nat && negb (n =? 215)%nat
  then ascii_of_nat (n + 32)
  else c.

(** [s.toLowerCase()]. *)
Fixpoint toLowerCase (s : string) : string :=
  match s with
  | EmptyString => EmptyString
  | String c s' => String (lower c) (toLowerCase s')
  end.

(** Is the code unit in [[a-z0-9]]? *)
Definition safe (c : ascii) : bool :=
  let n := nat_of_ascii c in
  ((97 <=? n)%nat && (n <=? 122)%nat) || ((48 <=? n)%nat && (n <=? 57)%nat).

(** [s.replace(/[^a-z0-9]/g, "_")]. *)
Fixpoint replace_unsafe (s : string) : string :=
  match s with
  | EmptyString => EmptyString
  | String c s' => String (if safe c then c else "_"%char) (replace_unsafe s')
  end.

(** [s.replace(/_+/g, "_")]: each run of underscores becomes one. *)
Fixpoint squeeze (s : string) : string :=
  match s with
  | EmptyString => EmptyString
  | String c s' =>
      if Ascii.eqb c "_"
      then
        match s' with
        | String d _ => if Ascii.eqb d "_" then squeeze s' else String c (squeeze s')
        | EmptyString => String c EmptyString
        end
      else String c (squeeze s')
  end.

(** [slugify]. *)
Definition slugify (identifier : string) : string :=
  squeeze (replace_unsafe (toLowerCase identifier)).

End Id.

(** ** attribute.js *)

Module Attribute.

(** The constants that name the types of a value, and what the
    coercions take from JavaScript and from helpers/: [parseFloat] on
    the strings that read as an integer ([None] for [NaN]; numbers are
    integers here), [String(n)] of a number, and the work of [_format]
    for a list of formats that is not empty ([None] for [undefined]),
    which goes through [_.color] and [Date]. *)
Class Coercions : Type := {
  iot_boolean : string;
  iot_integer : string;
  iot_number : string;
  iot_string : string;
  iot_set : string;
  iot_list : string;
  parseFloat : string -> option Z;
  number_to_string : Z -> string;
  _format : list string -> string -> option string
}.

(** What [validate] reads of an Attribute: [_.ld.list(self, iot:type, [])],
    [_.ld.first] of [iot:minimum] and of [iot:maximum] (numbers, as the
    setters [minimum] and [maximum] demand; [None] where there is
    none) and [_.ld.list(self, iot:format, [])]. *)
Record t : Type := Make {
  types : list string;
  minimum : option Z;
  maximum : option Z;
  formats : list string
}.

(** [types.indexOf(type) > -1]. *)
Definition has (types : list string) (type : string) : bool :=
  existsb (String.eqb type) types.

(** [minimum || otherwise]: a bound that is absent or [0] is falsy. *)
Definition or_else (bound : option Z) (otherwise : Z) : Z :=
  match bound with
  | Some n => if (n =? 0)%Z then otherwise else n
  | None => otherwise
  end.

(** [Attribute.prototype._bounded]. *)
Definition _bounded (value : Z) (min max : option Z) : Z :=
  let value :=
    match min with
    | Some min => if (value <? min)%Z then min else value
    | None => value
    end in
  match max with
  | Some max => if (max <? value)%Z then max else value
  | None => value
  end.

Section WithCoercions.

Context `{Coercions}.

(** [Attribute.prototype._default]. *)
Definition _default (types : list string) : jsval :=
  if has types iot_boolean then VBool false
  else if has types iot_integer then VNum 0
  else if has types iot_number then VNum 0
  else if has types iot_string then VStr ""
  else VNull.

(** [Attribute.prototype._convert_boolean]. *)
Definition _convert_boolean (value : bool) (types : list string)
    (minimum maximum : option Z) : jsval :=
  let minimum := or_else minimum 0 in
  let maximum := or_else maximum 1 in
  if has types iot_boolean then VBool value
  else if has types iot_integer then VNum (if value then maximum else minimum)
  else if has types iot_number then VNum (if value then maximum else minimum)
  else if has types iot_string then VStr (if value then "1" else "0")
  else VBool value.

(** [Attribute.prototype._convert_integer]; [Math.round] leaves an
    integer as it is. *)
Definition _convert_integer (value : Z) (types : list string) : jsval :=
  if has types iot_boolean then VBool (negb (value =? 0)%Z)
  else if has types iot_integer then VNum value
  else if has types iot_number then VNum value
  else if has types iot_string then VStr (number_to_string value)
  else VNum value.

(** The strings that [_convert_string] reads as [false], once in lower
    case. *)
Definition reads_false (value : string) : bool :=
  String.eqb value "" || String.eqb value "0" || String.eqb value "off"
  || String.eqb value "false" || String.eqb value "no".

(** [Attribute.prototype._convert_string]; [Math.round] leaves an
    integer as it is. *)
Definition _convert_string (value : string) (types : list string) : jsval :=
  if has types iot_string then VStr value
  else if has types iot_boolean
  then VBool (negb (reads_false (Id.toLowerCase value)))
  else if has types iot_integer
  then
    match parseFloat value with
    | Some n => VNum n
    | None => VUndefined
    end
  else if has types iot_number
  then
    match parseFloat value with
    | Some n => VNum n
    | None => VUndefined
    end
  else VStr value.

(** [Attribute.prototype._convert]: every number is an integer here,
    so [_convert_number] is never called. *)
Definition _convert (self : t) (value : jsval) : jsval :=
  match value with
  | VUndefined => _default (types self)
  | VBool b => _convert_boolean b (types self) (minimum self) (maximum self)
  | VNum n => _convert_integer n (types self)
  | VStr s => _convert_string s (types self)
  | VNull => VNull
  end.

(** [Attribute.prototype.validate]: what it leaves in [paramd.value]. *)
Definition validate (self : t) (value : jsval) : jsval :=
  let value := _convert self value in
  let value :=
    match value with
    | VNum n => VNum (_bounded n (minimum self) (maximum self))
    | _ => value
    end in
  match value with
  | VStr s =>
      match formats self with
      | [] => value
      | iot_formats =>
          match _format iot_formats s with
          | Some formatted_value => VStr formatted_value
          | None => VUndefined
          end
      end
  | _ => value
  end.

(** One round of the loop of [validate_value] over the elements. *)
Definition validate_element (self : t) (is_set : bool) (ns : list jsval)
    (v : jsval) : list jsval :=
  let value := validate self v in
  if strict_eq value VUndefined then ns
  else if negb is_set || negb (existsb (strict_eq value) ns) then ns ++ [value]
  else ns.

(** [Attribute.prototype.validate_value], of a value or an array. *)
Definition validate_value (self : t) (value : pval) : pval :=
  let is_set := has (types self) iot_set in
  let is_list := has (types self) iot_list in
  if is_set || is_list then
    let value :=
      match value with
      | PAtom VNull | PAtom VUndefined => []
      | PAtom v => [v]
      | PArr vs => vs
      end in
    PArr (fold_left (validate_element self is_set) value [])
  else
    let value :=
      match value with
      | PArr (v :: _) => v
      | PArr [] => VNull
      | PAtom v => v
      end in
    PAtom (validate self value).

End WithCoercions.

Section WithHelpers.

Context `{Helpers}.

(** [_.is.AbsoluteURL], of helpers/. *)
Variable is_AbsoluteURL : string -> bool.

(** [Attribute.prototype.property_value] for a value that is no
    array, on the properties that the Attribute has of its own: the
    properties it leaves, or [None] when [_validate_property_value]
    throws.  [array] is the option of [paramd], [true] when left
    out. *)
Definition property_value (key_iri : string) (value : jsval)
    (array : option bool) (self : gmap string pval) : option (gmap string pval) :=
  let p_array := default true array in
  let key_iri := ld_expand key_iri in
  if negb (is_AbsoluteURL key_iri) then None
  else
    let existing := default (PAtom VUndefined) (self !! key_iri) in
    match existing with
    | PAtom VUndefined => Some (<[key_iri := PAtom value]> self)
    | PArr vs =>
        if negb p_array then Some (<[key_iri := PAtom value]> self)
        else if negb (existsb (strict_eq value) vs)
        then Some (<[key_iri := PArr (vs ++ [value])]> self)
        else Some self
    | PAtom e =>
        if negb p_array then Some (<[key_iri := PAtom value]> self)
        else if negb (strict_eq e value)
        then Some (<[key_iri := PArr [e; value]]> self)
        else Some self
    end.

End WithHelpers.

End Attribute.

(** * Vocabulary of the statements *)

(** ** Timestamps *)

(** The lexicographic order of two strings by character code: how
    JavaScript's [<=] compares two ISO-8601 timestamps. *)
Inductive lex_le : string -> string -> Prop :=
  | lex_le_empty (t : string) : lex_le EmptyString t
  | lex_le_less (a b : ascii) (s t : string) :
      (N_of_ascii a < N_of_ascii b)%N -> lex_le (String a s) (String b t)
  | lex_le_same (a : ascii) (s t : string) :
      lex_le s t -> lex_le (String a s) (String a t).

(** The table of section 4.3 of the specification. *)
Definition should_apply (stored incoming : timestamp) : Prop :=
  match stored, incoming with
  | None, None => True
  | None, Some _ => True
  | Some _, None => False
  | Some s, Some i => lex_le s i
  end.

(** The [paramd] of [Meta.update] with [check_timestamp] given. *)
Definition meta_checking (b : bool) (p : Meta.paramd) : Meta.paramd :=
  Meta.Paramd (Meta.emit p) (Meta.set_timestamp p) (Some b).

(** The same for the [paramd] of [Model.update]. *)
Definition checking (b : bool) (p : Model.paramd) : Model.paramd :=
  Model.Paramd (Model.add_timestamp p) (Some b) (Model.set_timestamp p)
    (Model.notify p) (Model.validate p) (Model.emit_meta p).

(** The incoming timestamp that [_update_ostate] compares: the one
    [_.timestamp.add] leaves, unless [add_timestamp] is off. *)
Definition ostate_incoming `{Helpers} (now : string) (updated : dict)
    (p : Model.paramd) : timestamp :=
  if default true (Model.add_timestamp p)
  then timestamp_add now (d_timestamp updated)
  else d_timestamp updated.




(** ** Keys and bands *)

(** Is this match the kind that the mode asks for: an actuator for
    ["set"], a sensor for ["get"] and ["on"]? *)
Definition appropriate (mode : string) (a : Model.Attribute) : bool :=
  if String.eqb mode "set" then Model.is_actuator a
  else if String.eqb mode "get" || String.eqb mode "on" then Model.is_sensor a
  else false.

(** The output band holds no value: every attribute has [_ovalue]
    [null] and is not marked as changed. *)
Definition ostate_cleared (self : Model.Thing) : Prop :=
  forall a, In a (Model.__attributes self) ->
    Model._ovalue a = VNull /\ Model._ochanged a = false.

(** ** Arrays *)

(** Is the event an [EVENT_THINGS_CHANGED]? *)
Definition is_changed (e : ThingArray.event) : bool :=
  match e with ThingArray.EVENT_THINGS_CHANGED => true | _ => false end.

(** Is the event an [EVENT_THING_NEW]? *)
Definition is_new (e : ThingArray.event) : bool :=
  match e with ThingArray.EVENT_THING_NEW _ => true | _ => false end.

(** The number of events of a kind. *)
Definition count_events (f : ThingArray.event -> bool)
    (evs : list ThingArray.event) : nat :=
  length (List.filter f evs).

(** What an array has emitted since an earlier state of it. *)
Definition emitted_since (before after : ThingArray.t) : list ThingArray.event :=
  drop (length (ThingArray.emitted before)) (ThingArray.emitted after).

(** The events of one [push] that adds its thing. *)
Definition push_events (x : ThingArray.thing) (p : ThingArray.push_paramd)
    : list ThingArray.event :=
  let pushed := default true (ThingArray.emit_pushed p) in
  let new := default true (ThingArray.emit_new p) in
  (if pushed then [ThingArray.EVENT_THING_PUSHED x] else [])
  ++ (if new then [ThingArray.EVENT_THING_NEW x] else [])
  ++ (if pushed || new then [ThingArray.EVENT_THINGS_CHANGED] else []).

(** The recorded commands of an array ([null] read as none). *)
Definition recorded (self : ThingArray.t) : list ThingArray.persistd :=
  default [] (ThingArray._persistds self).

(** The calls that replay the recorded commands on a thing that
    joins: the tags before it is added, the others after. *)
Definition replayed (x : ThingArray.thing) (self : ThingArray.t)
    : list (ThingArray.thing * ThingArray.persistd) :=
  List.map (pair x) (List.filter ThingArray.in_PRE_KEYS (recorded self))
  ++ List.map (pair x)
       (List.filter (fun pd => negb (ThingArray.in_PRE_KEYS pd)) (recorded self)).

(** The number of Setters among recorded commands. *)
Definition setters (pds : list ThingArray.persistd) : nat :=
  length (List.filter ThingArray.is_setter pds).

(** The number of Setters among calls made on things. *)
Definition setter_calls (calls : list (ThingArray.thing * ThingArray.persistd)) : nat :=
  length (List.filter (fun c => ThingArray.is_setter (snd c)) calls).

(** The recorded commands that are no Setters, in their order. *)
Definition others (pds : list ThingArray.persistd) : list ThingArray.persistd :=
  List.filter (fun pd => negb (ThingArray.is_setter pd)) pds.

(** The ids in [oidd] all carry [1] and all belong to things of [l]. *)
Definition ids_among (l : list ThingArray.thing) (oidd : gmap string Z) : Prop :=
  forall k v, oidd !! k = Some v ->
    v = 1%Z /\ In k (List.map ThingArray.thing_id l).

(** From [out] to [out']: things were appended, and for each of them
    one [EVENT_THING_NEW] and one [EVENT_THINGS_CHANGED] were emitted. *)
Definition grown (out out' : ThingArray.t) : Prop :=
  exists added evs,
    ThingArray.items out' = ThingArray.items out ++ added
    /\ ThingArray.emitted out' = ThingArray.emitted out ++ evs
    /\ count_events is_changed evs = length added
    /\ count_events is_new evs = length added.

(** ** Values for the examples *)

(** Helpers for the examples: the identity for the expansions, a
    [_.timestamp.add] that keeps a timestamp it finds, and an
    [advance] that marks the bump. *)
Definition sample_helpers : Helpers := {|
  iot_reachable := "iot:reachable";
  iot_purpose := "iot:purpose";
  schema_name := "schema:name";
  ld_expand := fun s => s;
  ld_expand_dict := fun d => d;
  timestamp_add := fun now ts => if Timestamp.truthy ts then ts else Some now;
  timestamp_advance :=
    fun ts => match ts with
              | Some s => Some (String.append s "+")
              | None => Some "+"
              end;
  shutting_down := false
|}.

(** An attribute for the examples: a code, a purpose, its flags, no
    coercion in [validate_value], both bands empty. *)
Definition sample_attribute (c purpose : string)
    (sensor actuator clear : bool) : Model.Attribute :=
  Model.MkAttribute c {[ "iot:purpose" := PAtom (VStr purpose) ]}
    sensor actuator sensor false false clear (fun v => v)
    VNull VNull false false.

(** A reachable bridge for the examples, with no mapping and one
    behaviour of [push]. *)
Definition sample_bridge (outcome : Model.push_outcome) : Model.Bridge :=
  Model.MkBridge true (fun _ v => v) (fun _ => outcome).

(** A Thing for the examples, with these attributes and this bridge. *)
Definition sample_thing (attrs : list Model.Attribute)
    (b : option Model.Bridge) : Model.Thing :=
  Model.MkThing attrs ∅ None None 0 b (Meta.create ∅) [] [] [].

(** An argument for the examples. *)
Definition ArgValueOn : ThingArray.arg := ThingArray.ArgValue (VBool true).

(** ** Members of an array *)

(** No object is held twice. *)
Definition distinct (l : list ThingArray.thing) : Prop :=
  List.NoDup (List.map ThingArray.oid l).

(** One object has one id: two references to the same object are the
    same thing. *)
Definition coherent (l : list ThingArray.thing) : Prop :=
  forall a b, In a l -> In b l -> ThingArray.oid a = ThingArray.oid b -> a = b.

(** The ids of the things of a list. *)
Definition ids (l : list ThingArray.thing) : list string :=
  List.map ThingArray.thing_id l.

(** The things of [l] that are neither in [seen] nor earlier in [l],
    as objects, in their order. *)
Fixpoint first_occurrences (seen l : list ThingArray.thing) : list ThingArray.thing :=
  match l with
  | [] => []
  | x :: l =>
      if existsb (fun t => ThingArray.same t x) seen
      then first_occurrences seen l
      else x :: first_occurrences (seen ++ [x]) l
  end.

(** Is the id of the thing left in [oidd]? *)
Definition left_over (oidd : gmap string Z) (o : ThingArray.thing) : bool :=
  ThingArray.has_id oidd (ThingArray.thing_id o).

(** The events of a [push] with no [paramd] that adds its thing. *)
Definition pushed_events (x : ThingArray.thing) : list ThingArray.event :=
  [ThingArray.EVENT_THING_PUSHED x; ThingArray.EVENT_THING_NEW x;
   ThingArray.EVENT_THINGS_CHANGED].

(** The calls of one bulk command on the things of a list. *)
Definition calls_on (l : list ThingArray.thing) (f : string)
    (av : list ThingArray.arg) : list (ThingArray.thing * ThingArray.persistd) :=
  List.map (fun x => (x, ThingArray.MkPersistd f av None)) l.

(** The state of a scan of [_merger] over proposed members, after the
    things [seen], for a derived array that held [held]: [oidd] holds
    ids of [held] only; an id of [held] that has left [oidd] was seen;
    only things seen were added; and each thing seen has its id out of
    [oidd] and on a thing of the array. *)
Definition scanned_so_far (held seen : list ThingArray.thing)
    (acc : gmap string Z * ThingArray.t) : Prop :=
  ids_among held (fst acc)
  /\ (forall k, In k (ids held) -> fst acc !! k = None -> In k (ids seen))
  /\ (exists added,
        ThingArray.items (snd acc) = held ++ added
        /\ forall x, In x added -> In x seen)
  /\ (forall x, In x seen ->
        left_over (fst acc) x = false
        /\ In (ThingArray.thing_id x) (ids (ThingArray.items (snd acc)))).

(** ** Updates of a band *)

(** The value that an entry of an update offers to an attribute, after
    [validate_value] when the update validates. *)
Definition offered (p_validate : bool) (a : Model.Attribute) (v : jsval) : jsval :=
  if p_validate then Model.validate_value a v else v.

(** An entry of an update that brings nothing new: its value is
    [undefined], no attribute has its code, the validation rejects it,
    or the attribute, which is not of the type null (and, on the
    output band, not forced), already holds the value offered. *)
Definition no_news (p_validate : bool) (forced : Model.Attribute -> bool)
    (held : Model.Attribute -> jsval) (attrs : list Model.Attribute)
    (kv : string * jsval) : Prop :=
  snd kv = VUndefined
  \/ Model.attributed attrs (fst kv) = None
  \/ exists a,
       Model.attributed attrs (fst kv) = Some a
       /\ ((p_validate = true /\ Model.validate_value a (snd kv) = VUndefined)
           \/ (forced a = false /\ Model.is_type_null a = false
               /\ held a = offered p_validate a (snd kv))).

(** What an attribute holds on the output band, and on the input
    band. *)
Definition output_side (a : Model.Attribute) : string * jsval * bool :=
  (Model.code a, Model._ovalue a, Model._ochanged a).

Definition input_side (a : Model.Attribute) : string * jsval * bool :=
  (Model.code a, Model._ivalue a, Model._ichanged a).

(** Kinds of scheduled closures. *)
Definition is_push (f : Model.task) : bool :=
  match f with Model.TaskPush _ => true | _ => false end.

Definition is_callback (f : Model.task) : bool :=
  match f with Model.TaskCallback _ _ => true | _ => false end.

(** From [self] to [self'] only the input band has moved: what the
    attributes hold on the output band, the timestamp of that band,
    the counter of pushes, the Bridge, the metadata, the callbacks,
    the events emitted and the callbacks run are the same, and no
    push is among the closures scheduled since. *)
Definition input_only (self self' : Model.Thing) : Prop :=
  List.map output_side (Model.__attributes self')
  = List.map output_side (Model.__attributes self)
  /\ Model.__callbacksd self' = Model.__callbacksd self
  /\ Model._otimestamp self' = Model._otimestamp self
  /\ Model._pushes self' = Model._pushes self
  /\ Model.bridge_instance self' = Model.bridge_instance self
  /\ Model.meta self' = Model.meta self
  /\ Model.emitted self' = Model.emitted self
  /\ Model.called self' = Model.called self
  /\ exists more,
       Model.ticks self' = Model.ticks self ++ more
       /\ forallb (fun f => negb (is_push f)) more = true.

(** From [self] to [self'] only the output band has moved: what the
    attributes hold on the input band, the timestamp of that band, the
    counter of pushes, the Bridge, the metadata, the callbacks and the
    callbacks run are the same, no callback of an attribute is among
    the closures scheduled since, and nothing but ["ostate"] was
    emitted. *)
Definition output_only (self self' : Model.Thing) : Prop :=
  List.map input_side (Model.__attributes self')
  = List.map input_side (Model.__attributes self)
  /\ Model.__callbacksd self' = Model.__callbacksd self
  /\ Model._itimestamp self' = Model._itimestamp self
  /\ Model._pushes self' = Model._pushes self
  /\ Model.bridge_instance self' = Model.bridge_instance self
  /\ Model.meta self' = Model.meta self
  /\ Model.called self' = Model.called self
  /\ (exists more,
        Model.ticks self' = Model.ticks self ++ more
        /\ forallb (fun f => negb (is_callback f)) more = true)
  /\ exists events,
       Model.emitted self' = Model.emitted self ++ events
       /\ forallb (String.eqb "ostate") events = true.

(** What the input band reads for a code: the [_ivalue] of
    [__attributed[code]], if there is such an attribute. *)
Definition ivalue_of (attrs : list Model.Attribute) (c : string) : option jsval :=
  option_map Model._ivalue (Model.attributed attrs c).


(** Is the closure a push that the Bridge takes and answers later? *)
Definition in_flight (bridge : option Model.Bridge) (f : Model.task) : bool :=
  match bridge, f with
  | Some b, Model.TaskPush pushd =>
      match Model.push b pushd with
      | Model.PushDeferred => true
      | _ => false
      end
  | _, _ => false
  end.

(** A Bridge that does not throw after it has called back. *)
Definition calls_back_or_throws (bridge : option Model.Bridge) : Prop :=
  forall b pushd error,
    bridge = Some b -> Model.push b pushd <> Model.PushCallbackThrows error.

(** ** Strings *)

(** Does the string hold two underscores in a row? *)
Fixpoint doubled_underscore (s : string) : bool :=
  match s with
  | String a (String b _ as s') =>
      (Ascii.eqb a "_" && Ascii.eqb b "_") || doubled_underscore s'
  | _ => false
  end.

(** Is every code unit of the string in [[a-z0-9_]]? *)
Fixpoint slug_alphabet (s : string) : bool :=
  match s with
  | EmptyString => true
  | String c s' => (Id.safe c || Ascii.eqb c "_") && slug_alphabet s'
  end.

(** ** Values of attributes *)

(** The elements that [validate_value] goes through for an attribute
    that is a set or a list: none for [null] and [undefined], the
    value itself, or the elements of the array. *)
Definition elements (value : pval) : list jsval :=
  match value with
  | PAtom VNull | PAtom VUndefined => []
  | PAtom v => [v]
  | PArr vs => vs
  end.

(** Coercions for the examples: the type names of the vocabulary, no
    string that reads as a number, and a format that accepts every
    string as it is. *)
Definition sample_coercions : Attribute.Coercions := {|
  Attribute.iot_boolean := "iot:type.boolean";
  Attribute.iot_integer := "iot:type.integer";
  Attribute.iot_number := "iot:type.number";
  Attribute.iot_string := "iot:type.string";
  Attribute.iot_set := "iot:type.set";
  Attribute.iot_list := "iot:type.list";
  Attribute.parseFloat := fun _ => None;
  Attribute.number_to_string := fun _ => "";
  Attribute._format := fun _ s => Some s
|}.

(** Is the value among those that the properties hold under the key:
    the value itself, or an element of the array? *)
Definition declared (properties : gmap string pval) (key : string) (v : jsval) : Prop :=
  match properties !! key with
  | Some (PAtom e) => e = v
  | Some (PArr vs) => In v vs
  | None => False
  end.

(** The attribute with other properties of its own. *)
Definition with_props (properties : gmap string pval) (a : Model.Attribute)
    : Model.Attribute :=
  Model.MkAttribute (Model.code a) properties (Model.is_sensor a)
    (Model.is_actuator a) (Model.is_read a) (Model.is_type_null a) (Model.force a)
    (Model.clear_value a) (Model.validate_value a) (Model._ivalue a)
    (Model._ovalue a) (Model._ichanged a) (Model._ochanged a).

(** ** Proof steps *)


(** The assignments to the fields of a Thing carried out, the inner
    ones first. *)
Ltac thing_nf :=
  cbv beta iota delta [Model.nextTick Model.emit Model.with_attributes
    Model.with_callbacksd Model.with_itimestamp Model.with_otimestamp
    Model.with_pushes Model.with_bridge_instance Model.with_meta Model.with_ticks
    Model.with_called Model.__attributes Model.__callbacksd Model._itimestamp
    Model._otimestamp Model._pushes Model.bridge_instance Model.meta Model.ticks
    Model.emitted Model.called].

(** * Properties of Things *)

(** ** The timestamp rule *)

Lemma compare_not_Gt_lex_le (s t : string) :
  String.compare s t <> Gt <-> lex_le s t.
Proof.
  revert t. induction s as [|a s IH]; intros [|b t]; simpl.
  - split; [constructor | discriminate].
  - split; [constructor | discriminate].
  - split; [congruence | inversion 1].
  - unfold Ascii.compare.
    destruct (N.compare_spec (N_of_ascii a) (N_of_ascii b)) as [E|L|G].
    + assert (a = b) as -> by
        (rewrite <- (ascii_N_embedding a), <- (ascii_N_embedding b); congruence).
      rewrite IH. split; [constructor; assumption|].
      inversion 1; subst; [lia | assumption].
    + split; [intros _; constructor; assumption | discriminate].
    + split; [congruence|].
      inversion 1; subst; lia.
Qed.

Lemma leb_lex_le (s t : string) : String.leb s t = true <-> lex_le s t.
Proof.
  rewrite <- compare_not_Gt_lex_le. unfold String.leb.
  destruct (String.compare s t); split; congruence.
Qed.

Lemma check_values_should_apply (stored incoming : timestamp) :
  Timestamp.check_values stored incoming = true <-> should_apply stored incoming.
Proof.
  destruct stored as [s|], incoming as [i|]; simpl;
    [apply leb_lex_le | split; [discriminate | tauto] | tauto | tauto].
Qed.

Lemma lex_le_refl (s : string) : lex_le s s.
Proof. induction s; constructor; assumption. Qed.

(** The cases of test_meta.js on a timestamp conflict, run on the
    model: the value that ['key'] reads after the two updates. *)
Lemma test_meta_conflicts :
  let H := sample_helpers in
  let TS_1 := "2010-03-25T21:28:43.613Z" in
  let TS_2 := "2012-03-25T21:28:43.613Z" in
  let now := "2016-01-06T00:00:00.000Z" in
  let old ts := Dict ts [("key", VStr "old-value")] in
  let new ts := Dict ts [("key", VStr "new-value")] in
  let run d1 p1 d2 p2 :=
    Meta.get
      (fst (Meta.update now d2 p2 (fst (Meta.update now d1 p1 (Meta.create ∅)))))
      "key" VUndefined in
  let none := Meta.Paramd None None None in
  let set := Meta.Paramd None (Some true) None in
  let check := Meta.Paramd None None (Some true) in
  let both := Meta.Paramd None (Some true) (Some true) in
  run (old None) none (new None) check = VStr "new-value"
  /\ run (old (Some TS_1)) set (new None) check = VStr "old-value"
  /\ run (old None) none (new (Some TS_1)) check = VStr "new-value"
  /\ run (old (Some TS_1)) none (new (Some TS_2)) check = VStr "new-value"
  /\ run (old (Some TS_2)) set (new (Some TS_1)) both = VStr "old-value"
  /\ run (old (Some TS_2)) set (new (Some TS_2)) both = VStr "new-value".
Proof. repeat split; reflexivity. Qed.

(** C1.  Whenever [check_timestamp] is asked for, in [Meta.update], in
    [_update_istate] and in [_update_ostate], the update is decided by
    [check_values] on the stored and the incoming timestamp: it goes
    on as it would without the check when the rule applies, and is
    abandoned otherwise.  The rule is the table: both absent applies,
    stored absent applies, stored present with incoming absent
    rejects, both present applies iff the incoming one is at least the
    stored one in lexicographic order, so a tie applies. *)
Theorem C1_timestamp_rule `{Helpers} :
  (forall stored incoming,
      Timestamp.check_values stored incoming = true <-> should_apply stored incoming)
  /\ (forall s, Timestamp.check_values (Some s) (Some s) = true)
  /\ (forall now ind p m,
        Meta.update now ind (meta_checking true p) m =
        if Timestamp.check_values (Meta._updated_timestamp m) (d_timestamp ind)
        then Meta.update now ind (meta_checking false p) m
        else (m, None))
  /\ (forall now updated p self,
        Model._update_istate now updated (checking true p) self =
        if Timestamp.check_values (Model._itimestamp self) (d_timestamp updated)
        then Model._update_istate now updated (checking false p) self
        else self)
  /\ (forall now updated p self,
        Model._update_ostate now updated (checking true p) self =
        if Timestamp.check_values (Model._otimestamp self)
                                  (ostate_incoming now updated p)
        then Model._update_ostate now updated (checking false p) self
        else self).
Proof.
  split; [exact check_values_should_apply|].
  split; [intros s; apply check_values_should_apply, lex_le_refl|].
  split; [|split].
  - intros now ind p m. unfold Meta.update, Meta.check_dictionary. simpl.
    destruct (Timestamp.check_values _ _); reflexivity.
  - intros now updated p self. unfold Model._update_istate. simpl.
    destruct (Timestamp.check_values _ _); reflexivity.
  - intros now updated p self. unfold Model._update_ostate, ostate_incoming. simpl.
    destruct (default true (Model.add_timestamp p)); simpl;
      destruct (Timestamp.check_values _ _); reflexivity.
Qed.

(** ** A lost comparison changes nothing *)



(** ** get *)

(** C10.  For an attribute that [get] resolves, the value returned is
    the value of the input band unless that is [null], else the value
    of the output band unless that is [null], else [null]. *)
Theorem C10_get_prefers_istate `{Helpers} (k : Model.find_key)
    (self : Model.Thing) (attribute : Model.Attribute) :
  Model.find k "get" self = Some attribute ->
  (Model._ivalue attribute <> VNull ->
     Model.get k self = Model._ivalue attribute)
  /\ (Model._ivalue attribute = VNull -> Model._ovalue attribute <> VNull ->
        Model.get k self = Model._ovalue attribute)
  /\ (Model._ivalue attribute = VNull -> Model._ovalue attribute = VNull ->
        Model.get k self = VNull).
Proof.
  intros Hf. unfold Model.get. rewrite Hf. unfold strict_eq.
  repeat split.
  - intros Hi. rewrite bool_decide_eq_false_2 by assumption. reflexivity.
  - intros Hi Ho. rewrite Hi. simpl.
    rewrite bool_decide_eq_false_2 by assumption. reflexivity.
  - intros Hi Ho. rewrite Hi, Ho. reflexivity.
Qed.

Lemma C10_get_prefers_istate_witness :
  let H := sample_helpers in
  let a := Model.set_ostate (VStr "red") false
             (sample_attribute "color" "iot-purpose:color" true true false) in
  Model.get (Model.KeyString "color") (sample_thing [a] None) = VStr "red".
Proof.
  intros H a.
  apply (proj1 (proj2 (@C10_get_prefers_istate H (Model.KeyString "color")
                         (sample_thing [a] None) a eq_refl)));
    [reflexivity | discriminate].
Defined.

(** ** find *)

Lemma match_step_fold (l : list Model.Attribute)
    (s a : option Model.Attribute) :
  fold_left Model.match_step l (s, a) =
  (match s with Some _ => s | None => List.find Model.is_sensor l end,
   match a with Some _ => a | None => List.find Model.is_actuator l end).
Proof.
  revert s a. induction l as [|m l IH]; intros s a; simpl.
  - destruct s, a; reflexivity.
  - rewrite IH. destruct s, a; simpl;
      destruct (Model.is_sensor m), (Model.is_actuator m); reflexivity.
Qed.

Lemma choose_eq (mode : string) (matches : list Model.Attribute) :
  mode = "set" \/ mode = "get" \/ mode = "on" ->
  Model.choose mode matches =
  match List.find (appropriate mode) matches with
  | Some a => Some a
  | None =>
      match List.find Model.is_actuator matches with
      | Some a => Some a
      | None =>
          match List.find Model.is_sensor matches with
          | Some a => Some a
          | None => head matches
          end
      end
  end.
Proof.
  intros Hm. unfold Model.choose. rewrite match_step_fold.
  assert (Ea : List.find (appropriate "set") matches
               = List.find Model.is_actuator matches) by reflexivity.
  assert (Eg : List.find (appropriate "get") matches
               = List.find Model.is_sensor matches) by reflexivity.
  assert (Eo : List.find (appropriate "on") matches
               = List.find Model.is_sensor matches) by reflexivity.
  destruct Hm as [-> | [-> | ->]]; rewrite ?Ea, ?Eg, ?Eo;
    change (String.eqb "set" "set") with true;
    change (String.eqb "get" "set") with false;
    change (String.eqb "get" "get") with true;
    change (String.eqb "on" "set") with false;
    change (String.eqb "on" "get") with false;
    change (String.eqb "on" "on") with true;
    destruct (List.find Model.is_actuator matches),
             (List.find Model.is_sensor matches); reflexivity.
Qed.

Lemma find_none_forall {A : Type} (f : A -> bool) (l : list A) :
  List.find f l = None -> forallb (fun x => negb (f x)) l = true.
Proof.
  induction l as [|x l IH]; simpl; [reflexivity|].
  destruct (f x); [discriminate | auto].
Qed.

Lemma choose_In (mode : string) (matches : list Model.Attribute)
    (a : Model.Attribute) :
  Model.choose mode matches = Some a -> In a matches.
Proof.
  unfold Model.choose. rewrite match_step_fold.
  destruct (List.find Model.is_sensor matches) as [s|] eqn:Es;
    destruct (List.find Model.is_actuator matches) as [t|] eqn:Et;
    try (apply find_some in Es as [Es _]); try (apply find_some in Et as [Et _]);
    repeat match goal with
           | |- context [if ?b then _ else _] => destruct b
           end;
    try (intros [= <-]; assumption);
    (destruct matches; simpl; [discriminate | intros [= <-]; left; reflexivity]).
Qed.

Lemma find_dict_In `{Helpers} (d : list (string * pval)) (mode : string)
    (expand : bool) (self : Model.Thing) (a : Model.Attribute) :
  Model.find_dict d mode expand self = Some a -> In a (Model.__attributes self).
Proof.
  unfold Model.find_dict. set (d' := if expand then ld_expand_dict d else d).
  intros E.
  assert (Hin : In a (Model.find_matches d' self)).
  { destruct (Model.find_matches d' self) as [|m0 [|m1 l]] eqn:Em.
    - apply choose_In in E. exact E.
    - injection E as <-. left. reflexivity.
    - apply choose_In in E. exact E. }
  unfold Model.find_matches in Hin. apply List.filter_In in Hin. tauto.
Qed.

Lemma find_In `{Helpers} (k : Model.find_key) (mode : string)
    (self : Model.Thing) (a : Model.Attribute) :
  Model.find k mode self = Some a -> In a (Model.__attributes self).
Proof.
  destruct k as [s0|d]; simpl; [|apply find_dict_In].
  destruct (String.eqb _ ":"); [apply find_dict_In|].
  destruct (Model.has_char ":" _); [apply find_dict_In|].
  intros E. apply find_some in E. tauto.
Qed.

Lemma unique_code_registered (attrs : list Model.Attribute) (a : Model.Attribute) :
  List.NoDup (List.map Model.code attrs) ->
  In a attrs ->
  Model.attributed attrs (Model.code a) = Some a.
Proof.
  unfold Model.attributed. induction attrs as [|x attrs IH]; simpl; [tauto|].
  intros Hnd [-> | Hin].
  - rewrite String.eqb_refl. reflexivity.
  - apply List.NoDup_cons_iff in Hnd as [Hx Hnd].
    destruct (String.eqb (Model.code x) (Model.code a)) eqn:E; [|auto].
    apply String.eqb_eq in E. exfalso. apply Hx. rewrite E.
    apply in_map. exact Hin.
Qed.

(** C8, as the code has it.  For a match dictionary that more than one
    attribute matches and a mode among ["set"], ["get"] and ["on"],
    [find] gives the first actuator match for ["set"] and the first
    sensor match for ["get"] and ["on"], when there is one; when there
    is none, it gives the first actuator match, else the first sensor
    match, else the first match.  That is the first match in
    declaration order whenever every match is a sensor or an
    actuator. *)
Theorem C8_find_by_mode `{Helpers} (d : list (string * pval)) (mode : string)
    (self : Model.Thing) :
  let matches := Model.find_matches (ld_expand_dict d) self in
  2 <= length matches ->
  mode = "set" \/ mode = "get" \/ mode = "on" ->
  Model.find (Model.KeyDict d) mode self =
    match List.find (appropriate mode) matches with
    | Some a => Some a
    | None =>
        match List.find Model.is_actuator matches with
        | Some a => Some a
        | None =>
            match List.find Model.is_sensor matches with
            | Some a => Some a
            | None => head matches
            end
        end
    end
  /\ (forallb (fun a => Model.is_sensor a || Model.is_actuator a) matches = true ->
      List.find (appropriate mode) matches = None ->
      Model.find (Model.KeyDict d) mode self = head matches).
Proof.
  intros matches Hlen Hm.
  assert (E : Model.find (Model.KeyDict d) mode self = Model.choose mode matches).
  { unfold Model.find, Model.find_dict. fold matches.
    destruct matches as [|m0 [|m1 l]]; simpl in Hlen; try lia. reflexivity. }
  rewrite E, (choose_eq mode matches Hm). split; [reflexivity|].
  intros Hall Hnone. rewrite Hnone.
  destruct matches as [|m0 l]; [simpl in Hlen; lia|].
  pose proof (find_none_forall _ _ Hnone) as Hno.
  simpl in Hall, Hno.
  apply andb_true_iff in Hall as [H0 _]. apply andb_true_iff in Hno as [N0 _].
  destruct Hm as [-> | [-> | ->]].
  - change (List.find (appropriate "set") (m0 :: l))
      with (List.find Model.is_actuator (m0 :: l)) in Hnone.
    rewrite Hnone. change (appropriate "set" m0) with (Model.is_actuator m0) in N0.
    simpl. destruct (Model.is_sensor m0), (Model.is_actuator m0);
      simpl in *; try discriminate; reflexivity.
  - change (List.find (appropriate "get") (m0 :: l))
      with (List.find Model.is_sensor (m0 :: l)) in Hnone.
    change (appropriate "get" m0) with (Model.is_sensor m0) in N0.
    simpl. destruct (Model.is_sensor m0), (Model.is_actuator m0);
      simpl in *; try discriminate; reflexivity.
  - change (List.find (appropriate "on") (m0 :: l))
      with (List.find Model.is_sensor (m0 :: l)) in Hnone.
    change (appropriate "on" m0) with (Model.is_sensor m0) in N0.
    simpl. destruct (Model.is_sensor m0), (Model.is_actuator m0);
      simpl in *; try discriminate; reflexivity.
Qed.

Lemma C8_find_by_mode_witness :
  let H := sample_helpers in
  let on_value := sample_attribute "on-value" "iot-purpose:on" true false false in
  let on := sample_attribute "on" "iot-purpose:on" false true false in
  Model.find (Model.KeyDict [("iot:purpose", PAtom (VStr "iot-purpose:on"))]) "set"
    (sample_thing [on_value; on] None) = Some on.
Proof.
  intros H on_value on.
  apply (proj1 (@C8_find_by_mode H
                  [("iot:purpose", PAtom (VStr "iot-purpose:on"))] "set"
                  (sample_thing [on_value; on] None)
                  ltac:(vm_compute; lia) ltac:(left; reflexivity))).
Defined.

(** The claim C8 as the specification words it fails: with no sensor
    among the matches, ["get"] is given the first actuator match, which
    here is the second match, not the first. *)
Lemma C8_first_match_counterexample :
  let H := sample_helpers in
  let label := sample_attribute "label" "iot-purpose:on" false false false in
  let on := sample_attribute "on" "iot-purpose:on" false true false in
  let self := sample_thing [label; on] None in
  let d := [("iot:purpose", PAtom (VStr "iot-purpose:on"))] in
  Model.find_matches (ld_expand_dict d) self = [label; on]
  /\ List.find (appropriate "get") [label; on] = None
  /\ Model.find (Model.KeyDict d) "get" self = Some on
  /\ Model.find (Model.KeyDict d) "get" self <> head [label; on].
Proof.
  intros H label on self d.
  assert (E : Model.find (Model.KeyDict d) "get" self = Some on) by reflexivity.
  split; [reflexivity|]. split; [reflexivity|]. split; [exact E|].
  rewrite E. simpl. intros Heq. injection Heq as Hc. discriminate Hc.
Qed.

(** ** Pushes that fail *)

Lemma clear_ostate_cleared `{Helpers} (self : Model.Thing) :
  ostate_cleared (Model._clear_ostate self).
Proof.
  intros a Hin. unfold Model._clear_ostate in Hin.
  assert (Hin' : In a (List.map
                   (fun a => if Model.to_clear a
                             then Model.set_ostate VNull false a else a)
                   (Model.__attributes self)))
    by (destruct (existsb Model.to_clear (Model.__attributes self)); exact Hin).
  apply in_map_iff in Hin' as [a0 [<- _]].
  unfold Model.to_clear, strict_eq.
  destruct (decide (Model._ovalue a0 = VNull)) as [E|E].
  - rewrite bool_decide_eq_true_2 by assumption.
    destruct (Model._ochanged a0) eqn:Ec; simpl; tauto.
  - rewrite bool_decide_eq_false_2 by assumption. simpl. tauto.
Qed.

Lemma clear_ostate_pushes `{Helpers} (self : Model.Thing) :
  Model._pushes (Model._clear_ostate self) = Model._pushes self.
Proof.
  unfold Model._clear_ostate.
  destruct (existsb Model.to_clear (Model.__attributes self)); reflexivity.
Qed.

Lemma push_done_pushes `{Helpers} (self : Model.Thing) :
  Model._pushes (Model.push_done self) = (Model._pushes self - 1)%Z.
Proof.
  unfold Model.push_done. simpl.
  destruct (Model._pushes self - 1 =? 0)%Z; [rewrite clear_ostate_pushes|];
    reflexivity.
Qed.




(** A bridge that calls back and then throws is counted down twice:
    the closure of the push ends with the exception of its last line. *)
Lemma push_callback_then_throw `{Helpers} (pushd : list (string * jsval))
    (self : Model.Thing) (b : Model.Bridge) (error : bool) :
  Model.bridge_instance self = Some b ->
  Model._pushes self = 0%Z ->
  Model.push b pushd = Model.PushCallbackThrows error ->
  snd (Model.push_task pushd self) = Some "pushes decremeneted below 0!!!".
Proof.
  intros Hb Hp Ho. unfold Model.push_task. rewrite Hb, Ho.
  unfold Model.push_callback. rewrite !push_done_pushes. simpl. rewrite Hp.
  reflexivity.
Qed.

(** ** set, push, clear *)

Lemma attributed_In (attrs : list Model.Attribute) (c : string) (a : Model.Attribute) :
  Model.attributed attrs c = Some a -> In a attrs /\ Model.code a = c.
Proof.
  intros E. apply find_some in E as [Hin Hc].
  split; [exact Hin | apply String.eqb_eq, Hc].
Qed.

Lemma attributed_assign (attrs : list Model.Attribute) (c : string)
    (f : Model.Attribute -> Model.Attribute) (a : Model.Attribute) :
  (forall x, Model.code (f x) = Model.code x) ->
  Model.attributed attrs c = Some a ->
  Model.attributed (Model.assign c f attrs) c = Some (f a).
Proof.
  intros Hf. unfold Model.attributed, Model.assign.
  induction attrs as [|x attrs IH]; simpl; [discriminate|].
  destruct (String.eqb (Model.code x) c) eqn:E.
  - intros [= ->]. rewrite Hf, E. reflexivity.
  - rewrite E. exact IH.
Qed.




Lemma clear_ostate_notifies `{Helpers} (self : Model.Thing) :
  existsb Model.to_clear (Model.__attributes self) = true ->
  Model._otimestamp (Model._clear_ostate self)
  = timestamp_advance (Model._otimestamp self)
  /\ Model.emitted (Model._clear_ostate self) = Model.emitted self ++ ["ostate"].
Proof.
  intros E. unfold Model._clear_ostate. rewrite E. split; reflexivity.
Qed.





(** * Properties of ThingArrays *)

(** ** push *)

Lemma persist_fold (x : ThingArray.thing) (P : ThingArray.persistd -> bool)
    (g : ThingArray.t -> ThingArray.persistd -> ThingArray.t)
    (pds : list ThingArray.persistd) (self : ThingArray.t) :
  (forall s pd, g s pd = if P pd then ThingArray.apply x pd s else s) ->
  fold_left g pds self =
  ThingArray.Make (ThingArray.items self) (ThingArray._persistds self)
    (ThingArray.emitted self)
    (ThingArray.applied self ++ List.map (pair x) (List.filter P pds)).
Proof.
  intros Hg. revert self. induction pds as [|pd pds IH]; intros self; simpl.
  - rewrite app_nil_r. destruct self; reflexivity.
  - rewrite IH, Hg. destruct (P pd); simpl; [|reflexivity].
    rewrite <- app_assoc. reflexivity.
Qed.

Lemma persist_pre_eq (x : ThingArray.thing) (self : ThingArray.t) :
  ThingArray._persist_pre x self =
  ThingArray.Make (ThingArray.items self) (ThingArray._persistds self)
    (ThingArray.emitted self)
    (ThingArray.applied self
       ++ List.map (pair x) (List.filter ThingArray.in_PRE_KEYS (recorded self))).
Proof.
  unfold ThingArray._persist_pre, recorded.
  destruct (ThingArray._persistds self) as [pds|] eqn:E; simpl.
  - rewrite (persist_fold x ThingArray.in_PRE_KEYS), E by reflexivity. reflexivity.
  - rewrite app_nil_r. destruct self; simpl in *; congruence.
Qed.

Lemma persist_post_eq (x : ThingArray.thing) (self : ThingArray.t) :
  ThingArray._persist_post x self =
  ThingArray.Make (ThingArray.items self) (ThingArray._persistds self)
    (ThingArray.emitted self)
    (ThingArray.applied self
       ++ List.map (pair x)
            (List.filter (fun pd => negb (ThingArray.in_PRE_KEYS pd)) (recorded self))).
Proof.
  unfold ThingArray._persist_post, recorded.
  destruct (ThingArray._persistds self) as [pds|] eqn:E; simpl.
  - rewrite (persist_fold x (fun pd => negb (ThingArray.in_PRE_KEYS pd))), E;
      [reflexivity|].
    intros s pd. destruct (ThingArray.in_PRE_KEYS pd); reflexivity.
  - rewrite app_nil_r. destruct self; simpl in *; congruence.
Qed.

Lemma member_found (x : ThingArray.thing) (l : list ThingArray.thing) :
  In x l -> existsb (fun t => ThingArray.same t x) l = true.
Proof.
  intros Hin. apply existsb_exists. exists x. split; [assumption|].
  apply Nat.eqb_refl.
Qed.

Lemma push_member (x : ThingArray.thing) (p : ThingArray.push_paramd)
    (self : ThingArray.t) :
  existsb (fun t => ThingArray.same t x) (ThingArray.items self) = true ->
  ThingArray.push x p self = self.
Proof. intros Hm. unfold ThingArray.push. rewrite Hm. reflexivity. Qed.

Lemma push_fresh (x : ThingArray.thing) (p : ThingArray.push_paramd)
    (self : ThingArray.t) :
  existsb (fun t => ThingArray.same t x) (ThingArray.items self) = false ->
  ThingArray.push x p self =
  ThingArray.Make (ThingArray.items self ++ [x]) (ThingArray._persistds self)
    (ThingArray.emitted self ++ push_events x p)
    (ThingArray.applied self ++ replayed x self).
Proof.
  intros Hm. unfold ThingArray.push. rewrite Hm.
  rewrite persist_post_eq, persist_pre_eq. unfold push_events, replayed, recorded.
  destruct (default true (ThingArray.emit_pushed p)),
           (default true (ThingArray.emit_new p)); simpl;
    rewrite <- ?app_assoc, ?app_nil_r; reflexivity.
Qed.

(** C3, as the code has it.  Pushing a thing that the array already
    holds, the same object, changes nothing: not the elements nor their
    number, and nothing is emitted or replayed.  Membership is by the
    object, not by its id: a thing that is no element of the array is
    appended, whatever ids the elements have. *)
Theorem C3_push_same_thing (x : ThingArray.thing) (p : ThingArray.push_paramd)
    (self : ThingArray.t) :
  (In x (ThingArray.items self) -> ThingArray.push x p self = self)
  /\ ((forall t, In t (ThingArray.items self) -> ThingArray.oid t <> ThingArray.oid x) ->
      ThingArray.items (ThingArray.push x p self) = ThingArray.items self ++ [x]).
Proof.
  split.
  - intros Hin. apply push_member, member_found, Hin.
  - intros Hfresh. rewrite push_fresh; [reflexivity|].
    apply not_true_is_false. intros Hex. apply existsb_exists in Hex as [t [Hin Hs]].
    apply Nat.eqb_eq in Hs. exact (Hfresh t Hin Hs).
Qed.

Lemma C3_push_same_thing_witness :
  let x := ThingArray.MkThing 1 "urn:iotdb:thing:hue:1" in
  let self := ThingArray.push x (ThingArray.PushParamd None None) (ThingArray.create true) in
  ThingArray.push x (ThingArray.PushParamd None None) self = self
  /\ ThingArray.items
       (ThingArray.push (ThingArray.MkThing 2 "urn:iotdb:thing:hue:2")
          (ThingArray.PushParamd None None) self)
     = [x; ThingArray.MkThing 2 "urn:iotdb:thing:hue:2"].
Proof.
  intros x self. split.
  - apply (proj1 (C3_push_same_thing x (ThingArray.PushParamd None None) self)).
    vm_compute. left. reflexivity.
  - apply (proj2 (C3_push_same_thing (ThingArray.MkThing 2 "urn:iotdb:thing:hue:2")
                    (ThingArray.PushParamd None None) self)).
    intros t [<- | []]. vm_compute. discriminate.
Defined.

(** The claim C3 as the specification words it fails: a second object
    with the id of an element is appended, and the array grows. *)
Lemma C3_same_id_counterexample :
  let a := ThingArray.MkThing 1 "urn:iotdb:thing:hue:1" in
  let b := ThingArray.MkThing 2 "urn:iotdb:thing:hue:1" in
  let p := ThingArray.PushParamd None None in
  let self := ThingArray.push a p (ThingArray.create false) in
  In (ThingArray.thing_id b) (List.map ThingArray.thing_id (ThingArray.items self))
  /\ ThingArray.items (ThingArray.push b p self) = [a; b]
  /\ length (ThingArray.items (ThingArray.push b p self))
     <> length (ThingArray.items self).
Proof.
  intros a b p self. split; [left; reflexivity|].
  split; [reflexivity|]. vm_compute. discriminate.
Qed.

(** ** Recorded commands *)

Lemma drop_setters_eq (rounds pi : nat) (pds : list ThingArray.persistd) :
  length pds <= rounds + pi ->
  ThingArray.drop_setters rounds pi pds = take pi pds ++ others (drop pi pds).
Proof.
  revert pi pds. induction rounds as [|rounds IH]; intros pi pds Hlen; simpl.
  - rewrite take_ge, drop_ge by lia. simpl. rewrite app_nil_r. reflexivity.
  - destruct (pds !! pi) as [pd|] eqn:E.
    + pose proof (lookup_lt_Some _ _ _ E) as Hlt.
      rewrite (drop_S _ _ _ E). unfold others. simpl.
      destruct (ThingArray.is_setter pd) eqn:Es; simpl.
      * rewrite IH.
        2:{ rewrite length_delete by eauto. lia. }
        rewrite delete_take_drop.
        rewrite take_app_length' by (rewrite length_take; lia).
        rewrite drop_app_length' by (rewrite length_take; lia).
        reflexivity.
      * rewrite IH by lia. rewrite (take_S_r _ _ _ E).
        rewrite <- app_assoc. reflexivity.
    + apply lookup_ge_None in E.
      rewrite take_ge, drop_ge by lia. simpl. rewrite app_nil_r. reflexivity.
Qed.

Lemma apply_command_persistds (f : string) (av : list ThingArray.arg)
    (self : ThingArray.t) :
  ThingArray._persistds (ThingArray._apply_command f av self)
  = ThingArray._persistds self.
Proof.
  unfold ThingArray._apply_command. generalize (ThingArray.items self).
  intros l. revert self. induction l as [|x l IH]; intros self; simpl;
    [reflexivity|]. rewrite IH. reflexivity.
Qed.

Lemma persist_command_recorded (f : string) (av : list ThingArray.arg)
    (k : option ThingArray.key) (self : ThingArray.t)
    (pds : list ThingArray.persistd) :
  ThingArray._persistds self = Some pds ->
  ThingArray._persistds (ThingArray._persist_command f av k self) =
  Some ((if bool_decide (k = Some ThingArray.KEY_SETTER) then others pds else pds)
        ++ [ThingArray.MkPersistd f av k]).
Proof.
  intros E. unfold ThingArray._persist_command. rewrite E. simpl.
  destruct (bool_decide (k = Some ThingArray.KEY_SETTER)); [|reflexivity].
  rewrite drop_setters_eq by lia. reflexivity.
Qed.

Lemma setters_others (pds : list ThingArray.persistd) : setters (others pds) = 0.
Proof.
  unfold setters, others. induction pds as [|pd pds IH]; simpl; [reflexivity|].
  destruct (ThingArray.is_setter pd) eqn:E; simpl; [assumption|].
  rewrite E. assumption.
Qed.

Lemma setters_app (l1 l2 : list ThingArray.persistd) :
  setters (l1 ++ l2) = setters l1 + setters l2.
Proof. unfold setters. rewrite List.filter_app, length_app. reflexivity. Qed.

Lemma command_setters (f : string) (av : list ThingArray.arg)
    (k : option ThingArray.key) (self : ThingArray.t) :
  setters (recorded self) <= 1 ->
  setters (recorded (ThingArray.command f av k self)) <= 1.
Proof.
  intros Hle. unfold ThingArray.command, recorded in *.
  destruct (ThingArray._persistds self) as [pds|] eqn:E.
  - rewrite (persist_command_recorded f av k _ pds)
      by (rewrite apply_command_persistds; exact E).
    simpl in *. rewrite setters_app.
    destruct (bool_decide (k = Some ThingArray.KEY_SETTER)) eqn:Ek.
    + rewrite setters_others. unfold setters. simpl.
      destruct (ThingArray.is_setter _); simpl; lia.
    + unfold setters at 2. simpl. unfold ThingArray.is_setter. simpl.
      rewrite Ek. simpl. lia.
  - unfold ThingArray._persist_command.
    rewrite apply_command_persistds, E. simpl.
    rewrite apply_command_persistds, E. unfold setters. simpl. lia.
Qed.

Lemma run_setters (c : ThingArray.bulk) (self : ThingArray.t) :
  setters (recorded self) <= 1 ->
  setters (recorded (fst (ThingArray.run c self))) <= 1.
Proof.
  intros Hle. destruct c; simpl; try (apply command_setters; assumption).
  - destruct (ThingArray.items self); simpl;
      [apply command_setters|]; assumption.
  - destruct (_ || _); simpl; [|apply command_setters]; assumption.
Qed.

Lemma push_persistds (x : ThingArray.thing) (p : ThingArray.push_paramd)
    (self : ThingArray.t) :
  ThingArray._persistds (ThingArray.push x p self) = ThingArray._persistds self.
Proof.
  destruct (existsb (fun t => ThingArray.same t x) (ThingArray.items self)) eqn:E.
  - rewrite push_member by assumption. reflexivity.
  - rewrite push_fresh by assumption. reflexivity.
Qed.

Lemma fold_persistds {A : Type}
    (f : gmap string Z * ThingArray.t -> A -> gmap string Z * ThingArray.t)
    (l : list A) (acc : gmap string Z * ThingArray.t) :
  (forall acc x, ThingArray._persistds (snd (f acc x))
                 = ThingArray._persistds (snd acc)) ->
  ThingArray._persistds (snd (fold_left f l acc)) = ThingArray._persistds (snd acc).
Proof.
  intros Hf. revert acc. induction l as [|x l IH]; intros acc; simpl;
    [reflexivity|]. rewrite IH. apply Hf.
Qed.

Lemma scan_step_persistds (acc : gmap string Z * ThingArray.t) (x : ThingArray.thing) :
  ThingArray._persistds (snd (ThingArray.scan_step acc x))
  = ThingArray._persistds (snd acc).
Proof.
  destruct acc as [oidd out]. unfold ThingArray.scan_step.
  destruct (ThingArray.has_id oidd (ThingArray.thing_id x)); simpl;
    [reflexivity | apply push_persistds].
Qed.

Lemma remove_old_persistds (rounds oi : nat) (oidd : gmap string Z)
    (out : ThingArray.t) :
  ThingArray._persistds (ThingArray.remove_old rounds oi oidd out)
  = ThingArray._persistds out.
Proof.
  revert oi out. induction rounds as [|rounds IH]; intros oi out; simpl;
    [reflexivity|].
  destruct (ThingArray.items out !! oi) as [o|]; [|reflexivity].
  destruct (negb _); rewrite IH; reflexivity.
Qed.

Lemma call_on_recorded (c : ThingArray.call) (self : ThingArray.t) :
  match c with
  | ThingArray.CallBulk _ => True
  | _ => recorded (ThingArray.call_on c self) = recorded self
  end.
Proof.
  destruct c as [c|x p|index howmany|srcs|test self_items];
    [exact I | | reflexivity | |]; unfold recorded; simpl.
  - rewrite push_persistds. reflexivity.
  - unfold ThingArray.merge_on_things_changed, ThingArray._merger.
    pose proof (fold_persistds
      (fun acc src => fold_left ThingArray.scan_step src acc) srcs
      (ThingArray.existing self, self)) as Hs.
    unfold ThingArray._merger_scan.
    destruct (fold_left _ srcs _) as [oidd scanned]. simpl.
    rewrite remove_old_persistds. simpl in Hs. rewrite Hs; [reflexivity|].
    intros acc src. apply fold_persistds. apply scan_step_persistds.
  - unfold ThingArray.filter_on_things_changed.
    pose proof (fold_persistds
      (fun acc x => if negb (test x) then acc else ThingArray.scan_step acc x)
      self_items (ThingArray.existing self, self)) as Hs.
    unfold ThingArray.filter_scan.
    destruct (fold_left _ self_items _) as [oidd scanned]. simpl.
    rewrite remove_old_persistds. simpl in Hs. rewrite Hs; [reflexivity|].
    intros acc x. destruct (negb (test x)); [reflexivity | apply scan_step_persistds].
Qed.

Lemma call_on_setters (c : ThingArray.call) (self : ThingArray.t) :
  setters (recorded self) <= 1 ->
  setters (recorded (ThingArray.call_on c self)) <= 1.
Proof.
  intros Hle. pose proof (call_on_recorded c self) as Hc.
  destruct c; try (rewrite Hc; exact Hle). apply run_setters, Hle.
Qed.

Lemma history_setters (cs : list ThingArray.call) (self : ThingArray.t) :
  setters (recorded self) <= 1 ->
  setters (recorded (ThingArray.history cs self)) <= 1.
Proof.
  revert self. unfold ThingArray.history.
  induction cs as [|c cs IH]; intros self Hle; simpl; [assumption|].
  apply IH, call_on_setters, Hle.
Qed.

Lemma setter_calls_replayed (x : ThingArray.thing) (self : ThingArray.t) :
  setter_calls (replayed x self) = setters (recorded self).
Proof.
  unfold setter_calls, replayed, setters. generalize (recorded self). intros pds.
  rewrite List.filter_app, length_app.
  induction pds as [|pd pds IH]; simpl; [reflexivity|].
  unfold ThingArray.in_PRE_KEYS, ThingArray.is_setter in *.
  destruct pd as [f av [[]|]]; simpl in *; lia.
Qed.

Lemma others_app (l1 l2 : list ThingArray.persistd) :
  others (l1 ++ l2) = others l1 ++ others l2.
Proof. apply List.filter_app. Qed.

Lemma others_idem (l : list ThingArray.persistd) : others (others l) = others l.
Proof.
  unfold others. induction l as [|pd l IH]; simpl; [reflexivity|].
  destruct (ThingArray.is_setter pd) eqn:E; simpl; rewrite ?E; simpl; congruence.
Qed.

Lemma command_others (f : string) (av : list ThingArray.arg)
    (k : option ThingArray.key) (self : ThingArray.t) :
  exists more,
    others (recorded (ThingArray.command f av k self))
    = others (recorded self) ++ more.
Proof.
  unfold ThingArray.command, recorded.
  destruct (ThingArray._persistds self) as [pds|] eqn:E.
  - rewrite (persist_command_recorded f av k _ pds)
      by (rewrite apply_command_persistds; exact E).
    simpl. rewrite others_app. eexists.
    destruct (bool_decide (k = Some ThingArray.KEY_SETTER));
      rewrite ?others_idem; reflexivity.
  - unfold ThingArray._persist_command.
    rewrite apply_command_persistds, E. simpl.
    rewrite apply_command_persistds, E. exists []. reflexivity.
Qed.

Lemma run_others (c : ThingArray.bulk) (self : ThingArray.t) :
  exists more,
    others (recorded (fst (ThingArray.run c self)))
    = others (recorded self) ++ more.
Proof.
  destruct c; simpl; try apply command_others.
  - destruct (ThingArray.items self); simpl;
      [apply command_others | exists []; rewrite app_nil_r; reflexivity].
  - destruct (_ || _); simpl;
      [exists []; rewrite app_nil_r; reflexivity | apply command_others].
Qed.

Lemma call_on_others (c : ThingArray.call) (self : ThingArray.t) :
  exists more,
    others (recorded (ThingArray.call_on c self))
    = others (recorded self) ++ more.
Proof.
  pose proof (call_on_recorded c self) as Hc.
  destruct c; try (rewrite Hc; exists []; rewrite app_nil_r; reflexivity).
  apply run_others.
Qed.

Lemma history_others (cs : list ThingArray.call) (self : ThingArray.t) :
  exists more,
    others (recorded (ThingArray.history cs self))
    = others (recorded self) ++ more.
Proof.
  revert self. unfold ThingArray.history.
  induction cs as [|c cs IH]; intros self; simpl.
  - exists []. rewrite app_nil_r. reflexivity.
  - destruct (IH (ThingArray.call_on c self)) as [m2 E2].
    destruct (call_on_others c self) as [m1 E1].
    exists (m1 ++ m2). rewrite E2, E1, app_assoc. reflexivity.
Qed.

(** C5.  In the log of a persisting array, after any sequence of bulk
    commands (and of pushes, splices and runs of its listeners between
    them), there is at most one Setter: recording a Setter drops every
    Setter recorded before and keeps the other commands in their
    order, recording any other command only appends it, and nothing
    that happens to the array later loses or reorders the commands
    that are no Setters.  So the replay on a thing that joins applies
    the recorded commands in order (the tags before it is added), with
    at most one Setter among them. *)
Theorem C5_one_setter (persist : bool) (cs : list ThingArray.call) :
  let self := ThingArray.history cs (ThingArray.create persist) in
  setters (recorded self) <= 1
  /\ (forall f av (pds : list ThingArray.persistd),
        recorded
          (ThingArray._persist_command f av (Some ThingArray.KEY_SETTER)
             (ThingArray.with_persistds (Some pds) self))
        = others pds ++ [ThingArray.MkPersistd f av (Some ThingArray.KEY_SETTER)])
  /\ (forall f av (pds : list ThingArray.persistd),
        recorded
          (ThingArray._persist_command f av None
             (ThingArray.with_persistds (Some pds) self))
        = pds ++ [ThingArray.MkPersistd f av None]
        /\ recorded
             (ThingArray._persist_command f av (Some ThingArray.KEY_TAG)
                (ThingArray.with_persistds (Some pds) self))
           = pds ++ [ThingArray.MkPersistd f av (Some ThingArray.KEY_TAG)])
  /\ (forall more : list ThingArray.call,
        exists later,
          others (recorded (ThingArray.history more self))
          = others (recorded self) ++ later)
  /\ (forall x p,
        existsb (fun t => ThingArray.same t x) (ThingArray.items self) = false ->
        ThingArray.applied (ThingArray.push x p self)
        = ThingArray.applied self ++ replayed x self)
  /\ (forall x, setter_calls (replayed x self) <= 1).
Proof.
  intros self.
  assert (Hs : setters (recorded self) <= 1).
  { apply history_setters. destruct persist; unfold setters; simpl; lia. }
  split; [exact Hs|].
  split.
  { intros f av pds. unfold recorded.
    rewrite (persist_command_recorded f av _ _ pds) by reflexivity. reflexivity. }
  split.
  { intros f av pds. unfold recorded.
    rewrite !(persist_command_recorded f av _ _ pds) by reflexivity.
    split; reflexivity. }
  split; [intros more; apply history_others|].
  split.
  { intros x p Hfresh. rewrite push_fresh by assumption. reflexivity. }
  intros x. rewrite setter_calls_replayed. exact Hs.
Qed.

Lemma C5_one_setter_witness :
  let x := ThingArray.MkThing 7 "urn:iotdb:thing:hue:7" in
  let y := ThingArray.MkThing 8 "urn:iotdb:thing:hue:8" in
  let cs :=
    [ThingArray.CallBulk (ThingArray.Set_ [ArgValueOn]);
     ThingArray.CallPush y (ThingArray.PushParamd None None);
     ThingArray.CallBulk (ThingArray.Pull []);
     ThingArray.CallBulk (ThingArray.Update [ArgValueOn])] in
  let self := ThingArray.history cs (ThingArray.create true) in
  ThingArray.applied (ThingArray.push x (ThingArray.PushParamd None None) self)
  = ThingArray.applied self
    ++ [(x, ThingArray.MkPersistd "pull" [] None);
        (x, ThingArray.MkPersistd "update" [ArgValueOn] (Some ThingArray.KEY_SETTER))].
Proof.
  intros x y cs self.
  apply (proj1 (proj2 (proj2 (proj2 (proj2 (C5_one_setter true cs))))) x
           (ThingArray.PushParamd None None)).
  reflexivity.
Defined.

(** ** Reconciliation *)

Lemma existing_fold (l : list ThingArray.thing) (m : gmap string Z) (k : string) (v : Z) :
  fold_left (fun oidd o => <[ThingArray.thing_id o := 1%Z]> oidd) l m !! k = Some v ->
  m !! k = Some v \/ (v = 1%Z /\ In k (List.map ThingArray.thing_id l)).
Proof.
  revert m. induction l as [|o l IH]; intros m Hk; simpl in *; [left; exact Hk|].
  destruct (IH _ Hk) as [Hm | [Hv Hin]]; [|right; tauto].
  destruct (decide (ThingArray.thing_id o = k)) as [<-|Hne].
  - rewrite lookup_insert_eq in Hm. right. split; [congruence | left; reflexivity].
  - rewrite lookup_insert_ne in Hm by assumption. left. exact Hm.
Qed.

Lemma existing_ids (out_items : ThingArray.t) :
  ids_among (ThingArray.items out_items) (ThingArray.existing out_items).
Proof.
  intros k v Hk. unfold ThingArray.existing in Hk.
  apply existing_fold in Hk as [Hk | Hk]; [|exact Hk].
  rewrite lookup_empty in Hk. discriminate.
Qed.

Lemma scan_confirms (l : list ThingArray.thing) (oidd : gmap string Z)
    (out_items : ThingArray.t) :
  (forall x, In x l -> In x (ThingArray.items out_items)) ->
  ids_among l oidd ->
  fold_left ThingArray.scan_step l (oidd, out_items) = (∅, out_items).
Proof.
  revert oidd. induction l as [|x l IH]; intros oidd Hsub Hids; simpl.
  - f_equal. apply map_empty. intros k.
    destruct (oidd !! k) as [v|] eqn:E; [|reflexivity].
    destruct (Hids k v E) as [_ []].
  - assert (Hsub' : forall y, In y l -> In y (ThingArray.items out_items))
      by (intros y Hy; apply Hsub; right; exact Hy).
    unfold ThingArray.has_id.
    destruct (oidd !! ThingArray.thing_id x) as [v|] eqn:E.
    + destruct (Hids _ _ E) as [-> _]. simpl. apply IH; [exact Hsub'|].
      intros k v Hk.
      destruct (decide (ThingArray.thing_id x = k)) as [<-|Hne].
      * rewrite lookup_delete_eq in Hk. discriminate.
      * rewrite lookup_delete_ne in Hk by assumption.
        destruct (Hids k v Hk) as [Hv [Hx | Hin]]; [congruence | tauto].
    + rewrite push_member by (apply member_found, Hsub; left; reflexivity).
      apply IH; [exact Hsub'|].
      intros k v Hk. destruct (Hids k v Hk) as [Hv [Hx | Hin]]; [congruence | tauto].
Qed.

Lemma remove_old_nothing (rounds oi : nat) (out_items : ThingArray.t) :
  ThingArray.remove_old rounds oi ∅ out_items = out_items.
Proof.
  revert oi. induction rounds as [|rounds IH]; intros oi; simpl; [reflexivity|].
  destruct (ThingArray.items out_items !! oi); [|reflexivity].
  unfold ThingArray.has_id. rewrite lookup_empty. simpl. apply IH.
Qed.

Lemma filter_scan_eq (test : ThingArray.thing -> bool)
    (l : list ThingArray.thing) (acc : gmap string Z * ThingArray.t) :
  fold_left (fun acc x => if negb (test x) then acc else ThingArray.scan_step acc x)
            l acc
  = fold_left ThingArray.scan_step (List.filter test l) acc.
Proof.
  revert acc. induction l as [|x l IH]; intros acc; simpl; [reflexivity|].
  destruct (test x); simpl; apply IH.
Qed.

(** C4.  Reconciling a derived array with the things it already holds
    adds nothing and removes nothing: the scan of [_merger] leaves the
    array as it was and [oidd] empty, so the array keeps its elements
    in their order and only [things_changed] is emitted; so does the
    listener of a filter whose array holds exactly the things of the
    source that pass the test. *)
Theorem C4_reconcile_same (out_items : ThingArray.t) :
  ThingArray._merger_scan [ThingArray.items out_items] out_items = (∅, out_items)
  /\ ThingArray._merger [ThingArray.items out_items] out_items
     = ThingArray.things_changed out_items
  /\ ThingArray.items (ThingArray._merger [ThingArray.items out_items] out_items)
     = ThingArray.items out_items
  /\ (forall (test : ThingArray.thing -> bool) (self_items : list ThingArray.thing),
        let view := ThingArray.with_items (List.filter test self_items) out_items in
        ThingArray.filter_scan test self_items view = (∅, view)
        /\ ThingArray.filter_on_things_changed test self_items view
           = ThingArray.things_changed view).
Proof.
  assert (Hscan : forall o,
             fold_left ThingArray.scan_step (ThingArray.items o)
               (ThingArray.existing o, o) = (∅, o)).
  { intros o. apply scan_confirms; [auto | apply existing_ids]. }
  assert (H1 : ThingArray._merger_scan [ThingArray.items out_items] out_items
               = (∅, out_items)) by (unfold ThingArray._merger_scan; simpl; apply Hscan).
  assert (H2 : ThingArray._merger [ThingArray.items out_items] out_items
               = ThingArray.things_changed out_items).
  { unfold ThingArray._merger. rewrite H1, remove_old_nothing. reflexivity. }
  split; [exact H1|]. split; [exact H2|]. split; [rewrite H2; reflexivity|].
  intros test self_items view.
  assert (H3 : ThingArray.filter_scan test self_items view = (∅, view)).
  { unfold ThingArray.filter_scan. rewrite filter_scan_eq. apply (Hscan view). }
  split; [exact H3|].
  unfold ThingArray.filter_on_things_changed. rewrite H3, remove_old_nothing.
  reflexivity.
Qed.

(** ** Notifications of a derived array *)

Lemma grown_refl (out : ThingArray.t) : grown out out.
Proof. exists [], []. rewrite !app_nil_r. repeat split; reflexivity. Qed.

Lemma grown_trans (a b c : ThingArray.t) : grown a b -> grown b c -> grown a c.
Proof.
  intros (ad1 & ev1 & I1 & E1 & C1 & N1) (ad2 & ev2 & I2 & E2 & C2 & N2).
  exists (ad1 ++ ad2), (ev1 ++ ev2).
  rewrite I2, I1, E2, E1, <- !app_assoc.
  unfold count_events in *. rewrite !List.filter_app, !length_app.
  repeat split; lia.
Qed.

Lemma scan_step_grown (acc : gmap string Z * ThingArray.t) (x : ThingArray.thing) :
  grown (snd acc) (snd (ThingArray.scan_step acc x)).
Proof.
  destruct acc as [oidd out]. unfold ThingArray.scan_step.
  destruct (ThingArray.has_id oidd (ThingArray.thing_id x)); simpl;
    [apply grown_refl|].
  destruct (existsb (fun t => ThingArray.same t x) (ThingArray.items out)) eqn:E.
  - rewrite push_member by assumption. apply grown_refl.
  - rewrite push_fresh by assumption.
    exists [x], [ThingArray.EVENT_THING_NEW x; ThingArray.EVENT_THINGS_CHANGED].
    repeat split; reflexivity.
Qed.

Lemma fold_grown {A : Type}
    (f : gmap string Z * ThingArray.t -> A -> gmap string Z * ThingArray.t)
    (l : list A) (acc : gmap string Z * ThingArray.t) :
  (forall acc x, grown (snd acc) (snd (f acc x))) ->
  grown (snd acc) (snd (fold_left f l acc)).
Proof.
  intros Hf. revert acc. induction l as [|x l IH]; intros acc; simpl;
    [apply grown_refl|].
  eapply grown_trans; [apply Hf | apply IH].
Qed.

Lemma merger_scan_grown (srcs : list (list ThingArray.thing)) (out : ThingArray.t) :
  grown out (snd (ThingArray._merger_scan srcs out)).
Proof.
  unfold ThingArray._merger_scan.
  apply (fold_grown _ srcs (ThingArray.existing out, out)).
  intros acc src. apply fold_grown. apply scan_step_grown.
Qed.

Lemma filter_scan_grown (test : ThingArray.thing -> bool)
    (self_items : list ThingArray.thing) (out : ThingArray.t) :
  grown out (snd (ThingArray.filter_scan test self_items out)).
Proof.
  unfold ThingArray.filter_scan.
  apply (fold_grown _ self_items (ThingArray.existing out, out)).
  intros acc x. destruct (negb (test x)); [apply grown_refl | apply scan_step_grown].
Qed.

Lemma remove_old_emitted (rounds oi : nat) (oidd : gmap string Z) (out : ThingArray.t) :
  ThingArray.emitted (ThingArray.remove_old rounds oi oidd out) = ThingArray.emitted out.
Proof.
  revert oi out. induction rounds as [|rounds IH]; intros oi out; simpl;
    [reflexivity|].
  destruct (ThingArray.items out !! oi) as [o|]; [|reflexivity].
  destruct (negb _); rewrite IH; reflexivity.
Qed.

Lemma notified_after_scan (out scanned : ThingArray.t) (rounds : nat)
    (oidd : gmap string Z) :
  grown out scanned ->
  let out' := ThingArray.things_changed (ThingArray.remove_old rounds 0 oidd scanned) in
  exists added,
    ThingArray.items scanned = ThingArray.items out ++ added
    /\ ThingArray.emitted out' = ThingArray.emitted out ++ emitted_since out out'
    /\ count_events is_changed (emitted_since out out') = 1 + length added
    /\ count_events is_new (emitted_since out out') = length added
    /\ last (emitted_since out out') = Some ThingArray.EVENT_THINGS_CHANGED.
Proof.
  intros (added & evs & HI & HE & HC & HN) out'. exists added.
  assert (E : ThingArray.emitted out'
              = ThingArray.emitted out ++ (evs ++ [ThingArray.EVENT_THINGS_CHANGED])).
  { subst out'. simpl. rewrite remove_old_emitted, HE, <- app_assoc. reflexivity. }
  assert (S : emitted_since out out' = evs ++ [ThingArray.EVENT_THINGS_CHANGED]).
  { unfold emitted_since. rewrite E. apply drop_app_length. }
  rewrite S. split; [exact HI|]. split; [exact E|].
  unfold count_events in *. rewrite !List.filter_app, !length_app. simpl.
  repeat split; [lia | lia | apply last_snoc].
Qed.

(** C9, as the code has it.  Each time the listener of a merged or of
    a filtered array runs, the array emits [EVENT_THINGS_CHANGED] at
    least once, and as its last event, whether or not its elements
    change: once at the end, and once more for each thing that the
    run appends (whose [push] emits [EVENT_THING_NEW] and then
    [EVENT_THINGS_CHANGED]).  So it is emitted exactly once when the
    run appends nothing. *)
Theorem C9_things_changed_emitted (out : ThingArray.t) :
  (forall srcs : list (list ThingArray.thing),
      let out' := ThingArray.merge_on_things_changed srcs out in
      exists added,
        ThingArray.items (snd (ThingArray._merger_scan srcs out))
        = ThingArray.items out ++ added
        /\ ThingArray.emitted out' = ThingArray.emitted out ++ emitted_since out out'
        /\ count_events is_changed (emitted_since out out') = 1 + length added
        /\ count_events is_new (emitted_since out out') = length added
        /\ last (emitted_since out out') = Some ThingArray.EVENT_THINGS_CHANGED)
  /\ (forall (test : ThingArray.thing -> bool) (self_items : list ThingArray.thing),
        let out' := ThingArray.filter_on_things_changed test self_items out in
        exists added,
          ThingArray.items (snd (ThingArray.filter_scan test self_items out))
          = ThingArray.items out ++ added
          /\ ThingArray.emitted out' = ThingArray.emitted out ++ emitted_since out out'
          /\ count_events is_changed (emitted_since out out') = 1 + length added
          /\ count_events is_new (emitted_since out out') = length added
          /\ last (emitted_since out out') = Some ThingArray.EVENT_THINGS_CHANGED).
Proof.
  split.
  - intros srcs. unfold ThingArray.merge_on_things_changed, ThingArray._merger.
    pose proof (merger_scan_grown srcs out) as G.
    destruct (ThingArray._merger_scan srcs out) as [oidd scanned]. simpl in G.
    apply notified_after_scan, G.
  - intros test self_items. unfold ThingArray.filter_on_things_changed.
    pose proof (filter_scan_grown test self_items out) as G.
    destruct (ThingArray.filter_scan test self_items out) as [oidd scanned].
    simpl in G. apply notified_after_scan, G.
Qed.

(** The claim C9 as the specification words it fails: when the source
    of a filter gains a thing that passes the test, the filtered array
    emits [EVENT_THINGS_CHANGED] twice in one run of its listener. *)
Lemma C9_exactly_once_counterexample :
  let x := ThingArray.MkThing 1 "urn:iotdb:thing:hue:1" in
  let out := ThingArray.create true in
  let out' := ThingArray.filter_on_things_changed (fun _ => true) [x] out in
  emitted_since out out'
  = [ThingArray.EVENT_THING_NEW x; ThingArray.EVENT_THINGS_CHANGED;
     ThingArray.EVENT_THINGS_CHANGED]
  /\ count_events is_changed (emitted_since out out') = 2
  /\ count_events is_changed (emitted_since out out') <> 1.
Proof.
  intros x out out'. split; [reflexivity|]. split; [reflexivity|].
  vm_compute. discriminate.
Qed.

(** * Further properties of ThingArrays *)

(** ** The loop that removes *)

Lemma remove_old_eq (rounds oi : nat) (oidd : gmap string Z) (out : ThingArray.t) :
  length (ThingArray.items out) <= rounds + oi ->
  ThingArray.remove_old rounds oi oidd out =
  ThingArray.with_items
    (take oi (ThingArray.items out)
     ++ List.filter (fun o => negb (left_over oidd o)) (drop oi (ThingArray.items out)))
    out.
Proof.
  revert oi out. induction rounds as [|rounds IH]; intros oi out Hlen; simpl.
  - rewrite take_ge, drop_ge by lia. simpl. rewrite app_nil_r.
    destruct out; reflexivity.
  - destruct (ThingArray.items out !! oi) as [o|] eqn:E.
    + pose proof (lookup_lt_Some _ _ _ E) as Hlt.
      rewrite (drop_S _ _ _ E). simpl. unfold left_over at 1.
      destruct (ThingArray.has_id oidd (ThingArray.thing_id o)) eqn:Eh; simpl.
      * rewrite IH.
        2:{ simpl. rewrite length_app, length_take, length_drop. lia. }
        unfold ThingArray.splice, ThingArray.with_items. simpl. f_equal.
        rewrite take_app_length' by (rewrite length_take; lia).
        rewrite drop_app_length' by (rewrite length_take; lia).
        replace (oi + 1) with (S oi) by lia. reflexivity.
      * rewrite IH by lia. rewrite (take_S_r _ _ _ E).
        rewrite <- app_assoc. reflexivity.
    + apply lookup_ge_None in E.
      rewrite take_ge, drop_ge by lia. simpl. rewrite app_nil_r.
      destruct out; reflexivity.
Qed.

(** X1.  The loop of [_merger] and of the listener of [filter] that
    removes with [splice(oi--, 1)] keeps exactly the things whose id
    is not left in [oidd], in their order, and touches nothing else of
    the array: no event, no recorded command, no call. *)
Theorem merger_removes_left_over (oidd : gmap string Z) (out : ThingArray.t) :
  ThingArray.remove_old (length (ThingArray.items out)) 0 oidd out =
  ThingArray.with_items
    (List.filter (fun o => negb (left_over oidd o)) (ThingArray.items out)) out.
Proof. rewrite remove_old_eq by lia. reflexivity. Qed.

(** ** A run of pushes *)

Lemma push_all_eq (p : ThingArray.push_paramd) (l : list ThingArray.thing)
    (out : ThingArray.t) :
  fold_left (fun s x => ThingArray.push x p s) l out =
  let added := first_occurrences (ThingArray.items out) l in
  ThingArray.Make (ThingArray.items out ++ added) (ThingArray._persistds out)
    (ThingArray.emitted out ++ flat_map (fun x => push_events x p) added)
    (ThingArray.applied out ++ flat_map (fun x => replayed x out) added).
Proof.
  revert out. induction l as [|x l IH]; intros out; simpl.
  - rewrite !app_nil_r. destruct out; reflexivity.
  - destruct (existsb (fun t => ThingArray.same t x) (ThingArray.items out)) eqn:E.
    + rewrite push_member by assumption. apply IH.
    + rewrite IH. rewrite push_fresh by assumption. simpl.
      rewrite <- !app_assoc. simpl.
      reflexivity.
Qed.

Lemma first_occurrences_In (seen l : list ThingArray.thing) (x : ThingArray.thing) :
  In x (first_occurrences seen l) -> In x l.
Proof.
  revert seen. induction l as [|y l IH]; intros seen Hin; simpl in *; [assumption|].
  destruct (existsb _ seen).
  - right. eapply IH, Hin.
  - destruct Hin as [-> | Hin]; [left; reflexivity | right; eapply IH, Hin].
Qed.

Lemma not_member_oid (x : ThingArray.thing) (l : list ThingArray.thing) :
  existsb (fun t => ThingArray.same t x) l = false <->
  ~ In (ThingArray.oid x) (List.map ThingArray.oid l).
Proof.
  induction l as [|y l IH]; simpl; [tauto|].
  rewrite orb_false_iff, IH. unfold ThingArray.same. rewrite Nat.eqb_neq. tauto.
Qed.

Lemma first_occurrences_distinct (seen l : list ThingArray.thing) :
  distinct seen -> distinct (seen ++ first_occurrences seen l).
Proof.
  revert seen. induction l as [|x l IH]; intros seen Hd; simpl.
  - rewrite app_nil_r. exact Hd.
  - destruct (existsb (fun t => ThingArray.same t x) seen) eqn:E; [apply IH, Hd|].
    change (x :: first_occurrences (seen ++ [x]) l)
      with ([x] ++ first_occurrences (seen ++ [x]) l).
    rewrite app_assoc. apply IH. unfold distinct in *.
    rewrite List.map_app. simpl.
    apply List.NoDup_app; [exact Hd | repeat constructor; intros [] |].
    intros o Ho [<- | []]. apply not_member_oid in E. exact (E Ho).
Qed.

Lemma first_occurrences_member (seen l : list ThingArray.thing) (x : ThingArray.thing) :
  In x l ->
  existsb (fun t => ThingArray.same t x) (seen ++ first_occurrences seen l) = true.
Proof.
  revert seen. induction l as [|y l IH]; intros seen Hin; simpl in *; [destruct Hin|].
  destruct (existsb (fun t => ThingArray.same t y) seen) eqn:E.
  - destruct Hin as [-> | Hin]; [|apply IH, Hin].
    rewrite existsb_app, E. reflexivity.
  - change (y :: first_occurrences (seen ++ [y]) l)
      with ([y] ++ first_occurrences (seen ++ [y]) l).
    rewrite app_assoc. destruct Hin as [-> | Hin]; [|apply IH, Hin].
    rewrite !existsb_app. simpl. unfold ThingArray.same at 2.
    rewrite Nat.eqb_refl. simpl. rewrite orb_true_r. reflexivity.
Qed.

Lemma first_occurrences_all (seen l : list ThingArray.thing) :
  distinct (seen ++ l) -> first_occurrences seen l = l.
Proof.
  revert seen. induction l as [|x l IH]; intros seen Hd; simpl; [reflexivity|].
  assert (E : existsb (fun t => ThingArray.same t x) seen = false).
  { apply not_member_oid. unfold distinct in Hd. rewrite List.map_app in Hd.
    simpl in Hd. apply List.NoDup_remove_2 in Hd. intros Hin. apply Hd.
    apply List.in_or_app. left. exact Hin. }
  rewrite E. f_equal. apply IH.
  rewrite <- app_assoc. exact Hd.
Qed.

Lemma filter_fold_eq (test : ThingArray.thing -> bool) (p : ThingArray.push_paramd)
    (l : list ThingArray.thing) (out : ThingArray.t) :
  fold_left
    (fun out_items x => if test x then ThingArray.push x p out_items else out_items)
    l out
  = fold_left (fun s x => ThingArray.push x p s) (List.filter test l) out.
Proof.
  revert out. induction l as [|x l IH]; intros out; simpl; [reflexivity|].
  destruct (test x); simpl; apply IH.
Qed.

Lemma distinct_filter (test : ThingArray.thing -> bool) (l : list ThingArray.thing) :
  distinct l -> distinct (List.filter test l).
Proof.
  unfold distinct. induction l as [|x l IH]; simpl; intros Hd; [constructor|].
  apply List.NoDup_cons_iff in Hd as [Hx Hd].
  destruct (test x); simpl; [|apply IH, Hd].
  constructor; [|apply IH, Hd].
  intros Hin. apply Hx. apply List.in_map_iff in Hin as (y & Ey & Hy).
  apply List.filter_In in Hy as [Hy _]. apply List.in_map_iff. exists y. tauto.
Qed.

(** X2.  The array that [filter] returns for a source that holds no
    object twice: the things of the source that pass the test, in
    their order, each announced by [EVENT_THING_PUSHED],
    [EVENT_THING_NEW] and [EVENT_THINGS_CHANGED]; it persists iff the
    source does, and starts with an empty log: the commands recorded
    on the source are not replayed on it. *)
Theorem filter_initial_contents (test : ThingArray.thing -> bool)
    (self : ThingArray.t) :
  distinct (ThingArray.items self) ->
  ThingArray.filter test self =
  ThingArray.Make (List.filter test (ThingArray.items self))
    (if ThingArray.is_persist self then Some [] else None)
    (flat_map pushed_events (List.filter test (ThingArray.items self)))
    [].
Proof.
  intros Hd. unfold ThingArray.filter. rewrite filter_fold_eq, push_all_eq.
  cbn -[first_occurrences replayed push_events].
  rewrite first_occurrences_all by (apply distinct_filter, Hd).
  assert (Hr : forall b l,
             flat_map (fun x => replayed x (ThingArray.create b)) l = []).
  { intros b l. induction l as [|x l IH]; simpl; [reflexivity|].
    rewrite IH. destruct b; reflexivity. }
  rewrite Hr. destruct (ThingArray.is_persist self); reflexivity.
Qed.

Lemma filter_initial_contents_witness :
  let a := ThingArray.MkThing 1 "urn:iotdb:thing:hue:1" in
  let b := ThingArray.MkThing 2 "urn:iotdb:thing:wemo:2" in
  let self :=
    fst (ThingArray.run (ThingArray.Set_ [ArgValueOn])
           (ThingArray.Make [a; b] (Some []) [] [])) in
  ThingArray.filter (fun x => String.prefix "urn:iotdb:thing:wemo" (ThingArray.thing_id x))
    self
  = ThingArray.Make [b] (Some []) (pushed_events b) [].
Proof.
  intros a b self.
  apply (filter_initial_contents
           (fun x => String.prefix "urn:iotdb:thing:wemo" (ThingArray.thing_id x)) self).
  repeat constructor; simpl; intuition discriminate.
Defined.

(** ** merge *)

Lemma scan_nothing_known (l : list ThingArray.thing) (out : ThingArray.t) :
  fold_left ThingArray.scan_step l (∅, out) =
  (∅, fold_left (fun s x => ThingArray.push x (ThingArray.PushParamd (Some false) None) s)
        l out).
Proof.
  revert out. induction l as [|x l IH]; intros out; simpl; [reflexivity|].
  unfold ThingArray.has_id. rewrite lookup_empty. apply IH.
Qed.

Lemma scan_concat (srcs : list (list ThingArray.thing))
    (acc : gmap string Z * ThingArray.t) :
  fold_left (fun acc src => fold_left ThingArray.scan_step src acc) srcs acc
  = fold_left ThingArray.scan_step (concat srcs) acc.
Proof.
  revert acc. induction srcs as [|src srcs IH]; intros acc; simpl; [reflexivity|].
  rewrite fold_left_app. apply IH.
Qed.

(** X3.  The array that [merge] returns holds the things of the two
    arrays, those of the first one first, each object once: a thing
    is added unless the same object is already there.  It persists,
    with an empty log and no call made; each thing added is announced
    by [EVENT_THING_NEW] and [EVENT_THINGS_CHANGED], and one more
    [EVENT_THINGS_CHANGED] ends the merge. *)
Theorem merge_holds_both (self new_items : ThingArray.t) :
  let both := ThingArray.items self ++ ThingArray.items new_items in
  let merged := ThingArray.merge self new_items in
  ThingArray.items merged = first_occurrences [] both
  /\ distinct (ThingArray.items merged)
  /\ (forall x, In x (ThingArray.items merged) -> In x both)
  /\ (forall x, In x both ->
        existsb (fun t => ThingArray.same t x) (ThingArray.items merged) = true)
  /\ (distinct both -> ThingArray.items merged = both)
  /\ ThingArray._persistds merged = Some []
  /\ ThingArray.applied merged = []
  /\ ThingArray.emitted merged =
     flat_map (fun x => [ThingArray.EVENT_THING_NEW x; ThingArray.EVENT_THINGS_CHANGED])
       (ThingArray.items merged)
     ++ [ThingArray.EVENT_THINGS_CHANGED].
Proof.
  intros both merged.
  assert (E : merged =
              ThingArray.Make (first_occurrences [] both) (Some [])
                (flat_map (fun x => [ThingArray.EVENT_THING_NEW x;
                                     ThingArray.EVENT_THINGS_CHANGED])
                   (first_occurrences [] both)
                 ++ [ThingArray.EVENT_THINGS_CHANGED]) []).
  { subst merged both. unfold ThingArray.merge, ThingArray._merger,
      ThingArray._merger_scan.
    rewrite scan_concat. simpl concat. rewrite app_nil_r.
    change (ThingArray.existing (ThingArray.create true)) with (∅ : gmap string Z).
    rewrite scan_nothing_known, remove_old_nothing, push_all_eq.
    cbn -[first_occurrences].
    generalize (first_occurrences []
                  (ThingArray.items self ++ ThingArray.items new_items)).
    intros l. unfold ThingArray.things_changed, ThingArray.emit. simpl. f_equal.
    induction l as [|x l IH]; simpl; [reflexivity|]. exact IH. }
  rewrite E. simpl.
  split; [reflexivity|].
  split; [apply (first_occurrences_distinct [] both); constructor|].
  split; [intros x; apply first_occurrences_In|].
  split; [intros x; apply (first_occurrences_member [] both)|].
  split; [intros Hd; apply first_occurrences_all; exact Hd|].
  repeat split.
Qed.

Lemma merge_holds_both_witness :
  let a := ThingArray.MkThing 1 "urn:iotdb:thing:hue:1" in
  let b := ThingArray.MkThing 2 "urn:iotdb:thing:wemo:2" in
  ThingArray.items
    (ThingArray.merge (ThingArray.Make [a] None [] []) (ThingArray.Make [b] None [] []))
  = [a; b].
Proof.
  intros a b.
  apply (proj1 (proj2 (proj2 (proj2 (proj2
           (merge_holds_both (ThingArray.Make [a] None [] [])
                             (ThingArray.Make [b] None [] []))))))).
  repeat constructor; simpl; intuition discriminate.
Defined.

(** ** What an array never does *)

Lemma apply_command_eq (f : string) (av : list ThingArray.arg) (self : ThingArray.t) :
  ThingArray._apply_command f av self =
  ThingArray.Make (ThingArray.items self) (ThingArray._persistds self)
    (ThingArray.emitted self)
    (ThingArray.applied self ++ calls_on (ThingArray.items self) f av).
Proof.
  assert (Hf : forall l s,
             fold_left (fun s x => ThingArray.apply x (ThingArray.MkPersistd f av None) s)
               l s
             = ThingArray.Make (ThingArray.items s) (ThingArray._persistds s)
                 (ThingArray.emitted s) (ThingArray.applied s ++ calls_on l f av)).
  { induction l as [|x l IH]; intros s; simpl.
    - rewrite app_nil_r. destruct s; reflexivity.
    - rewrite IH. simpl. rewrite <- app_assoc. reflexivity. }
  apply Hf.
Qed.

Lemma run_items (c : ThingArray.bulk) (self : ThingArray.t) :
  ThingArray.items (fst (ThingArray.run c self)) = ThingArray.items self.
Proof.
  assert (Hc : forall f av k,
             ThingArray.items (ThingArray.command f av k self) = ThingArray.items self).
  { intros f av k. unfold ThingArray.command. rewrite apply_command_eq.
    unfold ThingArray._persist_command. simpl.
    destruct (ThingArray._persistds self); reflexivity. }
  destruct c; simpl; try apply Hc.
  - destruct self as [[|x l] log evs calls]; [apply Hc | reflexivity].
  - destruct (_ || _); simpl; [reflexivity | apply Hc].
Qed.



(** ** No object twice *)

Lemma distinct_app_fresh (l : list ThingArray.thing) (x : ThingArray.thing) :
  distinct l -> existsb (fun t => ThingArray.same t x) l = false ->
  distinct (l ++ [x]).
Proof.
  intros Hd E. unfold distinct in *. rewrite List.map_app. simpl.
  apply List.NoDup_app; [exact Hd | repeat constructor; intros [] |].
  intros o Ho [<- | []]. apply not_member_oid in E. exact (E Ho).
Qed.

Lemma push_distinct (x : ThingArray.thing) (p : ThingArray.push_paramd)
    (self : ThingArray.t) :
  distinct (ThingArray.items self) ->
  distinct (ThingArray.items (ThingArray.push x p self)).
Proof.
  intros Hd.
  destruct (existsb (fun t => ThingArray.same t x) (ThingArray.items self)) eqn:E.
  - rewrite push_member by assumption. exact Hd.
  - rewrite push_fresh by assumption. simpl. apply distinct_app_fresh; assumption.
Qed.

Lemma distinct_app_inv (l1 l2 l3 : list ThingArray.thing) :
  distinct (l1 ++ l2 ++ l3) -> distinct (l1 ++ l3).
Proof.
  unfold distinct. rewrite !List.map_app.
  induction (List.map ThingArray.oid l2) as [|o l IH]; simpl; [tauto|].
  intros Hd. apply IH. eapply List.NoDup_remove_1, Hd.
Qed.

Lemma splice_distinct (index howmany : nat) (self : ThingArray.t) :
  distinct (ThingArray.items self) ->
  distinct (ThingArray.items (ThingArray.splice index howmany self)).
Proof.
  intros Hd. simpl. apply (distinct_app_inv _ (take howmany (drop index (ThingArray.items self)))).
  rewrite <- drop_drop, take_drop, take_drop. exact Hd.
Qed.

Lemma scan_step_distinct (acc : gmap string Z * ThingArray.t) (x : ThingArray.thing) :
  distinct (ThingArray.items (snd acc)) ->
  distinct (ThingArray.items (snd (ThingArray.scan_step acc x))).
Proof.
  destruct acc as [oidd out]. unfold ThingArray.scan_step.
  destruct (ThingArray.has_id oidd (ThingArray.thing_id x)); simpl;
    [tauto | apply push_distinct].
Qed.

Lemma scan_distinct (l : list ThingArray.thing) (acc : gmap string Z * ThingArray.t) :
  distinct (ThingArray.items (snd acc)) ->
  distinct (ThingArray.items (snd (fold_left ThingArray.scan_step l acc))).
Proof.
  revert acc. induction l as [|x l IH]; intros acc Hd; simpl; [exact Hd|].
  apply IH, scan_step_distinct, Hd.
Qed.

Lemma reconciled_distinct (l : list ThingArray.thing) (out : ThingArray.t) :
  distinct (ThingArray.items out) ->
  let '(oidd, scanned) :=
    fold_left ThingArray.scan_step l (ThingArray.existing out, out) in
  distinct
    (ThingArray.items
       (ThingArray.things_changed
          (ThingArray.remove_old (length (ThingArray.items scanned)) 0 oidd scanned))).
Proof.
  intros Hd.
  pose proof (scan_distinct l (ThingArray.existing out, out) Hd) as Hs.
  destruct (fold_left _ l _) as [oidd scanned]. simpl in Hs.
  rewrite remove_old_eq by lia. simpl. apply distinct_filter, Hs.
Qed.

Lemma call_on_distinct (c : ThingArray.call) (self : ThingArray.t) :
  distinct (ThingArray.items self) ->
  distinct (ThingArray.items (ThingArray.call_on c self)).
Proof.
  intros Hd. destruct c as [c|x p|index howmany|srcs|test self_items]; simpl.
  - rewrite run_items. exact Hd.
  - apply push_distinct, Hd.
  - apply splice_distinct, Hd.
  - unfold ThingArray.merge_on_things_changed, ThingArray._merger,
      ThingArray._merger_scan. rewrite scan_concat.
    pose proof (reconciled_distinct (concat srcs) self Hd) as Hr.
    destruct (fold_left _ (concat srcs) _). exact Hr.
  - unfold ThingArray.filter_on_things_changed, ThingArray.filter_scan.
    rewrite filter_scan_eq.
    pose proof (reconciled_distinct (List.filter test self_items) self Hd) as Hr.
    destruct (fold_left _ (List.filter test self_items) _). exact Hr.
Qed.

(** X5.  An array never holds the same object twice: whatever is
    pushed, spliced, commanded or reconciled by the listeners of
    [merge] and [filter], in any order, the objects of a new array
    are distinct; so are those of an array that [filter] returns. *)
Theorem no_object_twice (persist : bool) (cs : list ThingArray.call) :
  distinct (ThingArray.items (ThingArray.history cs (ThingArray.create persist)))
  /\ (forall (test : ThingArray.thing -> bool) (self : ThingArray.t),
        distinct (ThingArray.items
                    (ThingArray.history cs (ThingArray.filter test self)))).
Proof.
  assert (Hh : forall self, distinct (ThingArray.items self) ->
                 distinct (ThingArray.items (ThingArray.history cs self))).
  { unfold ThingArray.history. induction cs as [|c cs IH]; intros self Hd; simpl;
      [exact Hd|]. apply IH, call_on_distinct, Hd. }
  split.
  - apply Hh. constructor.
  - intros test self. apply Hh. unfold ThingArray.filter.
    rewrite filter_fold_eq, push_all_eq. simpl.
    apply (first_occurrences_distinct []). constructor.
Qed.

(** ** The ids of a reconciled array *)

Lemma existing_has (l : list ThingArray.thing) (m : gmap string Z) (k : string) :
  In k (ids l) ->
  fold_left (fun oidd o => <[ThingArray.thing_id o := 1%Z]> oidd) l m !! k = Some 1%Z.
Proof.
  assert (Hk : forall (l : list ThingArray.thing) (m : gmap string Z),
             m !! k = Some 1%Z ->
             fold_left (fun oidd o => <[ThingArray.thing_id o := 1%Z]> oidd) l m !! k
             = Some 1%Z).
  { clear l m. induction l as [|o l IH]; intros m Hm; simpl; [exact Hm|].
    apply IH. destruct (decide (ThingArray.thing_id o = k)) as [<-|Hne].
    - apply lookup_insert_eq.
    - rewrite lookup_insert_ne by assumption. exact Hm. }
  revert m. induction l as [|o l IH]; intros m Hin; simpl in *; [destruct Hin|].
  destruct Hin as [<- | Hin]; [|apply IH, Hin].
  apply Hk, lookup_insert_eq.
Qed.

Lemma scan_start (out : ThingArray.t) :
  scanned_so_far (ThingArray.items out) [] (ThingArray.existing out, out).
Proof.
  split; [apply existing_ids|]. split; [|split].
  - intros k Hin Hn. simpl in Hn. unfold ThingArray.existing in Hn.
    rewrite (existing_has _ _ _ Hin) in Hn. discriminate.
  - exists []. rewrite app_nil_r. split; [reflexivity | intros x []].
  - intros x [].
Qed.

Lemma scan_step_so_far (held total seen : list ThingArray.thing)
    (acc : gmap string Z * ThingArray.t) (x : ThingArray.thing) :
  coherent (held ++ total) ->
  (forall y, In y (seen ++ [x]) -> In y total) ->
  scanned_so_far held seen acc ->
  scanned_so_far held (seen ++ [x]) (ThingArray.scan_step acc x).
Proof.
  intros Hco Hsub (I1 & I2 & (added & I3 & I3') & I4).
  destruct acc as [oidd cur]. simpl in *. unfold ThingArray.scan_step.
  destruct (ThingArray.has_id oidd (ThingArray.thing_id x)) eqn:Eh.
  - (* the id is known: confirmed *)
    assert (Hx : In (ThingArray.thing_id x) (ids held)).
    { unfold ThingArray.has_id in Eh.
      destruct (oidd !! ThingArray.thing_id x) as [v|] eqn:E; [|discriminate].
      exact (proj2 (I1 _ _ E)). }
    split; [|split; [|split]]; simpl.
    + intros k v Hk.
      destruct (decide (ThingArray.thing_id x = k)) as [<-|Hne].
      * rewrite lookup_delete_eq in Hk. discriminate.
      * rewrite lookup_delete_ne in Hk by assumption. exact (I1 k v Hk).
    + intros k Hin Hn. unfold ids. rewrite List.map_app. apply List.in_or_app.
      destruct (decide (ThingArray.thing_id x = k)) as [<-|Hne];
        [right; left; reflexivity|].
      rewrite lookup_delete_ne in Hn by assumption. left. exact (I2 k Hin Hn).
    + exists added. split; [exact I3|].
      intros y Hy. apply List.in_or_app. left. exact (I3' y Hy).
    + assert (Hd : forall y, left_over oidd y = false \/ y = x ->
                     left_over (delete (ThingArray.thing_id x) oidd) y = false).
      { intros y Hy. unfold left_over, ThingArray.has_id in *.
        destruct (decide (ThingArray.thing_id x = ThingArray.thing_id y)) as [E|Hne].
        - rewrite <- E, lookup_delete_eq. reflexivity.
        - rewrite lookup_delete_ne by assumption.
          destruct Hy as [Hy | ->]; [exact Hy | congruence]. }
      intros y Hy. apply List.in_app_or in Hy as [Hy | [<- | []]].
      * destruct (I4 y Hy) as [Hl Hi]. split; [apply Hd; left; exact Hl | exact Hi].
      * split; [apply Hd; right; reflexivity|].
        rewrite I3. unfold ids. rewrite List.map_app. apply List.in_or_app.
        left. exact Hx.
  - (* the id is not known: pushed *)
    destruct (existsb (fun t => ThingArray.same t x) (ThingArray.items cur)) eqn:Em.
    + rewrite push_member by assumption.
      split; [exact I1|]. split; [|split]; simpl.
      * intros k Hin Hn. unfold ids. rewrite List.map_app. apply List.in_or_app.
        left. exact (I2 k Hin Hn).
      * exists added. split; [exact I3|].
        intros y Hy. apply List.in_or_app. left. exact (I3' y Hy).
      * intros y Hy. apply List.in_app_or in Hy as [Hy | [<- | []]];
          [exact (I4 y Hy)|].
        split; [exact Eh|].
        apply existsb_exists in Em as (t & Ht & Es). apply Nat.eqb_eq in Es.
        assert (t = x) as <-.
        { apply Hco; [| |exact Es].
          - rewrite I3 in Ht. apply List.in_app_or in Ht as [Ht | Ht];
              apply List.in_or_app; [left; exact Ht|].
            right. apply Hsub. apply List.in_or_app. left. exact (I3' t Ht).
          - apply List.in_or_app. right. apply Hsub.
            apply List.in_or_app. right. left. reflexivity. }
        apply List.in_map, Ht.
    + rewrite push_fresh by assumption.
      split; [exact I1|]. split; [|split]; simpl.
      * intros k Hin Hn. unfold ids. rewrite List.map_app. apply List.in_or_app.
        left. exact (I2 k Hin Hn).
      * exists (added ++ [x]). rewrite I3, app_assoc. split; [reflexivity|].
        intros y Hy. apply List.in_or_app.
        apply List.in_app_or in Hy as [Hy | Hy]; [left; exact (I3' y Hy) | right; exact Hy].
      * intros y Hy. unfold ids. rewrite List.map_app.
        apply List.in_app_or in Hy as [Hy | [<- | []]].
        -- destruct (I4 y Hy) as [Hl Hi]. split; [exact Hl|].
           apply List.in_or_app. left. exact Hi.
        -- split; [exact Eh|]. apply List.in_or_app. right. left. reflexivity.
Qed.

Lemma scan_so_far (held total l seen : list ThingArray.thing)
    (acc : gmap string Z * ThingArray.t) :
  coherent (held ++ total) ->
  (forall y, In y (seen ++ l) -> In y total) ->
  scanned_so_far held seen acc ->
  scanned_so_far held (seen ++ l) (fold_left ThingArray.scan_step l acc).
Proof.
  intros Hco. revert seen acc. induction l as [|x l IH]; intros seen acc Hsub Hs; simpl.
  - rewrite app_nil_r. exact Hs.
  - change (x :: l) with ([x] ++ l) in *. rewrite app_assoc in *.
    apply IH; [exact Hsub|].
    apply (scan_step_so_far held total); [exact Hco | | exact Hs].
    intros y Hy. apply Hsub. apply List.in_or_app. left. exact Hy.
Qed.

Lemma reconciled_ids (l : list ThingArray.thing) (out : ThingArray.t) :
  coherent (ThingArray.items out ++ l) ->
  let '(oidd, scanned) :=
    fold_left ThingArray.scan_step l (ThingArray.existing out, out) in
  forall k,
    In k (ids (ThingArray.items
                 (ThingArray.things_changed
                    (ThingArray.remove_old (length (ThingArray.items scanned)) 0
                       oidd scanned))))
    <-> In k (ids l).
Proof.
  intros Hco.
  pose proof (scan_so_far (ThingArray.items out) l l [] _ Hco (fun y Hy => Hy)
                (scan_start out)) as (I1 & I2 & (added & I3 & I3') & I4).
  destruct (fold_left _ l _) as [oidd scanned]. simpl in *.
  intros k. rewrite remove_old_eq by lia. simpl. unfold ids. split.
  - intros Hin. apply List.in_map_iff in Hin as (t & <- & Ht).
    apply List.filter_In in Ht as [Ht Hl]. apply negb_true_iff in Hl.
    rewrite I3 in Ht. apply List.in_app_or in Ht as [Ht | Ht].
    + apply I2; [apply List.in_map, Ht|].
      unfold left_over, ThingArray.has_id in Hl.
      destruct (oidd !! ThingArray.thing_id t) as [v|] eqn:E; [|reflexivity].
      destruct (I1 _ _ E) as [-> _]. discriminate.
    + apply List.in_map, I3', Ht.
  - intros Hin. apply List.in_map_iff in Hin as (x & <- & Hx).
    destruct (I4 x Hx) as [Hl Hi].
    apply List.in_map_iff in Hi as (t & Et & Ht).
    apply List.in_map_iff. exists t. split; [exact Et|].
    apply List.filter_In. split; [exact Ht|].
    unfold left_over in *. rewrite Et, Hl. reflexivity.
Qed.

Lemma coherent_filter (test : ThingArray.thing -> bool)
    (held l : list ThingArray.thing) :
  coherent (held ++ l) -> coherent (held ++ List.filter test l).
Proof.
  intros Hco a b Ha Hb. apply Hco.
  - apply List.in_app_or in Ha as [Ha | Ha]; apply List.in_or_app; [left; exact Ha|].
    right. apply List.filter_In in Ha. tauto.
  - apply List.in_app_or in Hb as [Hb | Hb]; apply List.in_or_app; [left; exact Hb|].
    right. apply List.filter_In in Hb. tauto.
Qed.

(** X6.  What a run of [_merger] reconciles: afterwards the ids of the
    things of the derived array are exactly the ids of the things of
    the sources.  A thing whose id has left the sources is removed,
    a thing with an id that is new is added.  Likewise the listener
    of [filter] leaves exactly the ids of the things of the source
    that pass the test. *)
Theorem reconciled_to_sources (out : ThingArray.t) :
  (forall srcs : list (list ThingArray.thing),
      coherent (ThingArray.items out ++ concat srcs) ->
      forall id,
        In id (ids (ThingArray.items (ThingArray._merger srcs out)))
        <-> In id (ids (concat srcs)))
  /\ (forall (test : ThingArray.thing -> bool) (self_items : list ThingArray.thing),
        coherent (ThingArray.items out ++ self_items) ->
        forall id,
          In id (ids (ThingArray.items
                        (ThingArray.filter_on_things_changed test self_items out)))
          <-> In id (ids (List.filter test self_items))).
Proof.
  split.
  - intros srcs Hco. unfold ThingArray._merger, ThingArray._merger_scan.
    rewrite scan_concat.
    pose proof (reconciled_ids (concat srcs) out Hco) as Hr.
    destruct (fold_left _ (concat srcs) _). exact Hr.
  - intros test self_items Hco.
    unfold ThingArray.filter_on_things_changed, ThingArray.filter_scan.
    rewrite filter_scan_eq.
    pose proof (reconciled_ids (List.filter test self_items) out
                  (coherent_filter test _ _ Hco)) as Hr.
    destruct (fold_left _ (List.filter test self_items) _). exact Hr.
Qed.

Lemma reconciled_to_sources_witness :
  let a := ThingArray.MkThing 1 "urn:iotdb:thing:hue:1" in
  let b := ThingArray.MkThing 2 "urn:iotdb:thing:wemo:2" in
  let c := ThingArray.MkThing 3 "urn:iotdb:thing:lifx:3" in
  let out := ThingArray.Make [a; b] (Some []) [] [] in
  In "urn:iotdb:thing:hue:1"
    (ids (ThingArray.items (ThingArray._merger [[b]; [c]] out)))
  <-> In "urn:iotdb:thing:hue:1" (ids [b; c]).
Proof.
  intros a b c out.
  apply (proj1 (reconciled_to_sources out) [[b]; [c]]).
  intros x y Hx Hy E. simpl in Hx, Hy.
  destruct Hx as [<- | [<- | [<- | [<- | []]]]];
    destruct Hy as [<- | [<- | [<- | [<- | []]]]];
    solve [reflexivity | discriminate E].
Defined.

(** ** The test of a filter *)

Lemma strip_prefix_Some (p s r : string) :
  ThingArray.strip_prefix p s = Some r -> s = String.append p r.
Proof.
  revert s. induction p as [|a p IH]; intros [|b s]; simpl; try discriminate.
  - intros [= <-]. reflexivity.
  - intros [= <-]. reflexivity.
  - destruct (Ascii.eqb a b) eqn:E; [|discriminate].
    apply Ascii.eqb_eq in E as ->. intros Hs. rewrite (IH _ Hs). reflexivity.
Qed.

Lemma match_band_Some (query_key band b inner : string) :
  ThingArray.match_band query_key band = Some (b, inner) ->
  b = band /\ query_key = String.append band (String.append ":" inner).
Proof.
  unfold ThingArray.match_band.
  destruct (ThingArray.strip_prefix _ query_key) as [r|] eqn:E; [|discriminate].
  destruct (ThingArray.dot_plus r); [|discriminate].
  intros [= <- <-]. split; [reflexivity|].
  apply strip_prefix_Some in E. rewrite E.
  clear E. induction band as [|c band IH]; [reflexivity|].
  change (String c (String.append (String.append band ":") r)
          = String c (String.append band (String.append ":" r))).
  rewrite IH. reflexivity.
Qed.

Lemma query_match_Some (query_key band inner : string) :
  ThingArray.query_match query_key = Some (band, inner) ->
  In band ["meta"; "model"; "istate"; "ostate"; "transient"]
  /\ query_key = String.append band (String.append ":" inner).
Proof.
  unfold ThingArray.query_match. simpl.
  repeat match goal with
  | |- context [ThingArray.match_band query_key ?b] =>
      let E := fresh "E" in
      destruct (ThingArray.match_band query_key b) as [[b' i']|] eqn:E;
      [apply match_band_Some in E as [-> ->]; intros [= <- <-];
       split; [simpl; tauto | reflexivity] |]
  end.
  discriminate.
Qed.

(** X7.  A query of [filter] can only ask for metadata and for tags:
    a key that is not ["meta:"] followed by an inner key, and is not
    ["transient:tag"], makes [_filter_test] answer [false] for every
    thing, whatever the other keys of the query are, so the filtered
    array is empty; the bands ["istate"], ["ostate"] and ["model"]
    are among those.  The empty query lets every thing pass. *)
Theorem filter_test_bands
    (meta_intersects : ThingArray.thing -> string -> pval -> bool)
    (tag_intersects : ThingArray.thing -> pval -> bool)
    (queryd : list (string * pval)) :
  (forall query_key query_values,
      In (query_key, query_values) queryd ->
      (forall inner, query_key <> String.append "meta:" inner) ->
      query_key <> "transient:tag" ->
      (forall x,
          ThingArray._filter_test meta_intersects tag_intersects queryd x = false)
      /\ (forall self,
            ThingArray.filter
              (ThingArray._filter_test meta_intersects tag_intersects queryd) self
            = ThingArray.create (ThingArray.is_persist self)))
  /\ (forall x, ThingArray._filter_test meta_intersects tag_intersects [] x = true).
Proof.
  split; [|reflexivity].
  intros query_key query_values Hin Hmeta Htag.
  assert (Hf : forall x,
             ThingArray._filter_test meta_intersects tag_intersects queryd x = false).
  { intros x. unfold ThingArray._filter_test.
    apply not_true_is_false. intros Hall.
    rewrite forallb_forall in Hall. specialize (Hall _ Hin).
    unfold ThingArray.query_test in Hall.
    destruct (ThingArray.query_match query_key) as [[band inner]|] eqn:E;
      [|discriminate].
    apply query_match_Some in E as [Hb ->].
    simpl in Hb.
    destruct Hb as [<- | [<- | [<- | [<- | [<- | []]]]]]; simpl in Hall;
      try discriminate.
    - exact (Hmeta inner eq_refl).
    - destruct (String.eqb inner "tag") eqn:Et; [|discriminate].
      apply String.eqb_eq in Et as ->. exact (Htag eq_refl). }
  split; [exact Hf|].
  intros self. unfold ThingArray.filter.
  induction (ThingArray.items self) as [|x l IH] in |- * using rev_ind;
    [reflexivity|].
  rewrite fold_left_app. simpl. rewrite Hf. exact IH.
Qed.

Lemma filter_test_bands_witness :
  let a := ThingArray.MkThing 1 "urn:iotdb:thing:hue:1" in
  let queryd :=
    [("meta:iot:zone", PAtom (VStr "Kitchen")); ("istate:on", PAtom (VBool true))] in
  ThingArray._filter_test (fun _ _ _ => true) (fun _ _ => true) queryd a = false.
Proof.
  intros a queryd.
  apply (proj1 (proj1 (filter_test_bands (fun _ _ _ => true) (fun _ _ => true) queryd)
                 "istate:on" (PAtom (VBool true))
                 ltac:(simpl; tauto) ltac:(intros inner; discriminate)
                 ltac:(discriminate))).
Defined.

(** * Further properties of Things *)

(** ** Updates that bring nothing *)

Lemma with_attributes_same (self : Model.Thing) :
  Model.with_attributes (Model.__attributes self) self = self.
Proof. destruct self; reflexivity. Qed.

Lemma istate_entry_no_news (p_validate : bool) (attrs : list Model.Attribute)
    (kv : string * jsval) :
  no_news p_validate (fun _ => false) Model._ivalue attrs kv ->
  Model.istate_entry p_validate (attrs, []) kv = (attrs, []).
Proof.
  destruct kv as [c v]. unfold Model.istate_entry, no_news, offered. simpl.
  intros [Hu | [Hu | (a & Ha & Hu)]].
  - rewrite Hu. reflexivity.
  - rewrite Hu. destruct (strict_eq v VUndefined); reflexivity.
  - rewrite Ha. destruct (strict_eq v VUndefined); [reflexivity|].
    destruct Hu as [[-> Hu] | (_ & Hu1 & Hu2)].
    + rewrite Hu. reflexivity.
    + rewrite Hu1, Hu2. unfold strict_eq at 2.
      rewrite bool_decide_eq_true_2 by reflexivity. simpl.
      destruct (p_validate && _); reflexivity.
Qed.

Lemma ostate_entry_no_news (p_validate : bool) (attrs : list Model.Attribute)
    (kv : string * jsval) :
  no_news p_validate Model.force Model._ovalue attrs kv ->
  Model.ostate_entry p_validate (attrs, []) kv = (attrs, []).
Proof.
  destruct kv as [c v]. unfold Model.ostate_entry, no_news, offered. simpl.
  intros [Hu | [Hu | (a & Ha & Hu)]].
  - rewrite Hu. reflexivity.
  - rewrite Hu. destruct (strict_eq v VUndefined); reflexivity.
  - rewrite Ha. destruct (strict_eq v VUndefined); [reflexivity|].
    destruct Hu as [[-> Hu] | (Hu0 & Hu1 & Hu2)].
    + rewrite Hu. reflexivity.
    + rewrite Hu0, Hu1, Hu2. unfold strict_eq at 2.
      rewrite bool_decide_eq_true_2 by reflexivity. simpl.
      destruct (p_validate && _); reflexivity.
Qed.

Lemma fold_no_news {A : Type} (f : list Model.Attribute * list string -> A ->
                                    list Model.Attribute * list string)
    (attrs : list Model.Attribute) (l : list A) :
  (forall x, In x l -> f (attrs, []) x = (attrs, [])) ->
  fold_left f l (attrs, []) = (attrs, []).
Proof.
  induction l as [|x l IH]; intros Hn; cbn [fold_left]; [reflexivity|].
  rewrite Hn by (left; reflexivity). apply IH. intros y Hy. apply Hn. right. exact Hy.
Qed.

(** X8.  An update of the input or of the output band whose entries
    bring nothing new leaves the whole Thing as it was: entries with
    the value [undefined], entries for codes that no attribute has,
    entries that the validation rejects, and entries that offer the
    value the attribute already holds (unless the attribute is of the
    type null or, on the output band, forced).  No timestamp is set,
    nothing is scheduled, nothing is sent to the Bridge. *)
Theorem update_without_news `{Helpers} (now : string) (updated : dict)
    (p : Model.paramd) (self : Model.Thing) :
  ((forall kv, In kv (d_entries updated) ->
      no_news (default false (Model.validate p)) (fun _ => false) Model._ivalue
        (Model.__attributes self) kv) ->
   Model.update now "istate" updated p self = self)
  /\ ((forall kv, In kv (d_entries updated) ->
         no_news (default true (Model.validate p)) Model.force Model._ovalue
           (Model.__attributes self) kv) ->
      Model.update now "ostate" updated p self = self).
Proof.
  split; intros Hn.
  - change (Model._update_istate now updated p self = self).
    unfold Model._update_istate.
    destruct (_ && _); [reflexivity|].
    rewrite fold_no_news by (intros kv Hkv; apply istate_entry_no_news, Hn, Hkv).
    apply with_attributes_same.
  - change (Model._update_ostate now updated p self = self).
    unfold Model._update_ostate.
    destruct (default true (Model.add_timestamp p)); simpl;
      (destruct (_ && _); [reflexivity|]);
      rewrite fold_no_news by (intros kv Hkv; apply ostate_entry_no_news, Hn, Hkv);
      simpl; destruct self; reflexivity.
Qed.

Lemma update_without_news_witness :
  let H := sample_helpers in
  let a := Model.set_istate (VNum 20) false
             (sample_attribute "temperature" "iot-purpose:temperature" true false false) in
  let self := sample_thing [a] None in
  Model.update "2016-01-06T00:00:00.000Z" "istate"
    (Dict None [("temperature", VNum 20); ("humidity", VNum 40); ("on", VUndefined)])
    Model.no_paramd self = self.
Proof.
  intros H a self.
  apply (proj1 (@update_without_news H "2016-01-06T00:00:00.000Z"
                  (Dict None [("temperature", VNum 20); ("humidity", VNum 40);
                              ("on", VUndefined)])
                  Model.no_paramd self)).
  intros kv [<- | [<- | [<- | []]]].
  - right. right. exists a. split; [reflexivity|]. right. repeat split.
  - right. left. reflexivity.
  - left. reflexivity.
Defined.

(** ** The two bands are separate *)

Lemma assign_side {X : Type} (g : Model.Attribute -> X) (c : string)
    (f : Model.Attribute -> Model.Attribute) (attrs : list Model.Attribute) :
  (forall a, g (f a) = g a) ->
  List.map g (Model.assign c f attrs) = List.map g attrs.
Proof.
  intros Hg. unfold Model.assign. rewrite List.map_map. apply List.map_ext.
  intros a. destruct (String.eqb (Model.code a) c); [apply Hg | reflexivity].
Qed.

Lemma reset_side {X : Type} (g : Model.Attribute -> X)
    (f : Model.Attribute -> Model.Attribute) (l : list string)
    (attrs : list Model.Attribute) :
  (forall a, g (f a) = g a) ->
  List.map g (fold_left (fun attrs c => Model.assign c f attrs) l attrs)
  = List.map g attrs.
Proof.
  intros Hg. revert attrs. induction l as [|c l IH]; intros attrs; simpl;
    [reflexivity|]. rewrite IH. apply assign_side, Hg.
Qed.

Lemma istate_fold_output `{Helpers} (p_validate : bool) (l : list (string * jsval))
    (acc : list Model.Attribute * list string) :
  List.map output_side (fst (fold_left (Model.istate_entry p_validate) l acc))
  = List.map output_side (fst acc).
Proof.
  revert acc. induction l as [|[c v] l IH]; intros [attrs changed]; simpl;
    [reflexivity|]. rewrite IH.
  destruct (strict_eq v VUndefined); [reflexivity|].
  destruct (Model.attributed attrs c) as [a|]; [|reflexivity].
  destruct (_ && _); [reflexivity|]. destruct (_ && _); [reflexivity|].
  simpl. apply assign_side. reflexivity.
Qed.

Lemma ostate_fold_input `{Helpers} (p_validate : bool) (l : list (string * jsval))
    (acc : list Model.Attribute * list string) :
  List.map input_side (fst (fold_left (Model.ostate_entry p_validate) l acc))
  = List.map input_side (fst acc).
Proof.
  revert acc. induction l as [|[c v] l IH]; intros [attrs changed]; simpl;
    [reflexivity|]. rewrite IH.
  destruct (strict_eq v VUndefined); [reflexivity|].
  destruct (Model.attributed attrs c) as [a|]; [|reflexivity].
  destruct (_ && _); [reflexivity|]. destruct (_ && _); [reflexivity|].
  simpl. apply assign_side. reflexivity.
Qed.

Lemma nextTick_all (l : list Model.task) (self : Model.Thing) :
  fold_left (fun s f => Model.nextTick f s) l self
  = Model.with_ticks (Model.ticks self ++ l) self.
Proof.
  revert self. induction l as [|f l IH]; intros self; simpl.
  - rewrite app_nil_r. destruct self; reflexivity.
  - rewrite IH. unfold Model.nextTick, Model.with_ticks. simpl.
    rewrite <- app_assoc. reflexivity.
Qed.

Lemma callbacks_no_push (self : Model.Thing) (changed_attributes : list string) :
  forallb (fun f => negb (is_push f))
    (Model.attribute_callbacks self changed_attributes) = true.
Proof.
  apply forallb_forall. intros f Hf. unfold Model.attribute_callbacks in Hf.
  apply in_flat_map in Hf as (c & _ & Hf).
  apply List.in_map_iff in Hf as (cb & <- & _). reflexivity.
Qed.

Lemma istate_frame `{Helpers} (now : string) (updated : dict) (p : Model.paramd)
    (self : Model.Thing) :
  exists attrs' its' more,
    Model._update_istate now updated p self =
    Model.MkThing attrs' (Model.__callbacksd self) its' (Model._otimestamp self)
      (Model._pushes self) (Model.bridge_instance self) (Model.meta self)
      (Model.ticks self ++ more) (Model.emitted self) (Model.called self)
    /\ List.map output_side attrs' = List.map output_side (Model.__attributes self)
    /\ forallb (fun f => negb (is_push f)) more = true.
Proof.
  unfold Model._update_istate.
  destruct (_ && _).
  { exists (Model.__attributes self), (Model._itimestamp self), [].
    rewrite app_nil_r. destruct self; repeat split. }
  pose proof (istate_fold_output (default false (Model.validate p))
                (d_entries updated) (Model.__attributes self, [])) as Ho.
  destruct (fold_left _ (d_entries updated) _) as [attrs' changed]. simpl in Ho.
  destruct changed as [|c0 cs].
  { exists attrs', (Model._itimestamp self), [].
    rewrite app_nil_r. destruct self; repeat split. exact Ho. }
  set (changed := c0 :: cs).
  set (reset := fun attrs c =>
                  Model.assign c (fun a => Model.set_istate (Model._ivalue a) false a) attrs).
  assert (Hr : List.map output_side (fold_left reset changed attrs')
               = List.map output_side (Model.__attributes self)).
  { rewrite <- Ho. apply (reset_side output_side). reflexivity. }
  destruct self as [attrs cbs its ots pushes bi m q evs cs'].
  destruct (default true (Model.set_timestamp p)), (default true (Model.notify p));
    rewrite ?nextTick_all; thing_nf; rewrite <- ?app_assoc;
    do 3 eexists; (split; [reflexivity|]); (split; [exact Hr|]);
    rewrite ?forallb_app, ?callbacks_no_push; reflexivity.
Qed.

Lemma output_only_refl (self : Model.Thing) : output_only self self.
Proof.
  repeat split; try reflexivity; exists []; rewrite app_nil_r; split; reflexivity.
Qed.

Lemma output_only_trans (a b c : Model.Thing) :
  output_only a b -> output_only b c -> output_only a c.
Proof.
  intros (A1 & A2 & A3 & A4 & A5 & A6 & A7 & (m1 & A8 & A8') & (e1 & A9 & A9'))
         (B1 & B2 & B3 & B4 & B5 & B6 & B7 & (m2 & B8 & B8') & (e2 & B9 & B9')).
  repeat split; try congruence.
  - exists (m1 ++ m2). rewrite B8, A8, <- app_assoc, forallb_app, A8', B8'.
    split; reflexivity.
  - exists (e1 ++ e2). rewrite B9, A9, <- app_assoc, forallb_app, A9', B9'.
    split; reflexivity.
Qed.

Lemma output_only_attributes (attrs : list Model.Attribute) (self : Model.Thing) :
  List.map input_side attrs = List.map input_side (Model.__attributes self) ->
  output_only self (Model.with_attributes attrs self).
Proof.
  intros E. repeat split; try reflexivity; try exact E;
    exists []; rewrite app_nil_r; split; reflexivity.
Qed.

Lemma output_only_otimestamp (x : timestamp) (self : Model.Thing) :
  output_only self (Model.with_otimestamp x self).
Proof.
  repeat split; try reflexivity; exists []; rewrite app_nil_r; split; reflexivity.
Qed.

Lemma output_only_tick (f : Model.task) (self : Model.Thing) :
  is_callback f = false -> output_only self (Model.nextTick f self).
Proof.
  intros E. repeat split; try reflexivity.
  - exists [f]. simpl. rewrite E. split; reflexivity.
  - exists []. rewrite app_nil_r. split; reflexivity.
Qed.

Lemma output_only_emit (self : Model.Thing) :
  output_only self (Model.emit "ostate" self).
Proof.
  repeat split; try reflexivity.
  - exists []. rewrite app_nil_r. split; reflexivity.
  - exists ["ostate"]. split; reflexivity.
Qed.

Lemma clear_ostate_output_only `{Helpers} (self : Model.Thing) :
  output_only self (Model._clear_ostate self).
Proof.
  unfold Model._clear_ostate.
  assert (Ha : output_only self
                 (Model.with_attributes
                    (List.map (fun a => if Model.to_clear a
                                        then Model.set_ostate VNull false a else a)
                       (Model.__attributes self)) self)).
  { apply output_only_attributes. rewrite List.map_map. apply List.map_ext.
    intros a. destruct (Model.to_clear a); reflexivity. }
  destruct (existsb Model.to_clear (Model.__attributes self)); [|exact Ha].
  eapply output_only_trans; [exact Ha|].
  eapply output_only_trans; [apply output_only_otimestamp | apply output_only_emit].
Qed.

Lemma push_fold_input (b : Model.Bridge) (l : list string)
    (acc : list Model.Attribute * list (string * jsval)) :
  List.map input_side (fst (fold_left (Model.push_entry b) l acc))
  = List.map input_side (fst acc).
Proof.
  revert acc. induction l as [|c l IH]; intros [attrs pushd]; simpl; [reflexivity|].
  rewrite IH. destruct (Model.attributed attrs c) as [a|]; [|reflexivity].
  simpl. destruct (Model.clear_value a); [|reflexivity].
  apply assign_side. reflexivity.
Qed.

Lemma push_attributes_output_only `{Helpers} (attributes : list string)
    (self : Model.Thing) :
  output_only self (Model._push_attributes attributes self).
Proof.
  unfold Model._push_attributes.
  destruct (Model.bridge_instance self) as [b|]; [|apply clear_ostate_output_only].
  destruct (negb (Model.reachable b)); [apply clear_ostate_output_only|].
  pose proof (push_fold_input b attributes (Model.__attributes self, [])) as Hi.
  destruct (fold_left _ attributes _) as [attrs pushd]. simpl in Hi.
  destruct pushd as [|kv pushd]; [apply output_only_attributes, Hi|].
  eapply output_only_trans; [apply output_only_attributes, Hi|].
  apply output_only_tick. reflexivity.
Qed.

Lemma ostate_output_only `{Helpers} (now : string) (updated : dict)
    (p : Model.paramd) (self : Model.Thing) :
  output_only self (Model._update_ostate now updated p self).
Proof.
  unfold Model._update_ostate.
  set (updated' := if default true (Model.add_timestamp p) then _ else _).
  destruct (_ && _); [apply output_only_refl|].
  pose proof (ostate_fold_input (default true (Model.validate p))
                (d_entries updated') (Model.__attributes self, [])) as Hi.
  destruct (fold_left _ (d_entries updated') _) as [attrs changed]. simpl in Hi.
  assert (H1 : output_only self (Model.with_attributes attrs self))
    by (apply output_only_attributes, Hi).
  assert (Hreset : forall s, output_only s
            (Model.with_attributes
               (fold_left
                  (fun attrs c =>
                     Model.assign c (fun a => Model.set_ostate (Model._ovalue a) false a)
                       attrs)
                  changed (Model.__attributes s)) s)).
  { intros s. apply output_only_attributes, (reset_side input_side). reflexivity. }
  destruct changed as [|c0 cs].
  { eapply output_only_trans; [exact H1 | apply Hreset]. }
  eapply output_only_trans; [|apply Hreset].
  eapply output_only_trans; [|apply output_only_tick; reflexivity].
  eapply output_only_trans; [exact H1|].
  eapply output_only_trans; [apply push_attributes_output_only|].
  destruct (default true (Model.set_timestamp p)), (default true (Model.notify p)).
  - eapply output_only_trans; [apply output_only_otimestamp|].
    apply output_only_tick. reflexivity.
  - apply output_only_otimestamp.
  - apply output_only_tick. reflexivity.
  - apply output_only_refl.
Qed.

(** X9.  The two bands are separate.  An update of the input band
    never touches the output band: what each attribute holds there,
    the timestamp of the band and the counter of pushes stay, nothing
    is emitted at once and no push to the Bridge is scheduled.  An
    update of the output band never touches the input band: what each
    attribute holds there and the timestamp stay, no callback of an
    attribute is scheduled or run, and the only event it may emit at
    once is ["ostate"].  Neither changes the metadata, the Bridge or
    the callbacks registered. *)
Theorem bands_are_separate `{Helpers} (now : string) (updated : dict)
    (p : Model.paramd) (self : Model.Thing) :
  input_only self (Model.update now "istate" updated p self)
  /\ output_only self (Model.update now "ostate" updated p self).
Proof.
  split; [|apply ostate_output_only].
  change (input_only self (Model._update_istate now updated p self)).
  destruct (istate_frame now updated p self) as (attrs' & its' & more & E & Ho & Hm).
  rewrite E. repeat split; try reflexivity; [exact Ho|].
  exists more. split; [reflexivity | exact Hm].
Qed.

(** ** Clearing the output band *)

Lemma cleared_nothing_to_clear (attrs : list Model.Attribute) :
  (forall a, In a attrs -> Model._ovalue a = VNull /\ Model._ochanged a = false) ->
  existsb Model.to_clear attrs = false
  /\ List.map (fun a => if Model.to_clear a then Model.set_ostate VNull false a else a)
       attrs = attrs.
Proof.
  intros Hc.
  assert (Ht : forall a, In a attrs -> Model.to_clear a = false).
  { intros a Ha. destruct (Hc a Ha) as [Ho Hf]. unfold Model.to_clear.
    rewrite Ho, Hf. reflexivity. }
  split.
  - apply not_true_is_false. intros Hex.
    apply existsb_exists in Hex as (a & Ha & Hx). rewrite (Ht a Ha) in Hx.
    discriminate.
  - rewrite <- (List.map_id attrs) at 2. apply List.map_ext_in.
    intros a Ha. rewrite (Ht a Ha). reflexivity.
Qed.

(** X10.  [_clear_ostate] leaves every attribute of the output band
    [null] and unmarked; clearing twice is clearing once, and on a
    band that holds nothing it changes nothing: the timestamp is not
    advanced and no ["ostate"] is emitted. *)
Theorem clear_ostate_once `{Helpers} (self : Model.Thing) :
  ostate_cleared (Model._clear_ostate self)
  /\ Model._clear_ostate (Model._clear_ostate self) = Model._clear_ostate self
  /\ (ostate_cleared self -> Model._clear_ostate self = self).
Proof.
  assert (Hid : forall s, ostate_cleared s -> Model._clear_ostate s = s).
  { intros s Hs. unfold Model._clear_ostate.
    destruct (cleared_nothing_to_clear _ Hs) as [-> ->].
    apply with_attributes_same. }
  split; [apply clear_ostate_cleared|].
  split; [apply Hid, clear_ostate_cleared | apply Hid].
Qed.

Lemma clear_ostate_once_witness :
  let H := sample_helpers in
  let self :=
    sample_thing [sample_attribute "on" "iot-purpose:on" true true false] None in
  Model._clear_ostate self = self.
Proof.
  intros H self.
  apply (proj2 (proj2 (@clear_ostate_once H self))).
  intros a [<- | []]. split; reflexivity.
Defined.

(** ** set on a Thing that cannot be reached *)

Lemma push_attributes_unreachable `{Helpers} (attributes : list string)
    (self : Model.Thing) :
  Model.thing_reachable self = false ->
  Model._push_attributes attributes self = Model._clear_ostate self.
Proof.
  unfold Model.thing_reachable, Model._push_attributes.
  destruct (Model.bridge_instance self) as [b|]; [|reflexivity].
  intros ->. reflexivity.
Qed.

Lemma marked_to_clear (attrs : list Model.Attribute) (c : string)
    (a : Model.Attribute) (v : jsval) :
  Model.attributed attrs c = Some a ->
  existsb Model.to_clear (Model.assign c (Model.set_ostate v true) attrs) = true.
Proof.
  intros Hreg.
  pose proof (attributed_assign _ _ (Model.set_ostate v true) _ (fun _ => eq_refl) Hreg)
    as Hreg'.
  apply attributed_In in Hreg' as [Hin _].
  apply existsb_exists. eexists. split; [exact Hin|].
  unfold Model.to_clear. simpl. rewrite andb_false_r. reflexivity.
Qed.

Lemma set_changes `{Helpers} (now : string) (k : Model.find_key)
    (new_value : jsval) (self : Model.Thing) (attribute : Model.Attribute) :
  Model.find k "set" self = Some attribute ->
  Model.attributed (Model.__attributes self) (Model.code attribute) = Some attribute ->
  new_value <> VUndefined ->
  Model.validate_value attribute new_value <> VUndefined ->
  Model.force attribute = true \/ Model.is_type_null attribute = true
  \/ Model._ovalue attribute <> Model.validate_value attribute new_value ->
  let c := Model.code attribute in
  let v := Model.validate_value attribute new_value in
  let marked :=
    Model.with_attributes
      (Model.assign c (Model.set_ostate v true) (Model.__attributes self)) self in
  let pushed := Model._push_attributes [c] marked in
  Model.set now k new_value self =
  Model.with_attributes
    (Model.assign c (fun a => Model.set_ostate (Model._ovalue a) false a)
       (Model.__attributes pushed))
    (Model.nextTick (Model.TaskEmit "ostate")
       (Model.nextTick (Model.TaskEmit "state")
          (Model.with_otimestamp (Model.stamp now (timestamp_add now (Some now)))
             pushed))).
Proof.
  intros Hfind Hreg Hnv Hv Hch c v marked pushed.
  unfold Model.set, strict_eq.
  rewrite bool_decide_eq_false_2 by assumption. rewrite Hfind.
  change (Model.update now "ostate" ?u ?p self)
    with (Model._update_ostate now u p self).
  unfold Model._update_ostate. cbn [default Model.add_timestamp
    Model.check_timestamp Model.set_timestamp Model.notify Model.validate
    d_timestamp d_entries andb fold_left Model.ostate_entry].
  unfold strict_eq. rewrite (bool_decide_eq_false_2 (new_value = _)) by assumption.
  rewrite Hreg. cbn [andb].
  rewrite (bool_decide_eq_false_2 (Model.validate_value attribute new_value = _))
    by assumption.
  assert (E : negb (Model.force attribute) && negb (Model.is_type_null attribute)
              && bool_decide (Model._ovalue attribute
                              = Model.validate_value attribute new_value) = false).
  { destruct Hch as [-> | [-> | Hne]].
    - reflexivity.
    - rewrite andb_false_r. reflexivity.
    - rewrite (bool_decide_eq_false_2 _ Hne). apply andb_false_r. }
  rewrite E. cbn [app fold_left]. reflexivity.
Qed.

(** X11.  [set] on a Thing that has no Bridge, or whose Bridge is not
    reachable, never holds the value: when the value would change the
    output band, the whole band is cleared at once (values pending
    for other attributes too), ["ostate"] is emitted for the
    clearing, no push is scheduled and the counter of pushes stays;
    only the notifications ["state"] and ["ostate"] are scheduled. *)
Theorem set_unreachable `{Helpers} (now : string) (k : Model.find_key)
    (new_value : jsval) (self : Model.Thing) (attribute : Model.Attribute) :
  List.NoDup (List.map Model.code (Model.__attributes self)) ->
  Model.thing_reachable self = false ->
  Model.find k "set" self = Some attribute ->
  new_value <> VUndefined ->
  Model.validate_value attribute new_value <> VUndefined ->
  Model.force attribute = true \/ Model.is_type_null attribute = true
  \/ Model._ovalue attribute <> Model.validate_value attribute new_value ->
  let self' := Model.set now k new_value self in
  ostate_cleared self'
  /\ Model.emitted self' = Model.emitted self ++ ["ostate"]
  /\ Model.ticks self'
     = Model.ticks self ++ [Model.TaskEmit "state"; Model.TaskEmit "ostate"]
  /\ Model._pushes self' = Model._pushes self
  /\ Model._otimestamp self' = Model.stamp now (timestamp_add now (Some now)).
Proof.
  intros Hnd Hr Hfind Hnv Hv Hch self'.
  assert (Hreg : Model.attributed (Model.__attributes self) (Model.code attribute)
                 = Some attribute)
    by (apply unique_code_registered; [exact Hnd | exact (find_In _ _ _ _ Hfind)]).
  subst self'. rewrite (set_changes now k new_value self attribute) by assumption.
  set (c := Model.code attribute).
  set (v := Model.validate_value attribute new_value).
  set (marked := Model.with_attributes _ self).
  rewrite (push_attributes_unreachable [c] marked) by exact Hr.
  assert (Hm : existsb Model.to_clear (Model.__attributes marked) = true)
    by (apply (marked_to_clear _ c attribute v), Hreg).
  destruct (clear_ostate_notifies marked Hm) as [_ He].
  pose proof (clear_ostate_cleared marked) as Hc.
  pose proof (clear_ostate_pushes marked) as Hp.
  assert (Ht : Model.ticks (Model._clear_ostate marked) = Model.ticks self).
  { unfold Model._clear_ostate. rewrite Hm. reflexivity. }
  split; [|split; [|split; [|split]]].
  - intros a Ha. cbn [Model.with_attributes Model.__attributes] in Ha.
    unfold Model.assign in Ha. apply List.in_map_iff in Ha as (a0 & <- & Ha0).
    destruct (Hc a0 Ha0) as [Ho Hf].
    destruct (String.eqb (Model.code a0) c); simpl; tauto.
  - simpl. exact He.
  - simpl. rewrite Ht, <- app_assoc. reflexivity.
  - simpl. exact Hp.
  - reflexivity.
Qed.

Lemma set_unreachable_witness :
  let H := sample_helpers in
  let on := sample_attribute "on" "iot-purpose:on" true true false in
  let self := sample_thing [on] None in
  let self' := Model.set "2016-01-06T00:00:00.000Z" (Model.KeyString "on")
                 (VBool true) self in
  ostate_cleared self'
  /\ Model.emitted self' = ["ostate"]
  /\ Model.ticks self' = [Model.TaskEmit "state"; Model.TaskEmit "ostate"]
  /\ Model._pushes self' = 0%Z
  /\ Model._otimestamp self' = Some "2016-01-06T00:00:00.000Z".
Proof.
  intros H on self.
  apply (@set_unreachable H "2016-01-06T00:00:00.000Z" (Model.KeyString "on")
           (VBool true) self on).
  - repeat constructor. intros [].
  - reflexivity.
  - reflexivity.
  - discriminate.
  - discriminate.
  - right. right. discriminate.
Defined.

(** ** disconnect *)



(** ** Reading back the input band *)

Lemma ivalue_of_assign (attrs : list Model.Attribute) (c c' : string)
    (f : Model.Attribute -> Model.Attribute) :
  (forall a, Model.code (f a) = Model.code a) ->
  ivalue_of (Model.assign c' f attrs) c =
  if String.eqb c' c
  then option_map (fun a => Model._ivalue (f a)) (Model.attributed attrs c)
  else ivalue_of attrs c.
Proof.
  intros Hf. unfold ivalue_of, Model.attributed, Model.assign.
  induction attrs as [|x attrs IH]; simpl; [destruct (String.eqb c' c); reflexivity|].
  destruct (String.eqb (Model.code x) c') eqn:E1.
  - rewrite Hf. apply String.eqb_eq in E1. subst c'.
    destruct (String.eqb (Model.code x) c) eqn:E2; [reflexivity | exact IH].
  - destruct (String.eqb (Model.code x) c) eqn:E2; [|exact IH].
    apply String.eqb_eq in E2. subst c. rewrite String.eqb_sym, E1. reflexivity.
Qed.

Lemma ivalue_of_reset (l : list string) (attrs : list Model.Attribute) (c : string) :
  ivalue_of
    (fold_left
       (fun attrs c => Model.assign c (fun a => Model.set_istate (Model._ivalue a) false a)
                         attrs)
       l attrs) c
  = ivalue_of attrs c.
Proof.
  revert attrs. induction l as [|c' l IH]; intros attrs; simpl; [reflexivity|].
  rewrite IH, ivalue_of_assign by reflexivity.
  destruct (String.eqb c' c); [|reflexivity].
  unfold ivalue_of. destruct (Model.attributed attrs c); reflexivity.
Qed.

Lemma istate_entry_read `{Helpers} (attrs : list Model.Attribute)
    (changed : list string) (c0 c : string) (v0 : jsval) :
  ivalue_of (fst (Model.istate_entry false (attrs, changed) (c0, v0))) c =
  if String.eqb c0 c && negb (strict_eq v0 VUndefined)
     && bool_decide (is_Some (Model.attributed attrs c0))
  then Some v0 else ivalue_of attrs c.
Proof.
  unfold Model.istate_entry.
  destruct (strict_eq v0 VUndefined) eqn:Eu; [rewrite andb_false_r; reflexivity|].
  destruct (Model.attributed attrs c0) as [a|] eqn:Ea;
    [|rewrite andb_false_r; reflexivity].
  rewrite andb_true_r. cbn [andb negb].
  destruct (String.eqb c0 c) eqn:Ec.
  - apply String.eqb_eq in Ec. subst c0.
    destruct (negb (Model.is_type_null a) && strict_eq (Model._ivalue a) v0) eqn:Es.
    + apply andb_true_iff in Es as [_ Es]. apply bool_decide_eq_true in Es.
      simpl. unfold ivalue_of. rewrite Ea. simpl. congruence.
    + simpl. rewrite ivalue_of_assign, String.eqb_refl, Ea by reflexivity.
      reflexivity.
  - destruct (_ && _); simpl; [reflexivity|].
    rewrite ivalue_of_assign, Ec by reflexivity. reflexivity.
Qed.

Lemma ivalue_of_known (attrs : list Model.Attribute) (c : string) :
  is_Some (ivalue_of attrs c) <-> is_Some (Model.attributed attrs c).
Proof.
  unfold ivalue_of. destruct (Model.attributed attrs c); simpl.
  - split; eauto.
  - split; intros [x Hx]; discriminate.
Qed.

Lemma istate_entry_known `{Helpers} (acc : list Model.Attribute * list string)
    (kv : string * jsval) (c : string) :
  is_Some (Model.attributed (fst (Model.istate_entry false acc kv)) c)
  <-> is_Some (Model.attributed (fst acc) c).
Proof.
  destruct acc as [attrs changed], kv as [c0 v0]. cbn [fst].
  rewrite <- !ivalue_of_known. rewrite istate_entry_read.
  destruct (String.eqb c0 c && negb (strict_eq v0 VUndefined)
            && bool_decide (is_Some (Model.attributed attrs c0))) eqn:E;
    [|reflexivity].
  apply andb_true_iff in E as [E E3]. apply andb_true_iff in E as [E1 _].
  apply String.eqb_eq in E1. subst c0. apply bool_decide_eq_true in E3.
  split; intros _; [apply ivalue_of_known; exact E3 | eauto].
Qed.

Lemma istate_fold_read `{Helpers} (l : list (string * jsval))
    (acc : list Model.Attribute * list string) :
  List.NoDup (List.map fst l) ->
  let attrs' := fst (fold_left (Model.istate_entry false) l acc) in
  (forall c v, In (c, v) l -> v <> VUndefined ->
     is_Some (Model.attributed (fst acc) c) -> ivalue_of attrs' c = Some v)
  /\ (forall c, ~ In c (List.map fst l) -> ivalue_of attrs' c = ivalue_of (fst acc) c).
Proof.
  revert acc. induction l as [|[c0 v0] l IH]; intros acc Hnd;
    cbn [fold_left List.map fst] in *.
  - split; [intros c v [] | reflexivity].
  - apply List.NoDup_cons_iff in Hnd as [Hc0 Hnd].
    destruct (IH (Model.istate_entry false acc (c0, v0)) Hnd) as [IH1 IH2].
    destruct acc as [attrs changed]. cbn [fst] in *.
    split.
    + intros c v [[= -> ->] | Hin] Hv Hs.
      * rewrite IH2 by exact Hc0. rewrite istate_entry_read, String.eqb_refl.
        unfold strict_eq. rewrite (bool_decide_eq_false_2 _ Hv).
        rewrite (bool_decide_eq_true_2 _ Hs). reflexivity.
      * apply IH1; [exact Hin | exact Hv|].
        apply (istate_entry_known (attrs, changed) (c0, v0) c). exact Hs.
    + intros c Hc. rewrite IH2 by (intros Hx; apply Hc; right; exact Hx).
      rewrite istate_entry_read.
      destruct (String.eqb c0 c) eqn:Ec; [|reflexivity].
      apply String.eqb_eq in Ec. exfalso. apply Hc. left. exact Ec.
Qed.

Lemma istate_attributes `{Helpers} (now : string) (updated : dict)
    (p : Model.paramd) (self : Model.Thing) :
  default true (Model.check_timestamp p)
  && negb (Timestamp.check_values (Model._itimestamp self) (d_timestamp updated))
  = false ->
  forall c,
    ivalue_of (Model.__attributes (Model._update_istate now updated p self)) c
    = ivalue_of
        (fst (fold_left (Model.istate_entry (default false (Model.validate p)))
                (d_entries updated) (Model.__attributes self, []))) c.
Proof.
  intros Hc c. unfold Model._update_istate. rewrite Hc.
  destruct (fold_left _ (d_entries updated) _) as [attrs' changed].
  destruct changed as [|c0 cs]; [reflexivity|].
  cbn [Model.with_attributes Model.__attributes fst].
  rewrite ivalue_of_reset.
  destruct (default true (Model.set_timestamp p)), (default true (Model.notify p));
    rewrite ?nextTick_all; reflexivity.
Qed.

(** X13.  What an update of the input band stores can be read back.
    When the update is not lost to the timestamp rule and does not
    validate, each of its entries whose value is not [undefined] and
    whose code an attribute has is what the input band reads for that
    code afterwards, and the codes it does not mention read what they
    read before.  (The entries of a dictionary have keys of their
    own.) *)
Theorem istate_round_trip `{Helpers} (now : string) (updated : dict)
    (p : Model.paramd) (self : Model.Thing) :
  List.NoDup (List.map fst (d_entries updated)) ->
  default false (Model.validate p) = false ->
  default true (Model.check_timestamp p)
  && negb (Timestamp.check_values (Model._itimestamp self) (d_timestamp updated))
  = false ->
  let self' := Model.update now "istate" updated p self in
  (forall c v,
      In (c, v) (d_entries updated) -> v <> VUndefined ->
      is_Some (Model.attributed (Model.__attributes self) c) ->
      ivalue_of (Model.__attributes self') c = Some v)
  /\ (forall c,
        ~ In c (List.map fst (d_entries updated)) ->
        ivalue_of (Model.__attributes self') c
        = ivalue_of (Model.__attributes self) c).
Proof.
  intros Hnd Hval Hc self'. subst self'.
  change (Model.update now "istate" updated p self)
    with (Model._update_istate now updated p self).
  destruct (istate_fold_read (d_entries updated) (Model.__attributes self, []) Hnd)
    as [H1 H2].
  split.
  - intros c v Hin Hv Hs. rewrite istate_attributes, Hval by exact Hc.
    apply H1; assumption.
  - intros c Hn. rewrite istate_attributes, Hval by exact Hc. apply H2, Hn.
Qed.

Lemma istate_round_trip_witness :
  let H := sample_helpers in
  let self :=
    sample_thing
      [sample_attribute "temperature" "iot-purpose:temperature" true false false;
       sample_attribute "on" "iot-purpose:on" true true false] None in
  ivalue_of
    (Model.__attributes
       (Model.update "2016-01-06T00:00:00.000Z" "istate"
          (Dict None [("temperature", VNum 20); ("humidity", VNum 40)])
          Model.no_paramd self)) "temperature"
  = Some (VNum 20).
Proof.
  intros H self.
  apply (proj1 (@istate_round_trip H "2016-01-06T00:00:00.000Z"
                  (Dict None [("temperature", VNum 20); ("humidity", VNum 40)])
                  Model.no_paramd self
                  ltac:(repeat constructor; simpl; intuition discriminate)
                  eq_refl eq_refl)).
  - left. reflexivity.
  - discriminate.
  - eexists. reflexivity.
Defined.

(** ** Callbacks of an attribute *)






(** ** The counter of pushes *)

Lemma clear_ostate_rest `{Helpers} (self : Model.Thing) :
  Model.ticks (Model._clear_ostate self) = Model.ticks self
  /\ Model.bridge_instance (Model._clear_ostate self) = Model.bridge_instance self.
Proof.
  unfold Model._clear_ostate.
  destruct (existsb Model.to_clear (Model.__attributes self)); split; reflexivity.
Qed.

Lemma push_done_rest `{Helpers} (self : Model.Thing) :
  Model.ticks (Model.push_done self) = Model.ticks self
  /\ Model.bridge_instance (Model.push_done self) = Model.bridge_instance self.
Proof.
  unfold Model.push_done. destruct (_ =? _)%Z; [|split; reflexivity].
  apply (clear_ostate_rest (Model.with_pushes (Model._pushes self - 1) self)).
Qed.

Lemma run_tick_counts `{Helpers} (self : Model.Thing) (f : Model.task)
    (rest : list Model.task) :
  calls_back_or_throws (Model.bridge_instance self) ->
  (0 <= Model._pushes self)%Z ->
  Model.ticks self = f :: rest ->
  snd (Model.run_tick self) = None
  /\ Model._pushes (fst (Model.run_tick self))
     = (Model._pushes self
        + if in_flight (Model.bridge_instance self) f then 1 else 0)%Z
  /\ Model.ticks (fst (Model.run_tick self)) = rest
  /\ Model.bridge_instance (fst (Model.run_tick self)) = Model.bridge_instance self.
Proof.
  intros Hb Hp Hq. unfold Model.run_tick. rewrite Hq.
  destruct f as [cb c | event | pushd].
  - assert (E : in_flight (Model.bridge_instance self) (Model.TaskCallback cb c) = false)
      by (destruct (Model.bridge_instance self); reflexivity).
    rewrite E, Z.add_0_r. simpl.
    destruct (Model.attributed (Model.__attributes self) c); repeat split.
  - assert (E : in_flight (Model.bridge_instance self) (Model.TaskEmit event) = false)
      by (destruct (Model.bridge_instance self); reflexivity).
    rewrite E, Z.add_0_r. repeat split.
  - unfold Model.push_task, in_flight.
    cbn [Model.with_ticks Model.bridge_instance Model._pushes].
    destruct (Model.bridge_instance self) as [b|] eqn:Eb;
      [|simpl; rewrite Z.add_0_r; repeat split; exact Eb].
    set (s := Model.with_pushes _ _).
    assert (Es : Model._pushes s = (Model._pushes self + 1)%Z
                 /\ Model.ticks s = rest /\ Model.bridge_instance s = Some b)
      by (subst s; simpl; rewrite Eb; repeat split).
    destruct Es as (Es1 & Es2 & Es3). clearbody s.
    pose proof (push_done_pushes s) as Hd. destruct (push_done_rest s) as [Hd2 Hd3].
    destruct (Model.push b pushd) as [|error|error|] eqn:Eo.
    + unfold Model.push_callback in *. rewrite Hd, Es1.
      destruct (Z.ltb_spec (Model._pushes self + 1 - 1) 0); [lia|]. cbn [fst snd].
      rewrite Hd, Hd2, Hd3, Es1, Es2, Es3. repeat split. lia.
    + unfold Model.push_callback in *. rewrite Hd, Es1.
      destruct (Z.ltb_spec (Model._pushes self + 1 - 1) 0); [lia|]. cbn [fst snd].
      rewrite Hd, Hd2, Hd3, Es1, Es2, Es3. repeat split. lia.
    + exfalso. exact (Hb b pushd error eq_refl Eo).
    + rewrite Es1. destruct (Z.ltb_spec (Model._pushes self + 1) 0); [lia|].
      cbn [fst snd]. rewrite Es1, Es2, Es3. repeat split.
Qed.

(** X15.  The counter [_pushes] counts the pushes in flight.  With a
    Bridge that does not throw after it has called back, the closures
    scheduled run without an exception, in the order they were
    scheduled, and after any number of turns the counter is what it
    was plus the number of pushes, among the closures run, that the
    Bridge took and has not answered yet; it never goes below zero. *)
Theorem pushes_count_in_flight `{Helpers} (turns : nat) (self : Model.Thing) :
  calls_back_or_throws (Model.bridge_instance self) ->
  (0 <= Model._pushes self)%Z ->
  let settled := Model.run_ticks turns self in
  snd settled = None
  /\ Model._pushes (fst settled)
     = (Model._pushes self
        + Z.of_nat (length (List.filter (in_flight (Model.bridge_instance self))
                              (take turns (Model.ticks self)))))%Z
  /\ Model.ticks (fst settled) = drop turns (Model.ticks self)
  /\ Model.bridge_instance (fst settled) = Model.bridge_instance self.
Proof.
  revert self. induction turns as [|turns IH]; intros self Hb Hp; simpl.
  - rewrite Z.add_0_r. repeat split.
  - destruct (Model.ticks self) as [|f rest] eqn:Hq.
    + unfold Model.run_tick. rewrite Hq.
      destruct (IH self Hb Hp) as (I1 & I2 & I3 & I4). rewrite Hq in *.
      rewrite take_nil, drop_nil in *. simpl in *. repeat split; assumption.
    + destruct (run_tick_counts self f rest Hb Hp Hq) as (R1 & R2 & R3 & R4).
      destruct (Model.run_tick self) as [self' exception]. simpl in *. subst exception.
      assert (Hp' : (0 <= Model._pushes self')%Z)
        by (rewrite R2; destruct (in_flight _ f); lia).
      assert (Hb' : calls_back_or_throws (Model.bridge_instance self'))
        by (rewrite R4; exact Hb).
      destruct (IH self' Hb' Hp') as (I1 & I2 & I3 & I4).
      rewrite R3, R4 in *. split; [exact I1|]. split; [|split; [exact I3 | exact I4]].
      rewrite I2, R2. destruct (in_flight (Model.bridge_instance self) f); simpl; lia.
Qed.

Lemma pushes_count_in_flight_witness :
  let H := sample_helpers in
  let self :=
    Model.MkThing [sample_attribute "on" "iot-purpose:on" true true false] ∅ None None 0
      (Some (sample_bridge Model.PushDeferred)) (Meta.create ∅)
      [Model.TaskPush [("on", VBool true)]; Model.TaskEmit "state";
       Model.TaskPush [("on", VBool false)]] [] [] in
  Model._pushes (fst (Model.run_ticks 3 self)) = 2%Z.
Proof.
  intros H self.
  apply (proj1 (proj2 (@pushes_count_in_flight H 3 self
                         ltac:(intros b pushd error [= <-]; discriminate)
                         ltac:(simpl; lia)))).
Defined.

(** * Further properties of the metadata *)

(** ** set *)

Lemma state_lookup (m : Meta.t) (k : string) :
  js_get (Meta.state m) k =
  match Meta._updated m !! k with
  | Some v => v
  | None => js_get (Meta.thing_metad m) k
  end.
Proof.
  unfold js_get, Meta.state. rewrite lookup_union.
  destruct (Meta._updated m !! k), (Meta.thing_metad m !! k); reflexivity.
Qed.

(** X16.  [Meta.set] and [Meta.get].  A key that expands to
    [iot:reachable] is not stored.  For any other key (but the
    timestamp), [get] of the expanded key reads the value just set,
    when that is not [undefined], even where the thing's own metadata
    has the key; the other keys read what they read before; the
    timestamp is the time of the call; and [meta_changed] is called
    iff the value differs from the one stored by an earlier update,
    so setting a value twice notifies once. *)
Theorem meta_set_get `{Helpers} (now key : string) (value : jsval) (m : Meta.t) :
  let key' := ld_expand key in
  let m' := Meta.set now key value m in
  (key' = iot_reachable -> m' = m)
  /\ (key' <> iot_reachable -> key' <> "@timestamp" ->
      (value <> VUndefined ->
       forall otherwise, Meta.get m' key' otherwise = value)
      /\ (forall k otherwise, k <> key' ->
            Meta.get m' k otherwise = Meta.get m k otherwise)
      /\ Meta._updated_timestamp m' = Some now
      /\ Meta.meta_changed m'
         = (if strict_eq (js_get (Meta._updated m) key') value
            then Meta.meta_changed m else S (Meta.meta_changed m))
      /\ (forall later,
            Meta.meta_changed (Meta.set later key value m') = Meta.meta_changed m')).
Proof.
  intros key' m'. subst m'. unfold Meta.set. fold key'. split.
  - intros ->. rewrite String.eqb_refl. reflexivity.
  - intros Hr Ht.
    rewrite (proj2 (String.eqb_neq _ _) Hr), (proj2 (String.eqb_neq _ _) Ht).
    destruct (strict_eq (js_get (Meta._updated m) key') value) eqn:E; simpl.
    + apply bool_decide_eq_true in E.
      split; [|split; [|split; [|split]]]; try reflexivity.
      * intros Hv otherwise. unfold Meta.get. rewrite state_lookup. simpl.
        unfold js_get in E.
        destruct (Meta._updated m !! key') as [v|] eqn:Ev; simpl in E; [|congruence].
        subst v. unfold strict_eq. rewrite bool_decide_eq_false_2 by assumption.
        reflexivity.
      * intros later. unfold strict_eq.
        rewrite (bool_decide_eq_true_2 _ E). reflexivity.
    + split; [|split; [|split; [|split]]]; try reflexivity.
      * intros Hv otherwise. unfold Meta.get. rewrite state_lookup. simpl.
        rewrite lookup_insert_eq. unfold strict_eq.
        rewrite bool_decide_eq_false_2 by assumption. reflexivity.
      * intros k otherwise Hk. unfold Meta.get. rewrite !state_lookup. simpl.
        rewrite lookup_insert_ne by congruence. reflexivity.
      * intros later. unfold js_get. rewrite lookup_insert_eq. simpl.
        unfold strict_eq. rewrite bool_decide_eq_true_2 by reflexivity. reflexivity.
Qed.

Lemma meta_set_get_witness :
  let H := sample_helpers in
  let m := Meta.create {[ "schema:name" := VStr "Lamp" ]} in
  Meta.get (Meta.set "2016-01-06T00:00:00.000Z" "schema:name" (VStr "Desk lamp") m)
    "schema:name" VNull
  = VStr "Desk lamp".
Proof.
  intros H m.
  apply (proj1 (proj2 (@meta_set_get H "2016-01-06T00:00:00.000Z" "schema:name"
                         (VStr "Desk lamp") m)
                 ltac:(discriminate) ltac:(discriminate))).
  discriminate.
Defined.

(** ** update *)

Lemma update_key_fold `{Helpers} (stated : gmap string jsval)
    (l : list (string * jsval)) (acc : gmap string jsval * bool) :
  List.NoDup (List.map fst l) ->
  let acc' := fold_left (Meta.update_key stated) l acc in
  (forall k v, In (k, v) l -> k <> iot_reachable ->
      fst acc' !! k = if strict_eq v (js_get stated k) then fst acc !! k else Some v)
  /\ (forall k, ~ In k (List.map fst l) \/ k = iot_reachable ->
        fst acc' !! k = fst acc !! k)
  /\ snd acc'
     = snd acc
       || existsb (fun kv => negb (String.eqb (fst kv) iot_reachable)
                             && negb (strict_eq (snd kv) (js_get stated (fst kv)))) l.
Proof.
  revert acc. induction l as [|[k0 v0] l IH]; intros acc Hnd;
    cbn [fold_left List.map fst snd existsb] in *.
  - split; [intros k v [] |]. split; [reflexivity | rewrite orb_false_r; reflexivity].
  - apply List.NoDup_cons_iff in Hnd as [Hk0 Hnd].
    destruct (IH (Meta.update_key stated acc (k0, v0)) Hnd) as (IH1 & IH2 & IH3).
    assert (Hstep : forall k,
               fst (Meta.update_key stated acc (k0, v0)) !! k =
               if String.eqb k0 k && negb (String.eqb k0 iot_reachable)
                  && negb (strict_eq v0 (js_get stated k0))
               then Some v0 else fst acc !! k).
    { intros k. unfold Meta.update_key.
      destruct (String.eqb k0 iot_reachable); [rewrite andb_false_r; reflexivity|].
      destruct (strict_eq v0 (js_get stated k0)); [rewrite andb_false_r; reflexivity|].
      rewrite !andb_true_r. simpl.
      destruct (String.eqb k0 k) eqn:E.
      - apply String.eqb_eq in E. subst. apply lookup_insert_eq.
      - apply String.eqb_neq in E. apply lookup_insert_ne. exact E. }
    split; [|split].
    + intros k v [[= -> ->] | Hin] Hk.
      * rewrite IH2 by (left; exact Hk0). rewrite Hstep, String.eqb_refl.
        rewrite (proj2 (String.eqb_neq _ _) Hk). simpl.
        destruct (strict_eq v (js_get stated k)); reflexivity.
      * rewrite (IH1 k v Hin Hk). rewrite Hstep.
        assert (E : String.eqb k0 k = false).
        { apply String.eqb_neq. intros ->. apply Hk0.
          apply (List.in_map fst _ (k, v)), Hin. }
        rewrite E. reflexivity.
    + intros k Hk. rewrite IH2.
      2:{ destruct Hk as [Hk | Hk]; [left | right; exact Hk].
          intros Hx. apply Hk. right. exact Hx. }
      rewrite Hstep. destruct (String.eqb k0 k) eqn:E; [|reflexivity].
      apply String.eqb_eq in E. subst k0.
      destruct Hk as [Hk | ->]; [exfalso; apply Hk; left; reflexivity|].
      rewrite String.eqb_refl. reflexivity.
    + rewrite IH3. unfold Meta.update_key.
      destruct (String.eqb k0 iot_reachable); [reflexivity|].
      destruct (strict_eq v0 (js_get stated k0)); simpl; [reflexivity|].
      rewrite orb_true_r. reflexivity.
Qed.

Lemma meta_update_applied `{Helpers} (now : string) (ind : dict) (p : Meta.paramd)
    (m : Meta.t) :
  default false (Meta.check_timestamp p) && negb (Meta.check_dictionary m ind) = false ->
  let acc := fold_left (Meta.update_key (Meta.state m)) (d_entries ind)
               (Meta._updated m, false) in
  Meta.thing_metad (fst (Meta.update now ind p m)) = Meta.thing_metad m
  /\ Meta._updated (fst (Meta.update now ind p m)) = fst acc
  /\ snd (Meta.update now ind p m) = Some (snd acc).
Proof.
  intros Hc. unfold Meta.update. rewrite Hc.
  destruct (fold_left _ (d_entries ind) _) as [updated' changed].
  repeat split.
Qed.

Lemma meta_update_stored `{Helpers} (now : string) (ind : dict) (p : Meta.paramd)
    (m : Meta.t) :
  List.NoDup (List.map fst (d_entries ind)) ->
  default false (Meta.check_timestamp p) && negb (Meta.check_dictionary m ind) = false ->
  forall k v, In (k, v) (d_entries ind) -> k <> iot_reachable ->
    js_get (Meta.state (fst (Meta.update now ind p m))) k = v.
Proof.
  intros Hnd Hc k v Hin Hk.
  destruct (meta_update_applied now ind p m Hc) as (Em & Eu & _).
  destruct (update_key_fold (Meta.state m) (d_entries ind) (Meta._updated m, false) Hnd)
    as (F1 & _ & _).
  cbn [fst snd] in *.
  rewrite state_lookup, Em, Eu, (F1 k v Hin Hk).
  destruct (strict_eq v (js_get (Meta.state m) k)) eqn:E; [|reflexivity].
  apply bool_decide_eq_true in E. rewrite <- state_lookup. symmetry. exact E.
Qed.

(** X17.  What [Meta.update] stores can be read back.  When the
    update is not lost to the timestamp rule, every entry of the
    dictionary, but [iot:reachable], is what the state reads for its
    key afterwards; the keys that the dictionary does not mention,
    and [iot:reachable], read what they read before; and the result
    is [true] iff some entry differs from what the state read
    before.  (The entries of a dictionary have keys of their own.) *)
Theorem meta_update_reads_back `{Helpers} (now : string) (ind : dict)
    (p : Meta.paramd) (m : Meta.t) :
  List.NoDup (List.map fst (d_entries ind)) ->
  default false (Meta.check_timestamp p) && negb (Meta.check_dictionary m ind) = false ->
  let m' := fst (Meta.update now ind p m) in
  (forall k v, In (k, v) (d_entries ind) -> k <> iot_reachable ->
      js_get (Meta.state m') k = v)
  /\ (forall k, ~ In k (List.map fst (d_entries ind)) \/ k = iot_reachable ->
        js_get (Meta.state m') k = js_get (Meta.state m) k)
  /\ (snd (Meta.update now ind p m) = Some true <->
      exists k v, In (k, v) (d_entries ind) /\ k <> iot_reachable
                  /\ js_get (Meta.state m) k <> v).
Proof.
  intros Hnd Hc m'. subst m'.
  destruct (meta_update_applied now ind p m Hc) as (Em & Eu & Er).
  destruct (update_key_fold (Meta.state m) (d_entries ind) (Meta._updated m, false) Hnd)
    as (_ & F2 & F3).
  cbn [fst snd] in *.
  split; [|split].
  - apply meta_update_stored; assumption.
  - intros k Hk. rewrite !state_lookup, Em, Eu, (F2 k Hk). reflexivity.
  - rewrite Er, F3. simpl. split.
    + intros [= E]. apply existsb_exists in E as ([k v] & Hin & E).
      apply andb_true_iff in E as [E1 E2]. simpl in *.
      apply negb_true_iff in E1, E2. apply String.eqb_neq in E1.
      apply bool_decide_eq_false in E2. exists k, v. repeat split; congruence.
    + intros (k & v & Hin & Hk & Hv). f_equal. apply existsb_exists.
      exists (k, v). split; [exact Hin|]. simpl.
      rewrite (proj2 (String.eqb_neq _ _) Hk). unfold strict_eq.
      rewrite bool_decide_eq_false_2 by congruence. reflexivity.
Qed.

Lemma meta_update_reads_back_witness :
  let H := sample_helpers in
  let m := Meta.create {[ "schema:name" := VStr "Lamp" ]} in
  js_get
    (Meta.state
       (fst (Meta.update "2016-01-06T00:00:00.000Z"
               (Dict None [("schema:name", VStr "Desk lamp"); ("iot:zone", VStr "Den")])
               (Meta.Paramd None None None) m)))
    "iot:zone"
  = VStr "Den".
Proof.
  intros H m.
  apply (proj1 (@meta_update_reads_back H "2016-01-06T00:00:00.000Z"
                  (Dict None [("schema:name", VStr "Desk lamp"); ("iot:zone", VStr "Den")])
                  (Meta.Paramd None None None) m
                  ltac:(repeat constructor; simpl; intuition discriminate)
                  eq_refl)).
  - right. left. reflexivity.
  - discriminate.
Defined.

(** X18.  [Meta.update] is idempotent.  Once an update has been
    applied, the same dictionary again, with whatever options and at
    whatever time, leaves the metadata as it is: no key, no
    timestamp, no call of [meta_changed]; and its result is not
    [true]. *)
Theorem meta_update_again `{Helpers} (now later : string) (ind : dict)
    (p p' : Meta.paramd) (m : Meta.t) :
  List.NoDup (List.map fst (d_entries ind)) ->
  default false (Meta.check_timestamp p) && negb (Meta.check_dictionary m ind) = false ->
  let m' := fst (Meta.update now ind p m) in
  fst (Meta.update later ind p' m') = m'
  /\ snd (Meta.update later ind p' m') <> Some true.
Proof.
  intros Hnd Hc m'.
  pose proof (meta_update_stored now ind p m Hnd Hc) as R1.
  fold m' in R1.
  assert (Hf : fold_left (Meta.update_key (Meta.state m')) (d_entries ind)
                 (Meta._updated m', false) = (Meta._updated m', false)).
  { clear Hnd. generalize dependent (d_entries ind).
    intros l. induction l as [|[k v] l IH]; intros R1; cbn [fold_left];
      [reflexivity|].
    assert (E : Meta.update_key (Meta.state m') (Meta._updated m', false) (k, v)
                = (Meta._updated m', false)).
    { unfold Meta.update_key. destruct (String.eqb k iot_reachable) eqn:Ek;
        [reflexivity|]. apply String.eqb_neq in Ek.
      rewrite (R1 k v (or_introl eq_refl) Ek). unfold strict_eq.
      rewrite bool_decide_eq_true_2 by reflexivity. reflexivity. }
    rewrite E. apply IH. intros k' v' Hin. apply R1. right. exact Hin. }
  unfold Meta.update at 1 2.
  destruct (default false (Meta.check_timestamp p') && negb (Meta.check_dictionary m' ind)).
  - split; [reflexivity | discriminate].
  - rewrite Hf. simpl. split; [destruct m'; reflexivity | discriminate].
Qed.

Lemma meta_update_again_witness :
  let H := sample_helpers in
  let ind := Dict (Some "2015-03-25T21:28:43.613Z") [("schema:name", VStr "Desk lamp")] in
  let m' := fst (Meta.update "2016-01-06T00:00:00.000Z" ind
                   (Meta.Paramd None (Some true) None) (Meta.create ∅)) in
  fst (Meta.update "2016-01-07T00:00:00.000Z" ind (Meta.Paramd None (Some true) (Some true)) m')
  = m'.
Proof.
  intros H ind m'.
  apply (proj1 (@meta_update_again H "2016-01-06T00:00:00.000Z"
                  "2016-01-07T00:00:00.000Z" ind
                  (Meta.Paramd None (Some true) None)
                  (Meta.Paramd None (Some true) (Some true)) (Meta.create ∅)
                  ltac:(repeat constructor; simpl; intuition discriminate)
                  eq_refl)).
Defined.

(** * Properties of keys and identifiers *)

(** ** Keys of the keystore *)

Lemma skip_slashes_cons (c : ascii) (s : string) :
  Model.skip_slashes (String c s) =
  if Ascii.eqb c "/" then Model.skip_slashes s else String c s.
Proof.
  destruct c as [[] [] [] [] [] [] [] []]; reflexivity.
Qed.

Lemma prefix_slash (s : string) :
  String.prefix "/" s =
  match s with
  | String c _ => Ascii.eqb c "/"
  | EmptyString => false
  end.
Proof.
  destruct s as [|c s]; [reflexivity|].
  change (String.prefix "/" (String c s))
    with (if ascii_dec "/"%char c then String.prefix "" s else false).
  destruct (ascii_dec "/" c) as [<- | Hne]; [destruct s; reflexivity|].
  symmetry. apply Ascii.eqb_neq. congruence.
Qed.

Lemma skip_slashes_done (s : string) :
  String.prefix "/" (Model.skip_slashes s) = false.
Proof.
  induction s as [|c s IH]; [reflexivity|]. rewrite skip_slashes_cons.
  destruct (Ascii.eqb c "/") eqn:E; [exact IH|].
  rewrite prefix_slash. exact E.
Qed.

Lemma skip_slashes_none (s : string) :
  String.prefix "/" s = false -> Model.skip_slashes s = s.
Proof.
  rewrite prefix_slash. destruct s as [|c s]; [reflexivity|].
  intros E. rewrite skip_slashes_cons, E. reflexivity.
Qed.

Lemma append_slash (s : string) : String.append "/" s = String "/" s.
Proof. reflexivity. Qed.

(** X19.  [_normalize_key] gives every key one canonical form: the
    result starts with exactly one slash, and normalizing it again,
    under whatever root, gives it back, so [get], [set] and [save]
    address the same entry for a key and for its normal form.  The
    root only matters for a key that does not start with a slash;
    with the root ["/"] such a key is just put behind one slash. *)
Theorem normalize_key_canonical (root key : string) :
  let k := Keystore._normalize_key root key in
  (exists rest, k = String "/" rest /\ String.prefix "/" rest = false)
  /\ (forall root', Keystore._normalize_key root' k = k)
  /\ (String.prefix "/" key = true ->
      forall root', Keystore._normalize_key root' key = k)
  /\ (String.prefix "/" key = false ->
      Keystore._normalize_key "/" key = String "/" key).
Proof.
  intros k. subst k. unfold Keystore._normalize_key.
  set (key' := if negb (String.prefix "/" key) then _ else key).
  rewrite !append_slash.
  split; [|split; [|split]].
  - exists (Model.skip_slashes key'). split; [reflexivity | apply skip_slashes_done].
  - intros root'. rewrite !append_slash, prefix_slash.
    cbn [Ascii.eqb Bool.eqb negb andb]. rewrite skip_slashes_cons.
    cbn [Ascii.eqb Bool.eqb andb].
    rewrite (skip_slashes_none _ (skip_slashes_done key')). reflexivity.
  - intros Hk root'. subst key'. rewrite Hk, !append_slash. reflexivity.
  - intros Hk. rewrite Hk. cbn [negb].
    rewrite !skip_slashes_cons. cbn [Ascii.eqb Bool.eqb andb].
    rewrite (skip_slashes_none _ Hk). reflexivity.
Qed.

Lemma normalize_key_canonical_witness :
  Keystore._normalize_key "/homestar" "//runner/keys"
  = Keystore._normalize_key "/" "//runner/keys"
  /\ Keystore._normalize_key "/" "runner/keys" = "/runner/keys".
Proof.
  split.
  - apply (proj1 (proj2 (proj2 (normalize_key_canonical "/" "//runner/keys")))
             eq_refl "/homestar").
  - apply (proj2 (proj2 (proj2 (normalize_key_canonical "/" "runner/keys")))).
    reflexivity.
Defined.

(** ** slugify *)

Lemma safe_lower (c : ascii) :
  Id.safe c = true \/ c = "_"%char ->
  Id.lower c = c /\ (if Id.safe c then c else "_"%char) = c.
Proof.
  intros [Hs | ->]; [|split; reflexivity].
  rewrite Hs. split; [|reflexivity].
  unfold Id.safe in Hs. unfold Id.lower.
  destruct (65 <=? nat_of_ascii c)%nat eqn:E1, (nat_of_ascii c <=? 90)%nat eqn:E2,
           (192 <=? nat_of_ascii c)%nat eqn:E3, (nat_of_ascii c <=? 222)%nat eqn:E4;
    simpl; try reflexivity;
    repeat match goal with
    | H : (_ <=? _)%nat = true |- _ => apply Nat.leb_le in H
    | H : (_ <=? _)%nat = false |- _ => apply Nat.leb_gt in H
    end;
    apply orb_true_iff in Hs as [Hs | Hs]; apply andb_true_iff in Hs as [Ha Hb];
    apply Nat.leb_le in Ha, Hb; lia.
Qed.

Lemma replace_unsafe_alphabet (s : string) :
  slug_alphabet (Id.replace_unsafe s) = true.
Proof.
  induction s as [|c s IH]; [reflexivity|]. simpl. rewrite IH, andb_true_r.
  destruct (Id.safe c) eqn:E; [rewrite E; reflexivity|]. apply orb_true_r.
Qed.

Lemma prefix_underscore (s : string) :
  String.prefix "_" s =
  match s with
  | String c _ => Ascii.eqb c "_"
  | EmptyString => false
  end.
Proof.
  destruct s as [|c s]; [reflexivity|].
  change (String.prefix "_" (String c s))
    with (if ascii_dec "_"%char c then String.prefix "" s else false).
  destruct (ascii_dec "_" c) as [<- | Hne]; [destruct s; reflexivity|].
  symmetry. apply Ascii.eqb_neq. congruence.
Qed.

Lemma squeeze_cons (c : ascii) (s : string) :
  Id.squeeze (String c s) =
  if Ascii.eqb c "_" && String.prefix "_" s then Id.squeeze s
  else String c (Id.squeeze s).
Proof.
  rewrite prefix_underscore. cbn [Id.squeeze].
  destruct (Ascii.eqb c "_"); [|reflexivity].
  destruct s as [|d s]; [reflexivity|]. cbn [andb].
  destruct (Ascii.eqb d "_"); reflexivity.
Qed.

Lemma squeeze_head (s : string) :
  String.prefix "_" (Id.squeeze s) = String.prefix "_" s.
Proof.
  induction s as [|c s IH]; [reflexivity|]. rewrite squeeze_cons.
  destruct (Ascii.eqb c "_") eqn:Ec; cbn [andb].
  - destruct (String.prefix "_" s) eqn:Ep.
    + rewrite IH. rewrite prefix_underscore, Ec. reflexivity.
    + rewrite !prefix_underscore. reflexivity.
  - rewrite !prefix_underscore. reflexivity.
Qed.

Lemma squeeze_alphabet (s : string) :
  slug_alphabet s = true -> slug_alphabet (Id.squeeze s) = true.
Proof.
  induction s as [|c s IH]; [reflexivity|]. rewrite squeeze_cons.
  cbn [slug_alphabet]. intros Ha. apply andb_true_iff in Ha as [Hc Hs].
  destruct (_ && _); [apply IH, Hs|].
  cbn [slug_alphabet]. rewrite Hc, (IH Hs). reflexivity.
Qed.

Lemma doubled_cons (c : ascii) (s : string) :
  doubled_underscore (String c s) =
  (Ascii.eqb c "_" && String.prefix "_" s) || doubled_underscore s.
Proof.
  rewrite prefix_underscore. destruct s as [|d s]; cbn [doubled_underscore].
  - rewrite andb_false_r. reflexivity.
  - reflexivity.
Qed.

Lemma squeeze_no_double (s : string) : doubled_underscore (Id.squeeze s) = false.
Proof.
  induction s as [|c s IH]; [reflexivity|]. rewrite squeeze_cons.
  destruct (Ascii.eqb c "_" && String.prefix "_" s) eqn:E; [exact IH|].
  rewrite doubled_cons, squeeze_head, E, IH. reflexivity.
Qed.

Lemma squeeze_fixed (s : string) :
  doubled_underscore s = false -> Id.squeeze s = s.
Proof.
  induction s as [|c s IH]; [reflexivity|].
  rewrite doubled_cons, squeeze_cons. intros Hd.
  apply orb_false_iff in Hd as [-> Hd]. rewrite (IH Hd). reflexivity.
Qed.

Lemma squeeze_length (s : string) :
  String.length (Id.squeeze s) <= String.length s.
Proof.
  induction s as [|c s IH]; [reflexivity|]. rewrite squeeze_cons.
  destruct (_ && _); cbn [String.length]; lia.
Qed.

Lemma alphabet_fixed (s : string) :
  slug_alphabet s = true -> Id.replace_unsafe (Id.toLowerCase s) = s.
Proof.
  induction s as [|c s IH]; [reflexivity|]. simpl. intros Ha.
  apply andb_true_iff in Ha as [Hc Hs]. rewrite (IH Hs).
  assert (Hc' : Id.safe c = true \/ c = "_"%char).
  { apply orb_true_iff in Hc as [Hc | Hc]; [left; exact Hc|].
    right. apply Ascii.eqb_eq, Hc. }
  destruct (safe_lower c Hc') as [-> ->]. reflexivity.
Qed.

Lemma replace_unsafe_length (s : string) :
  String.length (Id.replace_unsafe (Id.toLowerCase s)) = String.length s.
Proof.
  induction s as [|c s IH]; [reflexivity|].
  cbn [Id.toLowerCase Id.replace_unsafe String.length]. rewrite IH. reflexivity.
Qed.

(** X20.  A slug is made of small letters, digits and single
    underscores only: every code unit of [slugify(identifier)] is in
    [[a-z0-9_]], no two underscores follow each other, the slug is no
    longer than the identifier, and a slug is its own slug. *)
Theorem slugify_slug (identifier : string) :
  let slug := Id.slugify identifier in
  slug_alphabet slug = true
  /\ doubled_underscore slug = false
  /\ String.length slug <= String.length identifier
  /\ Id.slugify slug = slug.
Proof.
  intros slug. subst slug. unfold Id.slugify.
  assert (Ha : slug_alphabet
                 (Id.squeeze (Id.replace_unsafe (Id.toLowerCase identifier))) = true)
    by apply squeeze_alphabet, replace_unsafe_alphabet.
  split; [exact Ha|]. split; [apply squeeze_no_double|]. split.
  - rewrite <- (replace_unsafe_length identifier). apply squeeze_length.
  - rewrite (alphabet_fixed _ Ha). apply squeeze_fixed, squeeze_no_double.
Qed.

(** * Properties of the coercion of values *)

(** ** Bounds *)




(** ** Booleans *)




(** ** Sets and lists *)

Lemma validate_elements `{Attribute.Coercions} (self : Attribute.t) (is_set : bool)
    (l : list jsval) (ns : list jsval) :
  let ns' := fold_left (Attribute.validate_element self is_set) l ns in
  (forall v, In v ns' ->
      In v ns \/ exists x, In x l /\ v = Attribute.validate self x)
  /\ (~ In VUndefined ns -> ~ In VUndefined ns')
  /\ (is_set = true -> List.NoDup ns -> List.NoDup ns')
  /\ (is_set = false ->
      ns' = ns ++ List.filter (fun v => negb (strict_eq v VUndefined))
                    (List.map (Attribute.validate self) l)).
Proof.
  revert ns. induction l as [|x l IH]; intros ns; cbn [fold_left].
  - repeat split; try tauto. intros _. simpl. rewrite app_nil_r. reflexivity.
  - destruct (IH (Attribute.validate_element self is_set ns x)) as (I1 & I2 & I3 & I4).
    assert (Hstep : Attribute.validate_element self is_set ns x = ns
                    \/ (Attribute.validate self x <> VUndefined
                        /\ (is_set = true -> ~ In (Attribute.validate self x) ns)
                        /\ Attribute.validate_element self is_set ns x
                           = ns ++ [Attribute.validate self x])).
    { unfold Attribute.validate_element.
      destruct (strict_eq (Attribute.validate self x) VUndefined) eqn:Eu; [left; reflexivity|].
      apply bool_decide_eq_false in Eu.
      destruct is_set; cbn [negb orb].
      - destruct (existsb _ ns) eqn:Ex; [left; reflexivity|]. right.
        split; [exact Eu|]. split; [|reflexivity].
        intros _ Hin. apply not_true_iff_false in Ex. apply Ex.
        apply existsb_exists. eexists. split; [exact Hin|].
        apply bool_decide_eq_true. reflexivity.
      - right. split; [exact Eu|]. split; [discriminate | reflexivity]. }
    split; [|split; [|split]].
    + intros v Hv. destruct (I1 v Hv) as [Hin | (y & Hy & ->)].
      * destruct Hstep as [E | (_ & _ & E)]; rewrite E in Hin; [left; exact Hin|]. apply List.in_app_or in Hin as [Hin | [<- | []]];
          [left; exact Hin|]. right. exists x. split; [left; reflexivity | reflexivity].
      * right. exists y. split; [right; exact Hy | reflexivity].
    + intros Hn. apply I2. destruct Hstep as [E | (Hu & _ & E)]; rewrite E;
        [exact Hn|].
      intros Hin. apply List.in_app_or in Hin as [Hin | [E' | []]];
        [exact (Hn Hin) | congruence].
    + intros Hs Hnd. apply (I3 Hs).
      destruct Hstep as [E | (_ & Hf & E)]; rewrite E; [exact Hnd|].
      apply List.NoDup_app; [exact Hnd | repeat constructor; intros [] |].
      intros v Hv [<- | []]. exact (Hf Hs Hv).
    + intros Hs. rewrite (I4 Hs). cbn [List.map List.filter].
      unfold Attribute.validate_element. rewrite Hs. cbn [negb orb].
      destruct (strict_eq (Attribute.validate self x) VUndefined); cbn [negb];
        [reflexivity|]. rewrite <- app_assoc. reflexivity.
Qed.

(** X23.  [validate_value] for an attribute that is a set returns an
    array with no value twice and with no [undefined] in it, each of
    its elements the validated form of an element given; for a list
    it returns the validated elements in their order, without those
    that validate to [undefined]; [null] and [undefined] give the
    empty array.  For an attribute that is neither, an array stands
    for its first element, and the empty array for [null]. *)
Theorem validate_value_collections `{Attribute.Coercions} (self : Attribute.t)
    (value : pval) :
  (Attribute.has (Attribute.types self) Attribute.iot_set = true ->
   exists ns,
     Attribute.validate_value self value = PArr ns
     /\ List.NoDup ns /\ ~ In VUndefined ns
     /\ forall v, In v ns ->
          exists x, In x (elements value) /\ v = Attribute.validate self x)
  /\ (Attribute.has (Attribute.types self) Attribute.iot_set = false ->
      Attribute.has (Attribute.types self) Attribute.iot_list = true ->
      Attribute.validate_value self value
      = PArr (List.filter (fun v => negb (strict_eq v VUndefined))
                (List.map (Attribute.validate self) (elements value))))
  /\ (Attribute.has (Attribute.types self) Attribute.iot_set = false ->
      Attribute.has (Attribute.types self) Attribute.iot_list = false ->
      Attribute.validate_value self value
      = PAtom (Attribute.validate self
                 match value with
                 | PAtom v => v
                 | PArr vs => List.hd VNull vs
                 end)).
Proof.
  assert (Ee : Attribute.validate_value self value =
             if Attribute.has (Attribute.types self) Attribute.iot_set
                || Attribute.has (Attribute.types self) Attribute.iot_list
             then PArr (fold_left
                          (Attribute.validate_element self
                             (Attribute.has (Attribute.types self) Attribute.iot_set))
                          (elements value) [])
             else Attribute.validate_value self value).
  { unfold Attribute.validate_value, elements.
    destruct (_ || _); [|reflexivity].
    destruct value as [[]|]; reflexivity. }
  split; [|split].
  - intros Hs. rewrite Ee, Hs. cbn [orb].
    destruct (validate_elements self true (elements value) []) as (V1 & V2 & V3 & _).
    eexists. split; [reflexivity|].
    split; [apply V3; [reflexivity | constructor]|].
    split; [apply V2; intros []|].
    intros v Hv. destruct (V1 v Hv) as [[] | Hx]. exact Hx.
  - intros Hs Hl. rewrite Ee, Hs, Hl. cbn [orb].
    destruct (validate_elements self false (elements value) []) as (_ & _ & _ & V4).
    rewrite (V4 eq_refl). reflexivity.
  - intros Hs Hl. unfold Attribute.validate_value. rewrite Hs, Hl. cbn [orb].
    destruct value as [v|[|v vs]]; reflexivity.
Qed.

Lemma validate_value_collections_witness :
  let H := sample_coercions in
  let tags := Attribute.Make ["iot:type.string"; "iot:type.set"] None None [] in
  exists ns,
    Attribute.validate_value tags (PArr [VStr "a"; VStr "b"; VStr "a"]) = PArr ns
    /\ List.NoDup ns /\ ~ In VUndefined ns
    /\ forall v, In v ns ->
         exists x, In x [VStr "a"; VStr "b"; VStr "a"]
                   /\ v = Attribute.validate tags x.
Proof.
  intros H tags.
  apply (proj1 (@validate_value_collections H tags
                  (PArr [VStr "a"; VStr "b"; VStr "a"]))).
  reflexivity.
Defined.

(** * Properties of the properties of an attribute *)

(** X24.  The values declared for a property accumulate.  After
    [property_value(key, value)] the properties hold the value under
    the expanded key, so [find] with that key and value matches the
    attribute; what other keys hold is untouched; the values held
    before are kept, in their order, unless [array] is off; and
    declaring the same value again changes nothing. *)
Theorem property_value_declares `{Helpers} (is_AbsoluteURL : string -> bool)
    (key_iri : string) (value : jsval) (array : option bool)
    (self self' : gmap string pval) :
  Attribute.property_value is_AbsoluteURL key_iri value array self = Some self' ->
  declared self' (ld_expand key_iri) value
  /\ (forall a, Model.key_matches (with_props self' a)
                  (ld_expand key_iri, PAtom value) = true)
  /\ (forall k, k <> ld_expand key_iri -> self' !! k = self !! k)
  /\ (default true array = true ->
      forall v, declared self (ld_expand key_iri) v -> v <> VUndefined ->
        declared self' (ld_expand key_iri) v)
  /\ Attribute.property_value is_AbsoluteURL key_iri value array self' = Some self'.
Proof.
  unfold Attribute.property_value.
  set (k := ld_expand key_iri).
  destruct (negb (is_AbsoluteURL k)); [discriminate|].
  assert (Hm : forall props a,
             declared props k value ->
             Model.key_matches (with_props props a) (k, PAtom value) = true).
  { intros props a Hd. unfold Model.key_matches, Model.prop, declared in *. simpl.
    destruct (String.eqb k schema_name); [reflexivity|].
    destruct (String.prefix "@" k); [reflexivity|].
    destruct (props !! k) as [[e|vs]|]; simpl; [| |destruct Hd].
    - subst e. apply bool_decide_eq_true. reflexivity.
    - apply existsb_exists. exists value. split; [exact Hd|].
      apply bool_decide_eq_true. reflexivity. }
  assert (Hins : forall pv,
             (match pv with PAtom e => e = value | PArr vs => In value vs end) ->
             declared (<[k := pv]> self) k value).
  { intros pv Hpv. unfold declared. rewrite lookup_insert_eq. exact Hpv. }
  assert (Hother : forall pv k', k' <> k -> <[k := pv]> self !! k' = self !! k').
  { intros pv k' Hk. apply lookup_insert_ne. congruence. }
  assert (Hatom : forall props : gmap string pval,
             props !! k = Some (PAtom value) ->
             match default (PAtom VUndefined) (props !! k) with
             | PAtom VUndefined => Some (<[k := PAtom value]> props)
             | PAtom e =>
                 if negb (default true array) then Some (<[k := PAtom value]> props)
                 else if negb (strict_eq e value)
                 then Some (<[k := PArr [e; value]]> props)
                 else Some props
             | PArr vs =>
                 if negb (default true array) then Some (<[k := PAtom value]> props)
                 else if negb (existsb (strict_eq value) vs)
                 then Some (<[k := PArr (vs ++ [value])]> props)
                 else Some props
             end = Some props).
  { intros props E. rewrite E. cbn [default from_option id].
    rewrite (insert_id _ _ _ E).
    destruct value, (default true array); cbn [negb]; unfold strict_eq;
      rewrite ?bool_decide_eq_true_2 by reflexivity; reflexivity. }
  assert (Harr : forall (props : gmap string pval) vs,
             default true array = true ->
             props !! k = Some (PArr vs) -> In value vs ->
             match default (PAtom VUndefined) (props !! k) with
             | PAtom VUndefined => Some (<[k := PAtom value]> props)
             | PAtom e =>
                 if negb (default true array) then Some (<[k := PAtom value]> props)
                 else if negb (strict_eq e value)
                 then Some (<[k := PArr [e; value]]> props)
                 else Some props
             | PArr vs =>
                 if negb (default true array) then Some (<[k := PAtom value]> props)
                 else if negb (existsb (strict_eq value) vs)
                 then Some (<[k := PArr (vs ++ [value])]> props)
                 else Some props
             end = Some props).
  { intros props vs Ea E Hin. rewrite E, Ea. cbn [default from_option id negb].
    assert (Ex : existsb (strict_eq value) vs = true).
    { apply existsb_exists. exists value. split; [exact Hin|].
      apply bool_decide_eq_true. reflexivity. }
    rewrite Ex. reflexivity. }
  destruct (self !! k) as [[e|vs]|] eqn:Ek; cbn [default from_option id].
  - (* a value *)
    destruct (decide (e = VUndefined)) as [-> | Hu].
    + intros [= <-].
      split; [apply Hins; reflexivity|].
      split; [intros a; apply Hm, Hins; reflexivity|].
      split; [apply Hother|].
      split; [intros _ v Hv Hn; unfold declared in Hv; rewrite Ek in Hv; congruence|].
      apply Hatom, lookup_insert_eq.
    + assert (Eg : forall X (a b : X),
                 match e with VUndefined => a | _ => b end = b)
        by (intros X a b; destruct e; congruence).
      rewrite Eg. clear Eg.
      destruct (default true array) eqn:Ea; cbn [negb].
      * destruct (strict_eq e value) eqn:Es; cbn [negb].
        -- apply bool_decide_eq_true in Es. subst e. intros [= <-].
           assert (Hd : declared self k value) by (unfold declared; rewrite Ek; reflexivity).
           split; [exact Hd|]. split; [intros a; apply Hm, Hd|].
           split; [reflexivity|]. split; [intros _ v Hv _; exact Hv|].
           apply Hatom, Ek.
        -- intros [= <-].
           split; [apply Hins; right; left; reflexivity|].
           split; [intros a; apply Hm, Hins; right; left; reflexivity|].
           split; [apply Hother|].
           split.
           { intros _ v Hv _. unfold declared in *. rewrite Ek in Hv.
             rewrite lookup_insert_eq. left. exact Hv. }
           apply (Harr _ [e; value] eq_refl (lookup_insert_eq _ _ _)).
           right. left. reflexivity.
      * intros [= <-].
        split; [apply Hins; reflexivity|].
        split; [intros a; apply Hm, Hins; reflexivity|].
        split; [apply Hother|]. split; [discriminate|].
        apply Hatom, lookup_insert_eq.
  - (* an array *)
    destruct (default true array) eqn:Ea; cbn [negb].
    + destruct (existsb (strict_eq value) vs) eqn:Ex; cbn [negb].
      * intros [= <-].
        assert (Hin : In value vs).
        { apply existsb_exists in Ex as (x & Hx & Ev).
          apply bool_decide_eq_true in Ev. subst x. exact Hx. }
        assert (Hd : declared self k value) by (unfold declared; rewrite Ek; exact Hin).
        split; [exact Hd|]. split; [intros a; apply Hm, Hd|].
        split; [reflexivity|]. split; [intros _ v Hv _; exact Hv|].
        apply (Harr _ vs eq_refl Ek Hin).
      * intros [= <-].
        split; [apply Hins; apply List.in_or_app; right; left; reflexivity|].
        split; [intros a; apply Hm, Hins; apply List.in_or_app; right; left; reflexivity|].
        split; [apply Hother|].
        split.
        { intros _ v Hv _. unfold declared in *. rewrite Ek in Hv.
          rewrite lookup_insert_eq. apply List.in_or_app. left. exact Hv. }
        apply (Harr _ (vs ++ [value]) eq_refl (lookup_insert_eq _ _ _)).
        apply List.in_or_app. right. left. reflexivity.
    + intros [= <-].
      split; [apply Hins; reflexivity|].
      split; [intros a; apply Hm, Hins; reflexivity|].
      split; [apply Hother|]. split; [discriminate|].
      apply Hatom, lookup_insert_eq.
  - (* nothing yet *)
    intros [= <-].
    split; [apply Hins; reflexivity|].
    split; [intros a; apply Hm, Hins; reflexivity|].
    split; [apply Hother|].
    split; [intros _ v Hv _; unfold declared in Hv; rewrite Ek in Hv; destruct Hv|].
    apply Hatom, lookup_insert_eq.
Qed.

Lemma property_value_declares_witness :
  let H := sample_helpers in
  let self : gmap string pval := {[ "iot:type" := PAtom (VStr "iot:type.integer") ]} in
  let self' : gmap string pval :=
    {[ "iot:type" := PArr [VStr "iot:type.integer"; VStr "iot:type.set"] ]} in
  declared self' "iot:type" (VStr "iot:type.set")
  /\ declared self' "iot:type" (VStr "iot:type.integer").
Proof.
  intros H self self'.
  pose proof (@property_value_declares H (fun _ => true) "iot:type"
                (VStr "iot:type.set") None self self' eq_refl) as W.
  split; [exact (proj1 W)|].
  apply (proj1 (proj2 (proj2 (proj2 W))) eq_refl); [reflexivity | discriminate].
Defined.

(** * Properties of the keys of a Thing *)

Lemma append_cons (c : ascii) (a r : string) :
  String.append (String c a) r = String c (String.append a r).
Proof. reflexivity. Qed.

Lemma has_char_cons (c x : ascii) (s : string) :
  Model.has_char c (String x s) = Ascii.eqb x c || Model.has_char c s.
Proof. reflexivity. Qed.

Lemma has_char_append (c : ascii) (a b : string) :
  Model.has_char c (String.append a b) = Model.has_char c a || Model.has_char c b.
Proof.
  induction a as [|x a IH]; [reflexivity|].
  rewrite append_cons, !has_char_cons, IH, orb_assoc. reflexivity.
Qed.

Lemma skip_slashes_plain (s : string) :
  Model.has_char "/" s = false -> Model.skip_slashes s = s.
Proof.
  destruct s as [|x s]; [reflexivity|]. rewrite has_char_cons, skip_slashes_cons.
  intros E. apply orb_false_iff in E as [-> _]. reflexivity.
Qed.

Lemma replace_slashes_cons (x : ascii) (s : string) :
  Model.replace_slashes (String x s) =
  if Ascii.eqb x "/" then Model.skip_slashes s
  else String x (Model.replace_slashes s).
Proof. reflexivity. Qed.

Lemma replace_slashes_plain (s : string) :
  Model.has_char "/" s = false -> Model.replace_slashes s = s.
Proof.
  induction s as [|x s IH]; [reflexivity|].
  rewrite has_char_cons, replace_slashes_cons. intros E.
  apply orb_false_iff in E as [-> E]. rewrite (IH E). reflexivity.
Qed.

Lemma replace_slashes_inner (a b : string) :
  Model.has_char "/" a = false -> Model.has_char "/" b = false ->
  Model.replace_slashes (String.append a (String "/" b)) = String.append a b.
Proof.
  intros Ha Hb. induction a as [|x a IH].
  - change (Model.replace_slashes (String "/" b) = b).
    rewrite replace_slashes_cons. apply skip_slashes_plain, Hb.
  - rewrite has_char_cons in Ha. apply orb_false_iff in Ha as [Hx Ha].
    rewrite !append_cons, replace_slashes_cons, Hx, (IH Ha). reflexivity.
Qed.

Lemma last_subkey_plain (s : string) :
  Model.has_char "/" s = false -> Model.last_subkey s = s.
Proof.
  destruct s as [|x s]; [reflexivity|]. rewrite has_char_cons. intros E.
  apply orb_false_iff in E as [Hx Hs]. cbn [Model.last_subkey]. rewrite Hs, Hx.
  reflexivity.
Qed.

Lemma no_colon_first (s : string) :
  Model.has_char ":" s = false -> String.eqb (substring 0 1 s) ":" = false.
Proof.
  destruct s as [|x s]; [reflexivity|]. rewrite has_char_cons. intros E.
  apply orb_false_iff in E as [Hx _].
  change (substring 0 1 (String x s)) with (String x (substring 0 0 s)).
  assert (E0 : substring 0 0 s = EmptyString) by (destruct s; reflexivity).
  rewrite E0. apply String.eqb_neq. intros [= ->]. discriminate Hx.
Qed.

Lemma find_plain `{Helpers} (k mode : string) (self : Model.Thing) :
  Model.has_char "/" k = false -> Model.has_char ":" k = false ->
  Model.find (Model.KeyString k) mode self
  = Model.attributed (Model.__attributes self) k.
Proof.
  intros Hs Hc. unfold Model.find.
  rewrite (replace_slashes_plain _ Hs), (last_subkey_plain _ Hs).
  rewrite (no_colon_first _ Hc), Hc. reflexivity.
Qed.

(** X25.  How [find] reads a key that is a string.  A key with no
    slash and no colon is the code of the attribute, whatever the
    mode.  Slashes at the front are dropped.  Only the first run of
    slashes is dropped before the key is split: with one slash inside,
    the key is read as its two parts joined.  And a code that no
    attribute has is found by nothing: [get] answers [undefined],
    [set] and [on] leave the Thing as it is. *)
Theorem find_string_keys `{Helpers} (mode : string) (self : Model.Thing) :
  (forall k,
      Model.has_char "/" k = false -> Model.has_char ":" k = false ->
      Model.find (Model.KeyString k) mode self
      = Model.attributed (Model.__attributes self) k)
  /\ (forall k,
        Model.has_char "/" k = false ->
        Model.find (Model.KeyString (String "/" k)) mode self
        = Model.find (Model.KeyString k) mode self)
  /\ (forall a b,
        Model.has_char "/" a = false -> Model.has_char "/" b = false ->
        Model.find (Model.KeyString (String.append a (String "/" b))) mode self
        = Model.find (Model.KeyString (String.append a b)) mode self)
  /\ (forall k now v callback,
        Model.has_char "/" k = false -> Model.has_char ":" k = false ->
        Model.attributed (Model.__attributes self) k = None ->
        Model.get (Model.KeyString k) self = VUndefined
        /\ Model.set now (Model.KeyString k) v self = self
        /\ Model.on (Model.KeyString k) callback self = self).
Proof.
  split; [intros k; apply find_plain|].
  split; [|split].
  - intros k Hs. unfold Model.find.
    rewrite (replace_slashes_plain _ Hs), replace_slashes_cons.
    cbn [Ascii.eqb Bool.eqb andb]. rewrite (skip_slashes_plain _ Hs). reflexivity.
  - intros a b Ha Hb. unfold Model.find.
    rewrite (replace_slashes_inner a b Ha Hb).
    rewrite (replace_slashes_plain (String.append a b))
      by (rewrite has_char_append, Ha, Hb; reflexivity).
    reflexivity.
  - intros k now v callback Hs Hc Hn.
    unfold Model.get, Model.set, Model.on.
    rewrite !find_plain, Hn by assumption.
    split; [reflexivity|].
    split; [destruct (strict_eq v VUndefined); reflexivity|].
    destruct (Model.is_band_event (Model.KeyString k)); reflexivity.
Qed.

Lemma find_string_keys_witness :
  let H := sample_helpers in
  let on := sample_attribute "on" "iot-purpose:on" true true false in
  let self := sample_thing [on] None in
  Model.find (Model.KeyString "on") "set" self = Some on
  /\ Model.find (Model.KeyString "/on") "get" self
     = Model.find (Model.KeyString "on") "get" self
  /\ Model.set "2016-01-06T00:00:00.000Z" (Model.KeyString "off") (VBool true) self
     = self.
Proof.
  intros H on self.
  pose proof (@find_string_keys H) as W.
  split; [apply (proj1 (W "set" self)); reflexivity|].
  split; [apply (proj1 (proj2 (W "get" self))); reflexivity|].
  apply (proj2 (proj2 (proj2 (W "set" self))) "off" "2016-01-06T00:00:00.000Z"
           (VBool true) 0); reflexivity.
Defined.
